(** * my-assistant-cli: command safety, response parsing, sequencing,
      history and retry

    A shallow embedding of the execution slice of the [gen] command
    ([src/commands/gen.ts]) and of the retry helper of the [fix] command
    ([src/commands/fix.ts]), with the properties proved about them.

    Strings are sequences of code units; a [string] of this file is read as
    a JavaScript string whose code units all lie in U+0000..U+00FF, on which
    [toLowerCase] and [trim] are given exactly below. *)

From Stdlib Require Import String Ascii List ZArith Lia Bool Arith.
Import ListNotations.
Open Scope string_scope.

(* ================================================================== *)
(** ** JavaScript string primitives used by the source *)
(* ================================================================== *)

Module Js.

(** One code unit of [String.prototype.toLowerCase]: A-Z and the
    Latin-1 capitals U+00C0..U+00DE (without the multiplication sign
    U+00D7) move up by 32, everything else below U+0100 is unchanged. *)
Definition lower_char (c : ascii) : ascii :=
  let n := nat_of_ascii c in
  if (((65 <=? n) && (n <=? 90))
      || ((192 <=? n) && (n <=? 222) && negb (n =? 215)))%nat
  then ascii_of_nat (n + 32)
  else c.

Fixpoint toLowerCase (s : string) : string :=
  match s with
  | EmptyString => EmptyString
  | String c s' => String (lower_char c) (toLowerCase s')
  end.

(** [s.startsWith(p)] *)
Fixpoint startsWith (s p : string) {struct p} : bool :=
  match p, s with
  | EmptyString, _ => true
  | String _ _, EmptyString => false
  | String a p', String b s' => Ascii.eqb a b && startsWith s' p'
  end.

(** [s.includes(p)]: [p] occurs at some offset of [s]. *)
Fixpoint includes (s p : string) : bool :=
  startsWith s p
  || match s with
     | EmptyString => false
     | String _ s' => includes s' p
     end.

(** White space and line terminators of ECMAScript below U+0100:
    TAB, LF, VT, FF, CR, SPACE and NO-BREAK SPACE. *)
Definition is_space (c : ascii) : bool :=
  let n := nat_of_ascii c in
  (((9 <=? n) && (n <=? 13)) || (n =? 32) || (n =? 160))%nat.

Fixpoint trimStart (s : string) : string :=
  match s with
  | EmptyString => EmptyString
  | String c s' => if is_space c then trimStart s' else s
  end.

Fixpoint trimEnd (s : string) : string :=
  match s with
  | EmptyString => EmptyString
  | String c s' =>
      match trimEnd s' with
      | EmptyString => if is_space c then EmptyString else String c EmptyString
      | t => String c t
      end
  end.

(** [s.trim()] *)
Definition trim (s : string) : string := trimEnd (trimStart s).

(** [s.split(sep)] for a separator of one code unit, as every call of
    the source has it.  The result is never empty: a string without the
    separator (the empty string too) gives a one-element array. *)
Fixpoint split (sep : ascii) (s : string) : list string :=
  match s with
  | EmptyString => [EmptyString]
  | String c s' =>
      if Ascii.eqb c sep then EmptyString :: split sep s'
      else match split sep s' with
           | [] => [String c EmptyString]
           | h :: t => String c h :: t
           end
  end.

(** [a.join(sep)] *)
Fixpoint join (sep : string) (l : list string) : string :=
  match l with
  | [] => EmptyString
  | [x] => x
  | x :: rest => x ++ sep ++ join sep rest
  end.

(** [a.slice(1)] *)
Definition slice1 {A} (l : list A) : list A := tl l.

(** [Boolean(s)] on a string: false exactly for the empty string. *)
Definition truthy (s : string) : bool :=
  match s with
  | EmptyString => false
  | String _ _ => true
  end.

End Js.

(* ================================================================== *)
(** ** Safety checker ([class SafetyChecker]) *)
(* ================================================================== *)

Module SafetyChecker.

Definition dangerousCommands : list string :=
  [ ":(){:|:&};:";
    "> /dev/sda";
    "chmod -R 777 /";
    "chown -R";
    "dd if=";
    "format";
    "mkfs";
    "rm -rf /";
    "rm -rf *" ].

Definition destructiveKeywords : list string :=
  [ "> /dev/";
    "dd";
    "del /f /s /q";
    "fdisk";
    "format";
    "mkfs";
    "rm -rf" ].

Definition isBlacklisted (command : string) : bool :=
  existsb (fun dangerous =>
             Js.includes (Js.toLowerCase command) (Js.toLowerCase dangerous))
          dangerousCommands.

Definition isDestructive (command : string) : bool :=
  existsb (fun keyword =>
             Js.includes (Js.toLowerCase command) (Js.toLowerCase keyword))
          destructiveKeywords.

End SafetyChecker.

(* ================================================================== *)
(** ** Response parser ([Gen.parseAIResponse]) *)
(* ================================================================== *)

Module Parser.

Record ParsedPlan : Type := mkPlan
  { commands : list string;
    suggestions : list string }.

(** A completed call: a value, or the [TypeError] that calling [.trim()]
    on [undefined] raises. *)
Inductive completion (A : Type) : Type :=
| Normal (a : A)
| TypeError.
Arguments Normal {A} a.
Arguments TypeError {A}.

Definition colon : ascii := ":"%char.
Definition pipe : ascii := "|"%char.
Definition newline : ascii := "010"%char.

(** [response.split('\n').map(l => l.trim()).filter(Boolean)] *)
Definition linesOf (response : string) : list string :=
  filter Js.truthy (map Js.trim (Js.split newline response)).

(** [line.split(':').slice(1).join(':').trim()] *)
Definition commandText (line : string) : string :=
  Js.trim (Js.join ":" (Js.slice1 (Js.split colon line))).

(** [line.split(':')[1].trim()], then [sugg.split('|').map(s => s.trim())] *)
Definition suggestionList (line : string) : completion (list string) :=
  match nth_error (Js.split colon line) 1 with
  | None => TypeError
  | Some part => Normal (map Js.trim (Js.split pipe (Js.trim part)))
  end.

(** The body of the two [for (const line of lines)] loops.  They differ
    only in the marker a command line starts with: ['STEP'] in the
    multi-step branch, ['COMMAND:'] in the single-command branch. *)
Fixpoint scanLines (marker : string) (lines : list string)
         (cmds suggs : list string) : completion ParsedPlan :=
  match lines with
  | [] => Normal (mkPlan cmds suggs)
  | line :: rest =>
      if Js.startsWith line marker then
        scanLines marker rest (cmds ++ [commandText line]) suggs
      else if Js.startsWith line "SUGGESTIONS:" then
        match suggestionList line with
        | TypeError => TypeError
        | Normal suggs' => scanLines marker rest cmds suggs'
        end
      else scanLines marker rest cmds suggs
  end.

Definition parseAIResponse (response : string) : completion ParsedPlan :=
  let lines := linesOf response in
  if Js.includes response "MULTI_STEP"
  then scanLines "STEP" lines [] []
  else scanLines "COMMAND:" lines [] [].

End Parser.

(* ================================================================== *)
(** ** History store and execution sequencer ([CommandManager], [Gen]) *)
(* ================================================================== *)

Module Gen.

(** [interface CommandHistory] *)
Record CommandHistory : Type := mkHistory
  { command : string;
    prompt : string;
    success : bool;
    timestamp : string }.

(** What [~/.gen-cli/history.json] holds: nothing, something that
    [readFileSync]/[JSON.parse] throws on, or the array the program
    itself wrote there. *)
Inductive FileState : Type :=
| Absent
| Unreadable
| Stored (records : list CommandHistory).

(** The [shell] option given to [spawn]: [true], or an executable. *)
Inductive Shell : Type :=
| ShellDefault
| ShellNamed (exe : string).

(** The one terminal event a spawned child delivers: ['error'] with a
    message, or ['close'] with an exit code ([None] is [null]). *)
Inductive ChildOutcome : Type :=
| ChildError (message : string)
| ChildClose (code : option Z).

Inductive Level : Type := LInfo | LWarn | LError | LSuccess | LBox.

(** The messages of [gen.ts], by the place that prints them; the
    arguments are the values interpolated into the text. *)
Inductive Message : Type :=
| MsgHistoryReadFailed                       (* getHistory, catch *)
| MsgHistoryWriteFailed                      (* saveToHistory, catch *)
| MsgExecuting (cmd : string)                (* executeCommand *)
| MsgSpawnFailed (message : string)          (* on 'error' *)
| MsgExitCode (code : option Z)              (* on 'close', failure *)
| MsgCommandDone                             (* on 'close', success *)
| MsgPlanHeader (steps : nat)                (* executeMultipleCommands *)
| MsgPlanItem (number : nat) (cmd : string)
| MsgPlanBlacklisted
| MsgPlanDestructive
| MsgCancelled
| MsgStepHeader (number total : nat) (cmd : string)
| MsgStepFailed (number : nat)
| MsgAdvice (line : nat)
| MsgAllStepsDone
| MsgBlacklisted                             (* executeSingleCommand *)
| MsgBlacklistedCommand (cmd : string)
| MsgProposal
| MsgCommandBox (cmd : string)
| MsgDestructive.

(** The question a [confirm] prompt asks. *)
Inductive Question : Type :=
| AskRunAll
| AskRunDestructive
| AskRun.

(** What the run does to the outside, in order. *)
Inductive Event : Type :=
| Log (level : Level) (text : Message)
| Confirm (default : bool) (question : Question)
| Spawn (cmd : string) (shell : Shell)
| WriteFile (records : list CommandHistory) (written : bool).

(** The collaborators of a run: the detected shell and platform, the
    user at the prompt, the children, the clock and the disk. *)
Record Env : Type := mkEnv
  { envShell : string;
    envOs : string;
    envAnswer : bool -> Question -> bool;
    envChild : nat -> string -> ChildOutcome;
    envClock : nat -> string;
    envWritable : nat -> bool }.

(** The state a run threads: the history file, what has happened so
    far, and how many children were spawned and how many history saves
    were made, which number the answers of [Env]. *)
Record World : Type := mkWorld
  { file : FileState;
    trace : list Event;
    spawned : nat;
    saved : nat }.

(** A step of the run returns, or leaves through [this.exit(code)],
    which throws and so ends every enclosing call. *)
Inductive Result (A : Type) : Type :=
| Ret (a : A)
| Exit (code : Z).
Arguments Ret {A} a.
Arguments Exit {A} code.

Definition M (A : Type) : Type := World -> Result A * World.

Definition ret {A} (a : A) : M A := fun w => (Ret a, w).

Definition bind {A B} (m : M A) (k : A -> M B) : M B :=
  fun w =>
    match m w with
    | (Ret a, w') => k a w'
    | (Exit code, w') => (Exit code, w')
    end.

Notation "x <- m ;; k" := (bind m (fun x => k))
  (at level 61, m at next level, right associativity).
Notation "m ;; k" := (bind m (fun _ => k))
  (at level 61, right associativity).

Definition emit (e : Event) : M unit :=
  fun w => (Ret tt, mkWorld (file w) (trace w ++ [e]) (spawned w) (saved w)).

Definition log (level : Level) (text : Message) : M unit :=
  emit (Log level text).

Definition exit {A} (code : Z) : M A := fun w => (Exit code, w).

Definition when (b : bool) (m : M unit) : M unit :=
  if b then m else ret tt.

(** [await confirm({default, message})] *)
Definition confirm (env : Env) (default : bool) (q : Question) : M bool :=
  emit (Confirm default q) ;; ret (envAnswer env default q).

(** [spawn(command, [], {shell, stdio: 'inherit'})] and the wait for
    the child's terminal event. *)
Definition spawn (env : Env) (cmd : string) (shell : Shell) : M ChildOutcome :=
  fun w =>
    (Ret (envChild env (spawned w) cmd),
     mkWorld (file w) (trace w ++ [Spawn cmd shell]) (S (spawned w)) (saved w)).

(** *** [CommandManager] *)

Definition getHistory : M (list CommandHistory) :=
  fun w =>
    match file w with
    | Stored records => (Ret records, w)
    | Unreadable => (log LWarn MsgHistoryReadFailed ;; ret []) w
    | Absent => (Ret [], w)
    end.

(** [history.unshift(record)], then [history.splice(50)] when longer
    than 50. *)
Definition pushBounded (record : CommandHistory)
           (history : list CommandHistory) : list CommandHistory :=
  let history := record :: history in
  if (50 <? length history)%nat then firstn 50 history else history.

(** [fs.writeFileSync(historyFile, JSON.stringify(history))] inside its
    [try]: a failed write leaves the file as it was and warns. *)
Definition writeHistory (env : Env) (history : list CommandHistory) : M unit :=
  fun w =>
    if envWritable env (saved w) then
      (Ret tt, mkWorld (Stored history)
                       (trace w ++ [WriteFile history true])
                       (spawned w) (S (saved w)))
    else
      log LWarn MsgHistoryWriteFailed
          (mkWorld (file w) (trace w ++ [WriteFile history false])
                   (spawned w) (S (saved w))).

Definition saveToHistory (env : Env) (command prompt : string)
           (success : bool) : M unit :=
  history <- getHistory ;;
  (fun w =>
     writeHistory env
       (pushBounded (mkHistory command prompt success (envClock env (saved w)))
                    history) w).

(** *** [Gen.executeCommand] *)

Definition shellExecutable (env : Env) : Shell :=
  if String.eqb (envShell env) "powershell" && String.eqb (envOs env) "win32"
  then ShellNamed "powershell.exe"
  else ShellDefault.

(** [code === 0 || code === null] *)
Definition closeSuccess (code : option Z) : bool :=
  match code with
  | Some c => Z.eqb c 0
  | None => true
  end.

Definition executeCommand (env : Env) (command userPrompt : string)
           (isMultiStep : bool) : M bool :=
  when (negb isMultiStep) (log LInfo (MsgExecuting command)) ;;
  outcome <- spawn env command (shellExecutable env) ;;
  match outcome with
  | ChildError message =>
      log LError (MsgSpawnFailed message) ;;
      saveToHistory env command userPrompt false ;;
      ret false
  | ChildClose code =>
      let success := closeSuccess code in
      (if negb success && negb isMultiStep then log LError (MsgExitCode code)
       else if success && negb isMultiStep then log LSuccess MsgCommandDone
       else ret tt) ;;
      saveToHistory env command userPrompt success ;;
      ret success
  end.

(** *** [Gen.executeMultipleCommands] *)

(** [for (const [i, cmd] of commands.entries()) logger.info(...)] *)
Fixpoint listPlan (i : nat) (commands : list string) : M unit :=
  match commands with
  | [] => ret tt
  | cmd :: rest => log LInfo (MsgPlanItem (i + 1) cmd) ;; listPlan (S i) rest
  end.

(** The sequential loop; [total] is [commands.length]. *)
Fixpoint runSteps (env : Env) (total : nat) (userPrompt : string)
         (i : nat) (commands : list string) : M unit :=
  match commands with
  | [] => ret tt
  | cmd :: rest =>
      log LInfo (MsgStepHeader (i + 1) total cmd) ;;
      success <- executeCommand env cmd userPrompt true ;;
      when (negb success)
           (log LError (MsgStepFailed (i + 1)) ;;
            log LInfo (MsgAdvice 0) ;;
            log LInfo (MsgAdvice 1) ;;
            log LInfo (MsgAdvice 2) ;;
            log LInfo (MsgAdvice 3) ;;
            exit 1) ;;
      runSteps env total userPrompt (S i) rest
  end.

Definition executeMultipleCommands (env : Env) (commands : list string)
           (userPrompt : string) : M unit :=
  log LInfo (MsgPlanHeader (length commands)) ;;
  listPlan 0 commands ;;
  let hasDangerous := existsb SafetyChecker.isBlacklisted commands in
  when hasDangerous (log LError MsgPlanBlacklisted ;; exit 1) ;;
  let hasDestructive := existsb SafetyChecker.isDestructive commands in
  when hasDestructive (log LWarn MsgPlanDestructive) ;;
  confirmResult <- confirm env (negb hasDestructive) AskRunAll ;;
  when (negb confirmResult) (log LWarn MsgCancelled ;; exit 0) ;;
  runSteps env (length commands) userPrompt 0 commands ;;
  log LSuccess MsgAllStepsDone.

(** *** [Gen.executeSingleCommand] *)

Definition executeSingleCommand (env : Env) (command userPrompt : string)
  : M unit :=
  when (SafetyChecker.isBlacklisted command)
       (log LError MsgBlacklisted ;;
        log LError (MsgBlacklistedCommand command) ;;
        exit 1) ;;
  let isDestructive := SafetyChecker.isDestructive command in
  log LInfo MsgProposal ;;
  log LBox (MsgCommandBox command) ;;
  when isDestructive (log LWarn MsgDestructive) ;;
  confirmResult <- confirm env (negb isDestructive)
                     (if isDestructive then AskRunDestructive else AskRun) ;;
  when (negb confirmResult) (log LWarn MsgCancelled ;; exit 0) ;;
  executeCommand env command userPrompt false ;;
  ret tt.

(** *** Reading a trace *)

Definition spawnsOf (t : list Event) : list string :=
  flat_map (fun e => match e with Spawn cmd _ => [cmd] | _ => [] end) t.

(** A fresh run over a given history file. *)
Definition start (f : FileState) : World := mkWorld f [] 0 0.

End Gen.

(* ================================================================== *)
(** ** Retry helper ([retryWithBackoff] of [fix.ts]) *)
(* ================================================================== *)

Module Fix.

Section Retry.

(** [T] is the result type of the operation, [E] what it rejects
    with, [S] whatever state the operation itself carries from one
    invocation to the next.  [maxRetries] and [baseDelay] are integers,
    delays are in milliseconds. *)
Variables T E S : Type.

Inductive Settled : Type :=
| Fulfilled (value : T)
| Rejected (error : E).

(** [fn: () => Promise<T>], awaited. *)
Variable fn : S -> Settled * S.

Inductive Event : Type :=
| Invoke                                   (* fn() *)
| Warn (attemptNumber : Z) (delay : Z)     (* logger.warn *)
| Wait (delay : Z).                        (* setTimeout(resolve, delay) *)

(** [lastError] is [undefined] ([None]) until an attempt has failed. *)
Inductive Outcome : Type :=
| Returned (value : T)
| Thrown (lastError : option E).

Record Run : Type := mkRun
  { outcome : Outcome;
    final : S;
    events : list Event }.

(** The [for (let attempt = 0; attempt < maxRetries; attempt++)] loop,
    entered at [attempt]; [fuel] bounds the iterations still to run. *)
Fixpoint retryLoop (fuel : nat) (maxRetries baseDelay attempt : Z)
         (lastError : option E) (s : S) (log : list Event) : option Run :=
  if (attempt <? maxRetries)%Z then
    match fuel with
    | O => None
    | Datatypes.S fuel' =>
        match fn s with
        | (Fulfilled value, s') =>
            Some (mkRun (Returned value) s' (log ++ [Invoke])%list)
        | (Rejected error, s') =>
            let log := (log ++ [Invoke])%list in
            let log :=
              if (attempt <? maxRetries - 1)%Z then
                let delay := (baseDelay * 2 ^ attempt)%Z in
                (log ++ [Warn (attempt + 1) delay; Wait delay])%list
              else log in
            retryLoop fuel' maxRetries baseDelay (attempt + 1)
                      (Some error) s' log
        end
    end
  else Some (mkRun (Thrown lastError) s log).

Definition retryWithBackoff (maxRetries baseDelay : Z) (s : S) : option Run :=
  retryLoop (Z.to_nat maxRetries) maxRetries baseDelay 0 None s [].

Definition invocations (log : list Event) : nat :=
  length (filter (fun e => match e with Invoke => true | _ => false end) log).

Definition waits (log : list Event) : list Z :=
  flat_map (fun e => match e with Wait d => [d] | _ => [] end) log.

End Retry.

Arguments Fulfilled {T E} value.
Arguments Rejected {T E} error.
Arguments Returned {T E} value.
Arguments Thrown {T E} lastError.
Arguments mkRun {T E S} outcome final events.
Arguments outcome {T E S} r.
Arguments final {T E S} r.
Arguments events {T E S} r.
Arguments retryLoop {T E S} fn fuel maxRetries baseDelay attempt lastError s log.
Arguments retryWithBackoff {T E S} fn maxRetries baseDelay s.

End Fix.

(* ================================================================== *)
(** ** Vocabulary of the statements *)
(* ================================================================== *)

Import Gen.

(** Containment of a pattern "case-insensitively, as a substring": some
    stretch [occ] of the command is the pattern up to letter case. *)
Definition occursIgnoringCase (pattern command : string) : Prop :=
  exists pre occ post,
    command = pre ++ occ ++ post /\
    Js.toLowerCase occ = Js.toLowerCase pattern.

(** The lines that announce the plan. *)
Fixpoint planItems (i : nat) (commands : list string) : list Event :=
  match commands with
  | [] => []
  | cmd :: rest => Log LInfo (MsgPlanItem (i + 1) cmd) :: planItems (S i) rest
  end.

(** What the history file counts as when it is read. *)
Definition priorRecords (f : FileState) : list CommandHistory :=
  match f with
  | Stored records => records
  | Unreadable | Absent => []
  end.

(** A step succeeds when its child closes with code 0 or without a code;
    a child that could not be started, or closed with another code, is a
    failed step. *)
Definition stepSucceeds (o : ChildOutcome) : bool :=
  match o with
  | ChildClose code => closeSuccess code
  | ChildError _ => false
  end.

(** The spawns and the history writes of a trace, in order. *)
Definition effectsOf (t : list Event) : list Event :=
  filter (fun e => match e with
                   | Spawn _ _ | WriteFile _ _ => true
                   | _ => false
                   end) t.

(** A user who accepts every prompt, children that all close with code 0,
    a writable disk: a collaborator set to run the model on. *)
Definition agreeableEnv : Env :=
  mkEnv "bash" "linux"
        (fun _ _ => true)
        (fun _ _ => ChildClose (Some 0%Z))
        (fun _ => "2025-01-01T00:00:00.000Z")
        (fun _ => true).


(** An operation that counts its invocations, rejects the first two and
    fulfils from the third on; and one that rejects every time, with the
    number of the invocation as the failure. *)
Definition failsTwice (n : nat) : Fix.Settled string nat * nat :=
  (if (n <? 2)%nat then Fix.Rejected n else Fix.Fulfilled "done", S n).

Definition alwaysFails (n : nat) : Fix.Settled string nat * nat :=
  (Fix.Rejected n, S n).

(** Everything after the first colon of a line, colons included; empty
    when the line has no colon. *)
Fixpoint textAfterFirstColon (s : string) : string :=
  match s with
  | EmptyString => EmptyString
  | String c s' => if Ascii.eqb c Parser.colon then s' else textAfterFirstColon s'
  end.

(** The text before the first colon; the whole text when it has none. *)
Fixpoint textBeforeColon (s : string) : string :=
  match s with
  | EmptyString => EmptyString
  | String c s' =>
      if Ascii.eqb c Parser.colon then EmptyString else String c (textBeforeColon s')
  end.

(** A response made of the given lines. *)
Definition unlines (lines : list string) : string :=
  Js.join (String Parser.newline "") lines.




(** The spawns and history saves of a run, reduced to the command and the
    recorded outcome. *)
Inductive Effect : Type :=
| Ran (cmd : string)
| Recorded (cmd : string) (ok : bool).

Definition effectSummary (t : list Event) : list Effect :=
  flat_map (fun e => match e with
                     | Spawn cmd _ => [Ran cmd]
                     | WriteFile (r :: _) _ => [Recorded (command r) (success r)]
                     | _ => []
                     end) t.

(** The records of consecutive successful steps, newest first, when the
    first of them is the save number [sv]. *)
Fixpoint successRecords (env : Env) (userPrompt : string) (sv : nat)
         (commands : list string) : list CommandHistory :=
  match commands with
  | [] => []
  | cmd :: rest =>
      (successRecords env userPrompt (S sv) rest
         ++ [mkHistory cmd userPrompt true (envClock env sv)])%list
  end.


(** A user who declines every prompt, and a disk that refuses writes. *)
Definition decliningEnv : Env :=
  mkEnv "bash" "linux"
        (fun _ _ => false)
        (fun _ _ => ChildClose (Some 0%Z))
        (fun _ => "2025-01-01T00:00:00.000Z")
        (fun _ => true).


(** What a run of consecutive steps spawns and records, given what the
    children do: each step is spawned and recorded, and the steps after a
    failed one are not reached.  [sp] numbers the first child. *)
Fixpoint stepsSummary (env : Env) (sp : nat) (commands : list string) : list Effect :=
  match commands with
  | [] => []
  | cmd :: rest =>
      let ok := stepSucceeds (envChild env sp cmd) in
      Ran cmd :: Recorded cmd ok
        :: (if ok then stepsSummary env (S sp) rest else [])
  end.

(** Whether every step of the run succeeds. *)
Fixpoint allSucceed (env : Env) (sp : nat) (commands : list string) : bool :=
  match commands with
  | [] => true
  | cmd :: rest => stepSucceeds (envChild env sp cmd) && allSucceed env (S sp) rest
  end.

(** The commands a summary shows as spawned. *)
Definition ranOf (l : list Effect) : list string :=
  flat_map (fun e => match e with Ran c => [c] | Recorded _ _ => [] end) l.
(* ================================================================== *)
(** ** Context detection ([ContextDetector] of [gen.ts]) *)
(* ================================================================== *)

Module ContextDetector.

(** What [JSON.parse(fs.readFileSync('package.json'))] gives: an
    exception (unreadable file, invalid JSON) or a value whose
    [.dependencies] cannot be read ([null]); a value without
    [dependencies]; or one whose [dependencies] is an object, given by
    its property lookup. *)
Inductive PackageJson : Type :=
| PjUnusable
| PjNoDependencies
| PjDependencies (lookup : string -> option string).

(** What the detector reads from the process and the working directory:
    [os.platform()], three environment variables ([None] is
    [undefined]), [process.ppid], and which files exist. *)
Record Probe : Type := mkProbe
  { platform : string;
    envSHELL : option string;
    envCOMSPEC : option string;
    envPSModulePath : option string;
    ppid : Z;
    packageJson : option PackageJson;     (* [None]: no package.json *)
    hasPnpmLock : bool;
    hasYarnLock : bool;
    hasBunLock : bool }.

(** [interface ContextInfo] *)
Record ContextInfo : Type := mkContext
  { hasPackageJson : bool;
    os : string;
    packageManager : string;
    projectType : option string;
    shell : string }.

(** [v || fallback] on a string that may be [undefined]. *)
Definition orElse (v : option string) (fallback : string) : string :=
  match v with
  | Some s => if Js.truthy s then s else fallback
  | None => fallback
  end.

(** Truthiness of a string that may be [undefined]. *)
Definition isSet (v : option string) : bool :=
  match v with
  | Some s => Js.truthy s
  | None => false
  end.

Definition detectShell (p : Probe) : string :=
  if String.eqb (platform p) "win32" then
    let shellEnv := orElse (envSHELL p) "" in
    let comspec := orElse (envCOMSPEC p) "" in
    if Js.includes (Js.toLowerCase shellEnv) "powershell"
       || Js.includes (Js.toLowerCase shellEnv) "pwsh"
       || isSet (envPSModulePath p)
    then "powershell"
    else if Js.includes (Js.toLowerCase comspec) "cmd" then "cmd"
    else if negb (Z.eqb (ppid p) 0) && Js.truthy comspec
            && Js.includes (Js.toLowerCase comspec) "cmd.exe"
    then "cmd"
    else "powershell"
  else
    let shell := orElse (envSHELL p) "/bin/bash" in
    if Js.includes shell "bash" then "bash"
    else if Js.includes shell "zsh" then "zsh"
    else if Js.includes shell "fish" then "fish"
    else "bash".

(** The [if / else if] chain over [packageJson.dependencies?.<name>]. *)
Definition detectProjectType (pj : PackageJson) : option string :=
  match pj with
  | PjUnusable | PjNoDependencies => None
  | PjDependencies lookup =>
      if isSet (lookup "next") then Some "Next.js"
      else if isSet (lookup "react") then Some "React"
      else if isSet (lookup "vue") then Some "Vue"
      else if isSet (lookup "express") then Some "Express"
      else None
  end.

Definition detect (p : Probe) : ContextInfo :=
  match packageJson p with
  | None => mkContext false (platform p) "npm" None (detectShell p)
  | Some pj =>
      mkContext true (platform p)
                (if hasPnpmLock p then "pnpm"
                 else if hasYarnLock p then "yarn"
                 else if hasBunLock p then "bun"
                 else "npm")
                (detectProjectType pj)
                (detectShell p)
  end.

End ContextDetector.

(** The collaborators of [executeCommand] when the shell and platform
    are the detected ones. *)
Definition detectedEnv (p : ContextDetector.Probe)
           (answer : bool -> Question -> bool)
           (child : nat -> string -> ChildOutcome)
           (clock : nat -> string) (writable : nat -> bool) : Env :=
  mkEnv (ContextDetector.shell (ContextDetector.detect p))
        (ContextDetector.os (ContextDetector.detect p))
        answer child clock writable.

(** A Windows machine with PowerShell's module path set, and a Linux
    machine with zsh and a pnpm project. *)
Definition windowsProbe : ContextDetector.Probe :=
  ContextDetector.mkProbe "win32" None (Some "C:\Windows\system32\cmd.exe")
                          (Some "C:\Program Files\PowerShell\Modules") 4242
                          None false false false.

Definition linuxProbe : ContextDetector.Probe :=
  ContextDetector.mkProbe "linux" (Some "/usr/bin/zsh") None None 1
    (Some (ContextDetector.PjDependencies
             (fun name => if String.eqb name "next" then Some "14.0.0"
                          else if String.eqb name "react" then Some "18.2.0"
                          else None)))
    true true false.
(* ================================================================== *)
(** ** Regular expressions, as the source uses them *)
(* ================================================================== *)

Module Regex.

(** The fragment of ECMAScript patterns that occurs in [fix.ts]:
    anchors, literal text, character classes under a greedy [+] or a
    lazy [*?], a greedy optional group, ordered alternation, sequence
    and numbered capturing groups. *)
Inductive re : Type :=
| Bol                                   (* ^ *)
| Eol                                   (* $ *)
| Lit (text : string)
| Plus (cls : ascii -> bool)            (* [cls]+ *)
| LazyStar (cls : ascii -> bool)        (* [cls]*? *)
| Opt (r : re)                          (* (?:r)? *)
| Alt (r1 r2 : re)                      (* r1|r2 *)
| Seq (r1 r2 : re)
| Group (n : nat) (r : re).             (* the n-th capturing group *)

(** [\w], [\d], [[\S\s]] *)
Definition isWord (c : ascii) : bool :=
  let n := nat_of_ascii c in
  (((48 <=? n) && (n <=? 57)) || ((65 <=? n) && (n <=? 90))
   || ((97 <=? n) && (n <=? 122)) || (n =? 95))%nat.

Definition isDigit (c : ascii) : bool :=
  let n := nat_of_ascii c in ((48 <=? n) && (n <=? 57))%nat.

Definition anyChar (c : ascii) : bool := true.

(** The text left after a literal prefix, when it is one. *)
Fixpoint dropPrefix (l s : string) : option string :=
  match l, s with
  | EmptyString, _ => Some s
  | String _ _, EmptyString => None
  | String a l', String b s' => if Ascii.eqb a b then dropPrefix l' s' else None
  end.

Definition Captures : Type := list (nat * string).

Section Matcher.

(** A backtracking matcher in continuation style: [k pos rest caps] is
    what remains of the pattern, tried at offset [pos] on the remaining
    text [rest]; [None] makes the matcher try its next choice. *)
Variable R : Type.

Definition Cont : Type := nat -> string -> Captures -> option R.

(** [[cls]*], greedy: as many characters as possible, giving back one at
    a time. *)
Fixpoint starGreedy (cls : ascii -> bool) (k : Cont)
         (pos : nat) (s : string) (caps : Captures) : option R :=
  match s with
  | String c s' =>
      if cls c then
        match starGreedy cls k (S pos) s' caps with
        | Some r => Some r
        | None => k pos s caps
        end
      else k pos s caps
  | EmptyString => k pos s caps
  end.

Definition plusGreedy (cls : ascii -> bool) (k : Cont)
           (pos : nat) (s : string) (caps : Captures) : option R :=
  match s with
  | String c s' => if cls c then starGreedy cls k (S pos) s' caps else None
  | EmptyString => None
  end.

(** [[cls]*?], lazy: as few characters as possible, taking one more at a
    time. *)
Fixpoint starLazy (cls : ascii -> bool) (k : Cont)
         (pos : nat) (s : string) (caps : Captures) : option R :=
  match k pos s caps with
  | Some r => Some r
  | None =>
      match s with
      | String c s' => if cls c then starLazy cls k (S pos) s' caps else None
      | EmptyString => None
      end
  end.

Fixpoint run (r : re) (k : Cont) (pos : nat) (s : string) (caps : Captures)
  : option R :=
  match r with
  | Bol => if Nat.eqb pos 0 then k pos s caps else None
  | Eol => match s with
           | EmptyString => k pos s caps
           | String _ _ => None
           end
  | Lit text =>
      match dropPrefix text s with
      | Some s' => k (pos + String.length text)%nat s' caps
      | None => None
      end
  | Plus cls => plusGreedy cls k pos s caps
  | LazyStar cls => starLazy cls k pos s caps
  | Opt r1 =>
      match run r1 k pos s caps with
      | Some x => Some x
      | None => k pos s caps
      end
  | Alt r1 r2 =>
      match run r1 k pos s caps with
      | Some x => Some x
      | None => run r2 k pos s caps
      end
  | Seq r1 r2 => run r1 (run r2 k) pos s caps
  | Group n r1 =>
      run r1 (fun pos' s' caps' =>
                k pos' s' ((n, String.substring 0 (pos' - pos) s) :: caps'))
          pos s caps
  end.

End Matcher.

Arguments run {R} r k pos s caps.
Arguments starGreedy {R} cls k pos s caps.
Arguments plusGreedy {R} cls k pos s caps.
Arguments starLazy {R} cls k pos s caps.

(** The match object: the matched text and the captures. *)
Record Match : Type := mkMatch
  { matched : string;
    groups : Captures }.

(** [m[n]] *)
Fixpoint lookupGroup (n : nat) (caps : Captures) : option string :=
  match caps with
  | [] => None
  | (i, text) :: rest => if Nat.eqb i n then Some text else lookupGroup n rest
  end.

Definition group (n : nat) (m : Match) : option string :=
  lookupGroup n (groups m).

(** [re.exec(s)] without the [g] flag: the match at the leftmost offset
    that has one. *)
Fixpoint execFrom (r : re) (pos : nat) (s : string) : option Match :=
  match run r (fun pos' _ caps =>
                 Some (mkMatch (String.substring 0 (pos' - pos) s) caps))
            pos s [] with
  | Some m => Some m
  | None =>
      match s with
      | String _ s' => execFrom r (S pos) s'
      | EmptyString => None
      end
  end.

(** [s.match(re)] *)
Definition exec (r : re) (s : string) : option Match := execFrom r 0 s.

(** [re.test(s)] *)
Definition test (r : re) (s : string) : bool :=
  match exec r s with
  | Some _ => true
  | None => false
  end.

(** [s.split(/[cls]+/)]: the pieces between the maximal runs of
    separator characters, with an empty piece before a leading run and
    after a trailing one. *)
Fixpoint splitRuns (cls : ascii -> bool) (s : string) : list string :=
  match s with
  | EmptyString => [EmptyString]
  | String c s' =>
      let rest := splitRuns cls s' in
      if cls c then
        match s' with
        | String c2 _ => if cls c2 then rest else EmptyString :: rest
        | EmptyString => EmptyString :: rest
        end
      else
        match rest with
        | h :: t => String c h :: t
        | [] => [String c EmptyString]
        end
  end.

(** [s.replaceAll(/[cls]/g, '')] *)
Fixpoint removeAll (cls : ascii -> bool) (s : string) : string :=
  match s with
  | EmptyString => EmptyString
  | String c s' => if cls c then removeAll cls s' else String c (removeAll cls s')
  end.

End Regex.

(* ================================================================== *)
(** ** Reading the reply and the error message ([Fix] of [fix.ts]) *)
(* ================================================================== *)

Module FixParse.

Import Regex.

Definition fence : string := "```".
Definition newlineText : string := String Parser.newline "".

(** [/```(?:\w+)?\n([\S\s]*?)```/] *)
Definition codeBlockRegex : re :=
  Seq (Lit fence)
      (Seq (Opt (Plus isWord))
           (Seq (Lit newlineText)
                (Seq (Group 1 (LazyStar anyChar)) (Lit fence)))).

(** [Fix.extractFixedCode]; [None] is [null]. *)
Definition extractFixedCode (response : string) : option string :=
  match exec codeBlockRegex response with
  | Some m =>
      match group 1 m with
      | Some body => if Js.truthy body then Some (Js.trim body) else None
      | None => None
      end
  | None => None
  end.

(** [interface FileError]; [line] is absent until set. *)
Record FileError : Type := mkFileError
  { filePath : string;
    line : option Z }.

(** [[\w./-]] *)
Definition isPathChar (c : ascii) : bool :=
  isWord c || Ascii.eqb c "."%char || Ascii.eqb c "/"%char || Ascii.eqb c "-"%char.

(** [[()[\]{}]] *)
Definition isBracket (c : ascii) : bool :=
  Ascii.eqb c "("%char || Ascii.eqb c ")"%char || Ascii.eqb c "["%char
  || Ascii.eqb c "]"%char || Ascii.eqb c "{"%char || Ascii.eqb c "}"%char.

(** [(ts|tsx|js|jsx|py|java|cpp|c|go)] *)
Definition extensions : re :=
  Alt (Lit "ts") (Alt (Lit "tsx") (Alt (Lit "js") (Alt (Lit "jsx")
  (Alt (Lit "py") (Alt (Lit "java") (Alt (Lit "cpp") (Alt (Lit "c") (Lit "go")))))))).

(** [[\w./-]+\.(ts|...|go)] inside its group 1 *)
Definition pathWithExtension : re :=
  Group 1 (Seq (Plus isPathChar) (Seq (Lit ".") (Group 2 extensions))).

(** [/^([\w./-]+\.(ts|...|go)):(\d+)/] *)
Definition pattern1 : re :=
  Seq Bol (Seq pathWithExtension (Seq (Lit ":") (Group 3 (Plus isDigit)))).

(** [/^([\w./-]+\.(ts|...|go))/] *)
Definition pattern2 : re := Seq Bol pathWithExtension.

(** [/\.(ts|...|go)$/] *)
Definition extensionAtEnd : re := Seq (Lit ".") (Seq (Group 1 extensions) Eol).

(** [Number.parseInt(digits, 10)] on a string of decimal digits. *)
Fixpoint digitsValue (acc : Z) (digits : string) : Z :=
  match digits with
  | EmptyString => acc
  | String c rest =>
      digitsValue (10 * acc + Z.of_nat (nat_of_ascii c - 48)) rest
  end.

Definition groupText (n : nat) (m : Match) : string :=
  match group n m with
  | Some text => text
  | None => EmptyString
  end.

(** The [for (const word of words)] loop with its [break]. *)
Fixpoint firstFileWord (words : list string) : string :=
  match words with
  | [] => EmptyString
  | word :: rest =>
      if test extensionAtEnd word then removeAll isBracket word
      else firstFileWord rest
  end.

(** [Fix.parseErrorString] *)
Definition parseErrorString (errorString : string) : FileError :=
  match exec pattern1 errorString with
  | Some m1 => mkFileError (groupText 1 m1) (Some (digitsValue 0 (groupText 3 m1)))
  | None =>
      match exec pattern2 errorString with
      | Some m2 => mkFileError (groupText 1 m2) None
      | None => mkFileError (firstFileWord (splitRuns Js.is_space errorString)) None
      end
  end.

End FixParse.
(** Every character of [s] is in the class. *)
Fixpoint allOf (cls : ascii -> bool) (s : string) : bool :=
  match s with
  | EmptyString => true
  | String c s' => cls c && allOf cls s'
  end.

(** [s] is empty or starts with a character outside the class. *)
Definition stopsAt (cls : ascii -> bool) (s : string) : bool :=
  match s with
  | EmptyString => true
  | String c _ => negb (cls c)
  end.

(** No code fence starts inside [s], not even one completed by the
    backticks of a fence that follows [s]. *)
Definition fenceFree (s : string) : bool :=
  negb (Js.includes (s ++ "``") FixParse.fence).

(** [s] has no backtick. *)
Definition tickFree (s : string) : bool := negb (Js.includes s "`").

(** [s] starts with a colon and a digit: a line number follows. *)
Definition startsWithLine (s : string) : bool :=
  match s with
  | String c (String d _) => Ascii.eqb c ":"%char && Regex.isDigit d
  | _ => false
  end.

(** The extensions of the alternation [(ts|tsx|js|jsx|py|java|cpp|c|go)],
    in its order. *)
Definition extensionNames : list string :=
  ["ts"; "tsx"; "js"; "jsx"; "py"; "java"; "cpp"; "c"; "go"].

(** [s] has no dot. *)
Definition dotFree (s : string) : bool := negb (Js.includes s ".").
(* ================================================================== *)
(** ** The [gen] command as a whole ([Gen.run], [generateCommand],
       [showHistory]) *)
(* ================================================================== *)

Module GenRun.

(** What [model.generateContent(...)] followed by [result.response.text()]
    gives: an exception with its message, or the text. *)
Inductive AiReply : Type :=
| AiThrows (message : string)
| AiText (text : string).

(** The lines [run], [generateCommand] and [showHistory] print, by the
    place that prints them. *)
Inductive RunMessage : Type :=
| MsgApiKeyMissing                            (* run *)
| MsgApiKeyHint
| MsgPromptMissing
| MsgPromptEmpty
| MsgDetected (os shell packageManager : string)
| MsgAlternatives
| MsgAlternative (number : nat) (text : string)
| MsgAiRefused (responseText : string)        (* generateCommand *)
| MsgApiFailed
| MsgApiError (message : string)
| MsgNoHistory                                (* showHistory *)
| MsgHistoryHeader
| MsgHistoryEntry (number : nat) (ok : bool) (cmd : string)
| MsgHistoryPrompt (prompt : string)
| MsgHistoryTime (timestamp : string).

(** What a run of the command does to the outside, in order: its own
    lines, spinner and prompts, and the events of the execution layer. *)
Inductive Output : Type :=
| Said (level : Level) (text : RunMessage)
| SpinnerStart (userPrompt : string)
| SpinnerStop (ok : bool)
| AskedPrompt                                 (* input: what to do? *)
| AskedRunAgain                               (* confirm, default false *)
| AskedChoice (typed : string) (accepted : bool)
| Inner (e : Event).

(** The collaborators of a run of the command. *)
Record RunEnv : Type := mkRunEnv
  { probe : ContextDetector.Probe;
    apiKey : option string;                   (* GEMINI_API_KEY *)
    modelName : option string;                (* MODEL_NAME *)
    typedPrompt : string;                     (* typed at the input prompt *)
    generate : string -> string -> AiReply;   (* model, user prompt *)
    answer : bool -> Question -> bool;
    child : nat -> string -> ChildOutcome;
    clock : nat -> string;
    writable : nat -> bool;
    runAgain : bool;                          (* answer to "run again?" *)
    typedChoices : list string }.             (* typed at "choose 1-10" *)

Definition execEnv (env : RunEnv) : Env :=
  detectedEnv (probe env) (answer env) (child env) (clock env) (writable env).

Record RunState : Type := mkRunState
  { rfile : FileState;
    rlog : list Output;
    rspawned : nat;
    rsaved : nat }.

(** A run returns, leaves through [this.exit(code)], stays at a prompt
    whose every answer was refused, or ends in an uncaught [TypeError]
    (reading a property of [undefined]). *)
Inductive RunResult (A : Type) : Type :=
| Done (a : A)
| Exited (code : Z)
| Waiting
| Threw.
Arguments Done {A} a.
Arguments Exited {A} code.
Arguments Waiting {A}.
Arguments Threw {A}.

Definition RunM (A : Type) : Type := RunState -> RunResult A * RunState.

Definition rret {A} (a : A) : RunM A := fun s => (Done a, s).

Definition rbind {A B} (m : RunM A) (k : A -> RunM B) : RunM B :=
  fun s =>
    match m s with
    | (Done a, s') => k a s'
    | (Exited code, s') => (Exited code, s')
    | (Waiting, s') => (Waiting, s')
    | (Threw, s') => (Threw, s')
    end.

Notation "x <~ m ;;; k" := (rbind m (fun x => k))
  (at level 61, m at next level, right associativity).
Notation "m ;;; k" := (rbind m (fun _ => k))
  (at level 61, right associativity).

Definition out (o : Output) : RunM unit :=
  fun s => (Done tt, mkRunState (rfile s) (rlog s ++ [o]) (rspawned s) (rsaved s)).

Definition say (level : Level) (text : RunMessage) : RunM unit :=
  out (Said level text).

Definition rexit {A} (code : Z) : RunM A := fun s => (Exited code, s).

Definition rthrow {A} : RunM A := fun s => (Threw, s).

(** A call into the execution layer: its events join the log in order. *)
Definition lift {A} (m : M A) : RunM A :=
  fun s =>
    match m (mkWorld (rfile s) [] (rspawned s) (rsaved s)) with
    | (r, w) =>
        (match r with
         | Ret a => Done a
         | Exit code => Exited code
         end,
         mkRunState (file w) (rlog s ++ map Inner (trace w)) (spawned w) (saved w))
    end.

(** *** [Gen.generateCommand]; [None] is [null] *)

Definition typeErrorMessage : string :=
  "Cannot read properties of undefined (reading 'trim')".

Definition generateCommand (env : RunEnv) (userPrompt model : string)
  : RunM (option Parser.ParsedPlan) :=
  out (SpinnerStart userPrompt) ;;;
  match generate env model userPrompt with
  | AiThrows message =>
      out (SpinnerStop false) ;;;
      say LError MsgApiFailed ;;;
      say LInfo (MsgApiError message) ;;;
      rret None
  | AiText text =>
      let responseText := Js.trim text in
      if Js.startsWith responseText "ERROR:" then
        out (SpinnerStop false) ;;;
        say LError (MsgAiRefused responseText) ;;;
        rret None
      else
        match Parser.parseAIResponse responseText with
        | Parser.Normal parsed =>
            out (SpinnerStop true) ;;;
            rret (Some parsed)
        | Parser.TypeError =>
            out (SpinnerStop false) ;;;
            say LError MsgApiFailed ;;;
            say LInfo (MsgApiError typeErrorMessage) ;;;
            rret None
        end
  end.

(** *** [Gen.showHistory] *)

(** The leading characters of [s] that are in the class. *)
Fixpoint takeWhile (cls : ascii -> bool) (s : string) : string :=
  match s with
  | EmptyString => EmptyString
  | String c s' => if cls c then String c (takeWhile cls s') else EmptyString
  end.

(** [Number.parseInt(s, 10)]; [None] is [NaN]. *)
Definition parseInt10 (s : string) : option Z :=
  let s := Js.trimStart s in
  let signed :=
    match s with
    | String c rest =>
        if Ascii.eqb c "-"%char then (true, rest)
        else if Ascii.eqb c "+"%char then (false, rest)
        else (false, s)
    | EmptyString => (false, s)
    end in
  let digits := takeWhile Regex.isDigit (snd signed) in
  if Js.truthy digits
  then Some (if fst signed then (- FixParse.digitsValue 0 digits)%Z
             else FixParse.digitsValue 0 digits)
  else None.

(** The [validate] of the choice prompt. *)
Definition validChoice (count : nat) (typed : string) : bool :=
  match parseInt10 typed with
  | Some num => ((1 <=? num) && (num <=? Z.of_nat count))%Z
  | None => false
  end.

(** [await input({message, validate})]: the prompt stays open until an
    answer passes [validate]. *)
Fixpoint askChoice (count : nat) (typed : list string) : RunM string :=
  match typed with
  | [] => fun s => (Waiting, s)
  | t :: rest =>
      if validChoice count t then out (AskedChoice t true) ;;; rret t
      else out (AskedChoice t false) ;;; askChoice count rest
  end.

(** [a[i]] for an integer [i]: [None] is [undefined]. *)
Definition at_index {A} (a : list A) (i : Z) : option A :=
  if (i <? 0)%Z then None else nth_error a (Z.to_nat i).

(** [for (const [index, item] of recent.entries())] *)
Fixpoint listHistory (index : nat) (items : list CommandHistory) : RunM unit :=
  match items with
  | [] => rret tt
  | item :: rest =>
      say LInfo (MsgHistoryEntry (index + 1) (success item) (command item)) ;;;
      say LInfo (MsgHistoryPrompt (prompt item)) ;;;
      say LInfo (MsgHistoryTime (timestamp item)) ;;;
      listHistory (S index) rest
  end.

Definition showHistory (env : RunEnv) : RunM unit :=
  history <~ lift getHistory ;;;
  if Nat.eqb (length history) 0 then say LInfo MsgNoHistory
  else
    say LInfo MsgHistoryHeader ;;;
    let recent := firstn 10 history in
    listHistory 0 recent ;;;
    out AskedRunAgain ;;;
    if runAgain env then
      choice <~ askChoice (length recent) (typedChoices env) ;;;
      match parseInt10 choice with
      | Some num =>
          match at_index recent (num - 1) with
          | Some selected =>
              lift (executeSingleCommand (execEnv env) (command selected)
                                         (prompt selected))
          | None => rthrow                   (* [selected] is [undefined] *)
          end
      | None => rthrow                       (* [recent[NaN]] is [undefined] *)
      end
    else rret tt.

(** *** [Gen.run] *)

(** [for (const [i, s] of suggestions.entries())] *)
Fixpoint listAlternatives (i : nat) (suggestions : list string) : RunM unit :=
  match suggestions with
  | [] => rret tt
  | s :: rest => say LInfo (MsgAlternative (i + 1) s) ;;; listAlternatives (S i) rest
  end.

Definition defaultModel : string := "gemini-2.0-flash-exp".

Definition run (env : RunEnv) (argv : list string) (historyFlag : bool)
  : RunM unit :=
  if historyFlag then showHistory env
  else if negb (ContextDetector.isSet (apiKey env)) then
    say LError MsgApiKeyMissing ;;;
    say LWarn MsgApiKeyHint ;;;
    rexit 1
  else
    let model := ContextDetector.orElse (modelName env) defaultModel in
    userPrompt <~
      (let joined := Js.join " " argv in
       if Nat.eqb (String.length joined) 0 then
         say LWarn MsgPromptMissing ;;;
         out AskedPrompt ;;;
         if Js.truthy (typedPrompt env) then rret (typedPrompt env)
         else say LError MsgPromptEmpty ;;; rexit 1
       else rret joined) ;;;
    let context := ContextDetector.detect (probe env) in
    say LInfo (MsgDetected (ContextDetector.os context)
                           (ContextDetector.shell context)
                           (ContextDetector.packageManager context)) ;;;
    result <~ generateCommand env userPrompt model ;;;
    match result with
    | None => rexit 1
    | Some plan =>
        (if Nat.ltb 0 (length (Parser.suggestions plan)) then
           say LInfo MsgAlternatives ;;;
           listAlternatives 0 (Parser.suggestions plan)
         else rret tt) ;;;
        match Parser.commands plan with
        | [only] => lift (executeSingleCommand (execEnv env) only userPrompt)
        | commands => lift (executeMultipleCommands (execEnv env) commands userPrompt)
        end
    end.

(** The events of the execution layer in a log. *)
Definition innerOf (log : list Output) : list Event :=
  flat_map (fun o => match o with Inner e => [e] | _ => [] end) log.

(** How often the model was asked. *)
Definition asked (log : list Output) : nat :=
  length (filter (fun o => match o with SpinnerStart _ => true | _ => false end) log).

Definition fresh (f : FileState) : RunState := mkRunState f [] 0 0.

End GenRun.
(** The prompt a run of [gen] works with: the arguments joined, or what
    the user types when there are none; [None] when both are empty. *)
Definition effectivePrompt (env : GenRun.RunEnv) (argv : list string) : option string :=
  if Nat.eqb (String.length (Js.join " " argv)) 0
  then if Js.truthy (GenRun.typedPrompt env) then Some (GenRun.typedPrompt env) else None
  else Some (Js.join " " argv).

(** The model a run of [gen] asks. *)
Definition effectiveModel (env : GenRun.RunEnv) : string :=
  ContextDetector.orElse (GenRun.modelName env) GenRun.defaultModel.

(** No command spawned in the log is blacklisted. *)
Definition spawnsVetted (log : list GenRun.Output) : Prop :=
  forall cmd, In cmd (spawnsOf (GenRun.innerOf log)) ->
              SafetyChecker.isBlacklisted cmd = false.

(** A computation of the command layer that only ever adds vetted spawns
    to the log. *)
Definition keepsVetted {A} (m : GenRun.RunM A) : Prop :=
  forall s, exists more,
    GenRun.rlog (snd (m s)) = (GenRun.rlog s ++ more)%list /\ spawnsVetted more.

(** A model that answers with a fixed reply, a user who confirms. *)
Definition replyingEnv (reply : GenRun.AiReply) (choices : list string)
  : GenRun.RunEnv :=
  GenRun.mkRunEnv linuxProbe (Some "key") None "" (fun _ _ => reply)
                  (fun _ _ => true) (fun _ _ => ChildClose (Some 0%Z))
                  (fun _ => "2025-01-01T00:00:00.000Z") (fun _ => true)
                  true choices.

(** A computation of the command layer that only prints and prompts:
    it returns [a], leaves the file and the execution layer alone and
    does not ask the model. *)
Definition quiet {A} (m : GenRun.RunM A) (a : A) : Prop :=
  forall s, exists more,
    m s = (GenRun.Done a,
           GenRun.mkRunState (GenRun.rfile s) (GenRun.rlog s ++ more)
                             (GenRun.rspawned s) (GenRun.rsaved s))
    /\ GenRun.innerOf more = [] /\ GenRun.asked more = 0.

(** The state [s] after the lines [more] were printed. *)
Definition printed (s : GenRun.RunState) (more : list GenRun.Output) : GenRun.RunState :=
  GenRun.mkRunState (GenRun.rfile s) (GenRun.rlog s ++ more)
                    (GenRun.rspawned s) (GenRun.rsaved s).

(** The execution step the command ends with for a plan. *)
Definition dispatch (env : GenRun.RunEnv) (plan : Parser.ParsedPlan)
           (userPrompt : string) : GenRun.RunM unit :=
  match Parser.commands plan with
  | [only] => GenRun.lift (executeSingleCommand (GenRun.execEnv env) only userPrompt)
  | commands =>
      GenRun.lift (executeMultipleCommands (GenRun.execEnv env) commands userPrompt)
  end.

(** Every typed answer is refused by the choice prompt. *)
Definition allRefused (count : nat) (typed : list string) : bool :=
  forallb (fun t => negb (GenRun.validChoice count t)) typed.

(** A user with a history who asks for a re-run and types the given
    answers. *)
Definition sampleHistory : list CommandHistory :=
  [ mkHistory "npm test" "run the tests" true "2025-01-02T00:00:00.000Z";
    mkHistory "git status" "what changed" true "2025-01-01T00:00:00.000Z" ].
(* ================================================================== *)
(** ** The [fix] command ([HistoryManager], [Fix.run],
       [autoDetectAndFix], [detectErrors], [showHistory],
       [validateFileSize]) *)
(* ================================================================== *)

Module FixRun.

Inductive FixType : Type := Auto | Manual.

(** [interface FixHistory] *)
Record FixHistory : Type := mkFixHistory
  { errorMessage : string;
    filePath : string;
    fixType : FixType;
    success : bool;
    timestamp : string }.

(** What [~/.gen-cli/fix-history.json] holds: nothing, something that
    [readFileSync]/[JSON.parse] throws on, or the array the program
    itself wrote there. *)
Inductive HistoryFile : Type :=
| HistoryAbsent
| HistoryUnreadable
| HistoryStored (records : list FixHistory).

(** The three prompt templates, by the values interpolated into them. *)
Inductive Prompt : Type :=
| PromptWithFile (errorString fileContent : string) (fileError : FixParse.FileError)
| PromptWithoutFile (errorString : string)
| PromptAutoDetect (errorMessage fileContent filePath : string).

(** A fulfilled [generateContent]: [result.response.text()] gives the
    text or throws. *)
Inductive AiBody : Type :=
| BodyText (text : string)
| BodyThrows (message : string).

(** [execSync(command, ...)]: returns, or throws an error carrying
    [stderr], [stdout] and [message] (an absent one is the empty string:
    both are falsy). *)
Inductive ExecOutcome : Type :=
| ExecOk
| ExecFails (stderr stdout message : string).

(** The lines of [fix.ts], by the place that prints them. *)
Inductive FixMessage : Type :=
| MsgHistoryReadFailed                        (* HistoryManager *)
| MsgHistoryWriteFailed
| MsgApiKeyMissing                            (* run *)
| MsgApiKeyHint
| MsgErrorMissing
| MsgExampleManual
| MsgExampleAuto
| MsgFileFound (path : string)
| MsgLine (line : Z)
| MsgReadFailed (path : string)
| MsgAnalysisHeader
| MsgAnalysis (text : string)
| MsgFixedHeader
| MsgFixedCode (code : string)
| MsgApplied (path : string)
| MsgNotApplied
| MsgResultHeader
| MsgResponse (text : string)
| MsgAiFailed
| MsgErrorText (message : string)
| MsgPathMissing                              (* autoDetectAndFix *)
| MsgNotFound (path : string)
| MsgDetecting (path : string)
| MsgNoErrorDetected
| MsgRunsFine
| MsgErrorDetected
| MsgVerifying
| MsgVerified
| MsgStillFailing
| MsgNoTypeScript                             (* detectErrors *)
| MsgUnsupported (ext : string)
| MsgNoHistory                                (* showHistory *)
| MsgHistoryHeader (count : nat)
| MsgHistoryEntry (ok : bool) (type : FixType) (path : string)
| MsgHistoryDetail (timestamp shown : string)
| MsgBlank
| MsgTooLarge (bytes : Z).                    (* validateFileSize *)

Inductive Question : Type := AskApplyToFile | AskApply.

(** What a run of the command does to the outside, in order. *)
Inductive Output : Type :=
| Said (level : Level) (text : FixMessage)
| SpinnerStart
| SpinnerStop (ok : bool)
| Asked (default : bool) (question : Question)
| Retry (e : Fix.Event)                       (* inside retryWithBackoff *)
| ReadFile (path : string) (ok : bool)
| WriteFile (path content : string) (ok : bool)
| SaveHistory (records : list FixHistory) (ok : bool)
| Exec (command : string).

(** The collaborators of a run.  [generate model n prompt] is what the
    [n]-th call of [generateContent] settles with, a rejection with the
    text [error.message || String(error)] shows; [exec n command] is the
    [n]-th [execSync]; [readFailure] and [writeFailure] give the error
    [readFileSync] and [writeFileSync] throw on a path, if they do;
    [extname] is [path.extname]. *)
Record FixEnv : Type := mkFixEnv
  { apiKey : option string;
    modelName : option string;
    generate : string -> nat -> Prompt -> Fix.Settled AiBody string;
    answer : bool -> Question -> bool;
    sizeOf : string -> Z;
    readFailure : string -> option string;
    writeFailure : string -> option string;
    extname : string -> string;
    exec : nat -> string -> ExecOutcome;
    clock : nat -> string;
    historyWritable : nat -> bool }.

(** The state a run threads: the files by path ([None]: no such path),
    the history file, what has happened so far, and how many model
    calls, [execSync] calls and history saves were made. *)
Record FixState : Type := mkFixState
  { disk : string -> option string;
    historyFile : HistoryFile;
    log : list Output;
    calls : nat;
    execs : nat;
    saves : nat }.

(** A run returns, leaves through [this.exit(code)], or throws
    ([None] is [undefined]). *)
Inductive FixResult (A : Type) : Type :=
| Done (a : A)
| Exited (code : Z)
| Threw (error : option string).
Arguments Done {A} a.
Arguments Exited {A} code.
Arguments Threw {A} error.

Definition FixM (A : Type) : Type := FixState -> FixResult A * FixState.

Definition fret {A} (a : A) : FixM A := fun s => (Done a, s).

Definition fbind {A B} (m : FixM A) (k : A -> FixM B) : FixM B :=
  fun s =>
    match m s with
    | (Done a, s') => k a s'
    | (Exited code, s') => (Exited code, s')
    | (Threw error, s') => (Threw error, s')
    end.

Declare Scope fix_scope.
Delimit Scope fix_scope with fixrun.
Notation "x <~ m ;;; k" := (fbind m (fun x => k))
  (at level 61, m at next level, right associativity) : fix_scope.
Notation "m ;;; k" := (fbind m (fun _ => k))
  (at level 61, right associativity) : fix_scope.
Local Open Scope fix_scope.

Definition out (o : Output) : FixM unit :=
  fun s => (Done tt, mkFixState (disk s) (historyFile s) (log s ++ [o])
                                (calls s) (execs s) (saves s)).

Definition say (level : Level) (text : FixMessage) : FixM unit :=
  out (Said level text).

Definition fexit {A} (code : Z) : FixM A := fun s => (Exited code, s).

Definition throw {A} (error : option string) : FixM A := fun s => (Threw error, s).

(** [try { body } catch (error) { handler }]; no [this.exit] occurs
    inside a [try] of this file. *)
Definition tryCatch {A} (body : FixM A) (handler : option string -> FixM A) : FixM A :=
  fun s =>
    match body s with
    | (Threw error, s') => handler error s'
    | settled => settled
    end.

(** *** [HistoryManager] *)

Definition getHistory : FixM (list FixHistory) :=
  fun s =>
    match historyFile s with
    | HistoryStored records => (Done records, s)
    | HistoryUnreadable => (say LWarn MsgHistoryReadFailed ;;; fret []) s
    | HistoryAbsent => (Done [], s)
    end.

(** [history.unshift(record)], then [history.splice(50)] when longer
    than 50. *)
Definition pushBounded (record : FixHistory) (history : list FixHistory)
  : list FixHistory :=
  let history := record :: history in
  if (50 <? length history)%nat then firstn 50 history else history.

Definition saveToHistory (env : FixEnv) (filePath errorMessage : string)
           (success : bool) (fixType : FixType) : FixM unit :=
  history <~ getHistory ;;;
  (fun s =>
     let history :=
       pushBounded (mkFixHistory errorMessage filePath fixType success
                                 (clock env (saves s))) history in
     if historyWritable env (saves s) then
       (Done tt, mkFixState (disk s) (HistoryStored history)
                            (log s ++ [SaveHistory history true])
                            (calls s) (execs s) (S (saves s)))
     else
       say LWarn MsgHistoryWriteFailed
           (mkFixState (disk s) (historyFile s)
                       (log s ++ [SaveHistory history false])
                       (calls s) (execs s) (S (saves s)))).

(** *** [Fix.validateFileSize] with [maxSizeMB = 1]

    [stats.size / (1024 * 1024) > 1]: the division by a power of two is
    exact, so this is [size > 1048576]. *)
Definition validateFileSize (env : FixEnv) (path : string) : FixM bool :=
  if (1048576 <? sizeOf env path)%Z
  then say LError (MsgTooLarge (sizeOf env path)) ;;; fret false
  else fret true.

(** *** File access *)

Definition existsSync (s : FixState) (path : string) : bool :=
  match disk s path with
  | Some _ => true
  | None => false
  end.

(** [fs.readFileSync(path, 'utf8')] *)
Definition readFileSync (env : FixEnv) (path : string) : FixM string :=
  fun s =>
    match readFailure env path, disk s path with
    | None, Some content =>
        (Done content, mkFixState (disk s) (historyFile s)
                                  (log s ++ [ReadFile path true])
                                  (calls s) (execs s) (saves s))
    | Some message, _ =>
        (Threw (Some message), mkFixState (disk s) (historyFile s)
                                          (log s ++ [ReadFile path false])
                                          (calls s) (execs s) (saves s))
    | None, None =>
        (Threw (Some "ENOENT"), mkFixState (disk s) (historyFile s)
                                           (log s ++ [ReadFile path false])
                                           (calls s) (execs s) (saves s))
    end.

(** [fs.writeFileSync(path, content, 'utf8')] *)
Definition writeFileSync (env : FixEnv) (path content : string) : FixM unit :=
  fun s =>
    match writeFailure env path with
    | None =>
        (Done tt,
         mkFixState (fun p => if String.eqb p path then Some content else disk s p)
                    (historyFile s) (log s ++ [WriteFile path content true])
                    (calls s) (execs s) (saves s))
    | Some message =>
        (Threw (Some message),
         mkFixState (disk s) (historyFile s)
                    (log s ++ [WriteFile path content false])
                    (calls s) (execs s) (saves s))
    end.

(** [await confirm({default, message})] *)
Definition confirm (env : FixEnv) (default : bool) (q : Question) : FixM bool :=
  out (Asked default q) ;;; fret (answer env default q).

(** *** The model behind [retryWithBackoff] *)

Definition defaultModel : string := "gemini-2.0-flash-exp".

Definition typeErrorMessage : string :=
  "Cannot read properties of undefined (reading 'message')".

(** [await retryWithBackoff(() => model.generateContent(...))] with the
    default three attempts and base delay 1000, then
    [result.response.text()]. *)
Definition askModel (env : FixEnv) (prompt : Prompt) : FixM string :=
  fun s =>
    let model := ContextDetector.orElse (modelName env) defaultModel in
    match Fix.retryWithBackoff (fun n => (generate env model n prompt, S n))
                               3 1000 (calls s) with
    | Some r =>
        let s' := mkFixState (disk s) (historyFile s)
                             (log s ++ map Retry (Fix.events r))
                             (Fix.final r) (execs s) (saves s) in
        match Fix.outcome r with
        | Fix.Returned (BodyText text) => (Done text, s')
        | Fix.Returned (BodyThrows message) => (Threw (Some message), s')
        | Fix.Thrown lastError => (Threw lastError, s')
        end
    | None => (Threw None, s)                 (* three iterations suffice *)
    end.

(** [aiResponse.split(fence)[0]]: the text before the first fence. *)
Fixpoint beforeFence (s : string) : string :=
  if Js.startsWith s FixParse.fence then EmptyString
  else match s with
       | EmptyString => EmptyString
       | String c s' => String c (beforeFence s')
       end.

(** Truthiness of [string | null]. *)
Definition usable (code : option string) : bool :=
  match code with
  | Some c => Js.truthy c
  | None => false
  end.

Definition codeOf (code : option string) : string :=
  match code with
  | Some c => c
  | None => EmptyString
  end.

(** The [catch] of both commands up to the history record:
    [error.message] on [undefined] throws. *)
Definition reportFailure (error : option string) : FixM unit :=
  out (SpinnerStop false) ;;;
  say LError MsgAiFailed ;;;
  match error with
  | Some message => say LInfo (MsgErrorText message)
  | None => throw (Some typeErrorMessage)
  end.

(** *** [Fix.detectErrors]; [None] is [null] *)

Definition execSync (env : FixEnv) (command : string) : FixM ExecOutcome :=
  fun s =>
    (Done (exec env (execs s) command),
     mkFixState (disk s) (historyFile s) (log s ++ [Exec command])
                (calls s) (S (execs s)) (saves s)).

Definition quote : string := String (ascii_of_nat 34) EmptyString.

Definition quoted (path : string) : string := quote ++ path ++ quote.

(** [err.stderr || err.stdout || err.message || 'Unknown error'] *)
Definition errorOutput (stderr stdout message : string) : string :=
  if Js.truthy stderr then stderr
  else if Js.truthy stdout then stdout
  else if Js.truthy message then message
  else "Unknown error".

(** The [switch (ext)]: the command to run, [None] for [default]. *)
Definition chooseCommand (env : FixEnv) (ext filePath : string)
  : FixM (option string) :=
  if String.eqb ext ".js" || String.eqb ext ".mjs" then
    fret (Some ("node " ++ quoted filePath))
  else if String.eqb ext ".py" then
    fret (Some ("python " ++ quoted filePath))
  else if String.eqb ext ".ts" then
    tsc <~ execSync env "tsc --version" ;;;
    match tsc with
    | ExecOk => fret (Some ("tsc --noEmit " ++ quoted filePath))
    | ExecFails _ _ _ =>
        tsNode <~ execSync env "ts-node --version" ;;;
        match tsNode with
        | ExecOk => fret (Some ("ts-node " ++ quoted filePath))
        | ExecFails _ _ _ =>
            say LWarn MsgNoTypeScript ;;;
            fret (Some ("node " ++ quoted filePath))
        end
    end
  else
    say LWarn (MsgUnsupported ext) ;;;
    fret None.

Definition detectErrors (env : FixEnv) (filePath : string) : FixM (option string) :=
  let ext := Js.toLowerCase (extname env filePath) in
  command <~ chooseCommand env ext filePath ;;;
  match command with
  | None => fret None
  | Some command =>
      ran <~ execSync env command ;;;
      match ran with
      | ExecOk => fret None
      | ExecFails stderr stdout message =>
          fret (Some (Js.trim (errorOutput stderr stdout message)))
      end
  end.

(** *** [Fix.showHistory] *)

(** [s.slice(0, 80)] *)
Fixpoint take (n : nat) (s : string) : string :=
  match n, s with
  | S n', String c s' => String c (take n' s')
  | _, _ => EmptyString
  end.

(** [item.errorMessage.slice(0, 80)] and [...] when it is longer *)
Definition shownMessage (message : string) : string :=
  take 80 message ++ (if (80 <? String.length message)%nat then "..." else "").

(** [for (const [index, item] of history.entries())]; [remaining] is
    [history.length - index]. *)
Fixpoint listHistory (items : list FixHistory) : FixM unit :=
  match items with
  | [] => fret tt
  | item :: rest =>
      say LInfo (MsgHistoryEntry (success item) (fixType item) (filePath item)) ;;;
      say LInfo (MsgHistoryDetail (timestamp item) (shownMessage (errorMessage item))) ;;;
      match rest with
      | [] => fret tt
      | _ :: _ => say LInfo MsgBlank
      end ;;;
      listHistory rest
  end.

Definition showHistory : FixM unit :=
  history <~ getHistory ;;;
  if Nat.eqb (length history) 0 then say LInfo MsgNoHistory
  else
    say LInfo (MsgHistoryHeader (length history)) ;;;
    listHistory history.

(** *** [Fix.autoDetectAndFix] *)

Definition autoDetectAndFix (env : FixEnv) (argv : list string) : FixM unit :=
  match hd_error argv with
  | None => say LError MsgPathMissing ;;; say LInfo MsgExampleAuto ;;; fexit 1
  | Some filePath =>
      if negb (Js.truthy filePath) then
        say LError MsgPathMissing ;;; say LInfo MsgExampleAuto ;;; fexit 1
      else fun s0 =>
        (if negb (existsSync s0 filePath) then
           say LError (MsgNotFound filePath) ;;; fexit 1
         else
           sizeOk <~ validateFileSize env filePath ;;;
           if negb sizeOk then fexit 1
           else
             say LInfo (MsgDetecting filePath) ;;;
             errorInfo <~ detectErrors env filePath ;;;
             match errorInfo with
             | None =>
                 say LSuccess MsgNoErrorDetected ;;;
                 say LInfo MsgRunsFine ;;;
                 fexit 0
             | Some message =>
                 say LWarn MsgErrorDetected ;;;
                 say LInfo (MsgErrorText message) ;;;
                 fileContent <~ readFileSync env filePath ;;;
                 out SpinnerStart ;;;
                 tryCatch
                   (aiResponse <~ askModel env
                                    (PromptAutoDetect message fileContent filePath) ;;;
                    out (SpinnerStop true) ;;;
                    let fixedCode := FixParse.extractFixedCode aiResponse in
                    if usable fixedCode then
                      say LInfo MsgAnalysisHeader ;;;
                      say LInfo (MsgAnalysis (Js.trim (beforeFence aiResponse))) ;;;
                      say LInfo MsgFixedHeader ;;;
                      say LBox (MsgFixedCode (codeOf fixedCode)) ;;;
                      applyFix <~ confirm env true AskApply ;;;
                      if applyFix then
                        writeFileSync env filePath (codeOf fixedCode) ;;;
                        say LSuccess (MsgApplied filePath) ;;;
                        say LInfo MsgVerifying ;;;
                        verifyError <~ detectErrors env filePath ;;;
                        match verifyError with
                        | None =>
                            say LSuccess MsgVerified ;;;
                            saveToHistory env filePath message true Auto
                        | Some still =>
                            say LWarn MsgStillFailing ;;;
                            say LInfo (MsgErrorText still) ;;;
                            saveToHistory env filePath message false Auto
                        end
                      else
                        say LWarn MsgNotApplied ;;;
                        saveToHistory env filePath message false Auto
                    else
                      say LInfo MsgResultHeader ;;;
                      say LBox (MsgResponse aiResponse) ;;;
                      saveToHistory env filePath message true Auto)
                   (fun error =>
                      reportFailure error ;;;
                      saveToHistory env filePath message false Auto)
             end) s0
  end.

(** *** [Fix.run]

    [if (fileError.line)]: an absent line and line [0] are falsy. *)

Definition run (env : FixEnv) (argv : list string) (auto history : bool)
  : FixM unit :=
  if negb (ContextDetector.isSet (apiKey env)) then
    say LError MsgApiKeyMissing ;;;
    say LWarn MsgApiKeyHint ;;;
    fexit 1
  else if history then showHistory
  else if auto then autoDetectAndFix env argv
  else
    let errorString := Js.join " " argv in
    if negb (Js.truthy errorString) then
      say LError MsgErrorMissing ;;;
      say LInfo MsgExampleManual ;;;
      say LInfo MsgExampleAuto ;;;
      fexit 1
    else
      let fileError := FixParse.parseErrorString errorString in
      let path := FixParse.filePath fileError in
      target <~
        (fun s0 =>
           (if Js.truthy path && existsSync s0 path then
              sizeOk <~ validateFileSize env path ;;;
              if negb sizeOk then fexit 1
              else
                tryCatch
                  (fileContent <~ readFileSync env path ;;;
                   say LInfo (MsgFileFound path) ;;;
                   match FixParse.line fileError with
                   | Some n => if Z.eqb n 0 then fret tt else say LInfo (MsgLine n)
                   | None => fret tt
                   end ;;;
                   fret (fileContent, true))
                  (fun _ =>
                     say LWarn (MsgReadFailed path) ;;;
                     fret (EmptyString, false))
            else fret (EmptyString, false)) s0) ;;;
      let fileContent := fst target in
      let hasFile := snd target in
      out SpinnerStart ;;;
      tryCatch
        (let prompt :=
           if hasFile then PromptWithFile errorString fileContent fileError
           else PromptWithoutFile errorString in
         aiResponse <~ askModel env prompt ;;;
         out (SpinnerStop true) ;;;
         let fixedCode := FixParse.extractFixedCode aiResponse in
         if usable fixedCode && hasFile then
           say LInfo MsgAnalysisHeader ;;;
           say LInfo (MsgAnalysis (Js.trim (beforeFence aiResponse))) ;;;
           say LInfo MsgFixedHeader ;;;
           say LBox (MsgFixedCode (codeOf fixedCode)) ;;;
           applyFix <~ confirm env false AskApplyToFile ;;;
           if applyFix then
             writeFileSync env path (codeOf fixedCode) ;;;
             say LSuccess (MsgApplied path) ;;;
             saveToHistory env path errorString true Manual
           else
             say LWarn MsgNotApplied ;;;
             saveToHistory env path errorString false Manual
         else
           say LInfo MsgResultHeader ;;;
           say LBox (MsgResponse aiResponse) ;;;
           saveToHistory env "N/A" errorString true Manual)
        (fun error =>
           reportFailure error ;;;
           if hasFile then saveToHistory env path errorString false Manual
           else saveToHistory env "N/A" errorString false Manual).

(** *** Reading a log *)

Definition writesOf (l : list Output) : list (string * string * bool) :=
  flat_map (fun o => match o with
                     | WriteFile path content ok => [(path, content, ok)]
                     | _ => []
                     end) l.

Definition savesOf (l : list Output) : list (list FixHistory) :=
  flat_map (fun o => match o with SaveHistory records _ => [records] | _ => [] end) l.

Definition retriesOf (l : list Output) : list Fix.Event :=
  flat_map (fun o => match o with Retry e => [e] | _ => [] end) l.

Definition execsOf (l : list Output) : list string :=
  flat_map (fun o => match o with Exec command => [command] | _ => [] end) l.

Definition asksOf (l : list Output) : list (bool * Question) :=
  flat_map (fun o => match o with Asked d q => [(d, q)] | _ => [] end) l.

Definition begin (files : string -> option string) (h : HistoryFile) : FixState :=
  mkFixState files h [] 0 0 0.

End FixRun.
(** What the fix-history file counts as when it is read. *)
Definition priorFixes (f : FixRun.HistoryFile) : list FixRun.FixHistory :=
  match f with
  | FixRun.HistoryStored records => records
  | FixRun.HistoryUnreadable | FixRun.HistoryAbsent => []
  end.

(** A computation of the [fix] command all of whose writes to files
    satisfy [P]. *)
Definition writesOnly (P : string * string * bool -> Prop) {A}
           (m : FixRun.FixM A) : Prop :=
  forall s, exists more,
    FixRun.log (snd (m s)) = (FixRun.log s ++ more)%list
    /\ forall w, In w (FixRun.writesOf more) -> P w.

(** A computation that returns only values satisfying [Q]. *)
Definition returnsOnly {A} (Q : A -> Prop) (m : FixRun.FixM A) : Prop :=
  forall s a s', m s = (FixRun.Done a, s') -> Q a.

(** The write a run of [fix] may make: the file named on the command
    line, the code block of some reply, after the user said yes. *)
Definition permittedWrite (env : FixRun.FixEnv) (argv : list string) (auto : bool)
           (w : string * string * bool) : Prop :=
  let '(path, content, _) := w in
  (exists reply, FixParse.extractFixedCode reply = Some content)
  /\ content <> ""
  /\ if auto
     then hd_error argv = Some path /\ FixRun.answer env true FixRun.AskApply = true
     else path = FixParse.filePath (FixParse.parseErrorString (Js.join " " argv))
          /\ FixRun.answer env false FixRun.AskApplyToFile = true.

(** The events of three failed attempts with base delay 1000. *)
Definition threeFailedAttempts : list Fix.Event :=
  [Fix.Invoke; Fix.Warn 1 1000; Fix.Wait 1000;
   Fix.Invoke; Fix.Warn 2 2000; Fix.Wait 2000;
   Fix.Invoke].

(** The extensions [detectErrors] knows. *)
Definition supportedExtensions : list string := [".js"; ".mjs"; ".py"; ".ts"].

(** A machine on which nothing fails, with a model that answers as
    given and a user who answers as given. *)
Definition fixEnv (generate : nat -> Fix.Settled FixRun.AiBody string)
           (yes : bool) (exec : nat -> FixRun.ExecOutcome) : FixRun.FixEnv :=
  FixRun.mkFixEnv (Some "key") None (fun _ n _ => generate n) (fun _ _ => yes)
                  (fun _ => 120%Z) (fun _ => None) (fun _ => None)
                  (fun path => if Js.includes path ".py" then ".py" else ".txt")
                  (fun n _ => exec n)
                  (fun _ => "2025-01-01T00:00:00.000Z") (fun _ => true).

Definition oneFile (path content : string) : string -> option string :=
  fun p => if String.eqb p path then Some content else None.

Definition noFiles : string -> option string := fun _ => None.

(** Whether [execSync] returned. *)
Definition ranClean (o : FixRun.ExecOutcome) : bool :=
  match o with
  | FixRun.ExecOk => true
  | FixRun.ExecFails _ _ _ => false
  end.

(** What [detectErrors] reports for a failed command. *)
Definition reported (o : FixRun.ExecOutcome) : string :=
  match o with
  | FixRun.ExecOk => EmptyString
  | FixRun.ExecFails stderr stdout message =>
      Js.trim (FixRun.errorOutput stderr stdout message)
  end.

(** The disk after [path] was given new content. *)
Definition updated (d : string -> option string) (path content : string)
  : string -> option string :=
  fun p => if String.eqb p path then Some content else d p.


Definition fencedReply (code : string) : string :=
  "The variable was misspelled." ++ String Parser.newline FixParse.fence
  ++ "py" ++ String Parser.newline code ++ String Parser.newline FixParse.fence.

(* ================================================================== *)
(** ** Facts about the string primitives *)
(* ================================================================== *)

Lemma toLowerCase_app (a b : string) :
  Js.toLowerCase (a ++ b) = Js.toLowerCase a ++ Js.toLowerCase b.
Proof.
  induction a as [|c a IH]; simpl; [reflexivity | now rewrite IH].
Qed.

Lemma startsWith_app (p t : string) : Js.startsWith (p ++ t) p = true.
Proof.
  induction p as [|c p IH]; simpl; [reflexivity|].
  now rewrite Ascii.eqb_refl, IH.
Qed.

Lemma startsWith_inv (s p : string) :
  Js.startsWith s p = true -> exists t, s = p ++ t.
Proof.
  revert s; induction p as [|c p IH]; intros s H.
  - now exists s.
  - destruct s as [|b s]; simpl in H; [discriminate|].
    apply andb_prop in H as [Hc Hs].
    apply Ascii.eqb_eq in Hc; subst b.
    destruct (IH _ Hs) as [t ->]. now exists t.
Qed.

Lemma includes_startsWith (s p : string) :
  Js.startsWith s p = true -> Js.includes s p = true.
Proof.
  intros H; destruct s; simpl in *; rewrite H; reflexivity.
Qed.

Lemma includes_app (pre p post : string) :
  Js.includes (pre ++ p ++ post) p = true.
Proof.
  induction pre as [|c pre IH].
  - simpl append. apply includes_startsWith, startsWith_app.
  - change (Js.includes (String c (pre ++ p ++ post)) p = true).
    simpl. rewrite IH. apply orb_true_r.
Qed.

Lemma includes_inv (s p : string) :
  Js.includes s p = true -> exists pre post, s = pre ++ p ++ post.
Proof.
  induction s as [|c s IH]; simpl; intros H.
  - rewrite orb_false_r in H. apply startsWith_inv in H as [t Ht].
    exists "", t. exact Ht.
  - apply orb_prop in H as [H|H].
    + apply startsWith_inv in H as [t Ht]. exists "", t. exact Ht.
    + destruct (IH H) as (pre & post & ->). now exists (String c pre), post.
Qed.

Lemma occurs_includes (pattern command : string) :
  occursIgnoringCase pattern command ->
  Js.includes (Js.toLowerCase command) (Js.toLowerCase pattern) = true.
Proof.
  intros (pre & occ & post & -> & Hocc).
  rewrite !toLowerCase_app, Hocc. apply includes_app.
Qed.

(* ================================================================== *)
(** ** Facts about the run monad and the history store *)
(* ================================================================== *)

Lemma listPlan_run (commands : list string) :
  forall i w,
    listPlan i commands w
    = (Ret tt, mkWorld (file w) (trace w ++ planItems i commands)
                       (spawned w) (saved w)).
Proof.
  induction commands as [|cmd rest IH]; intros i w; simpl.
  - rewrite app_nil_r. now destruct w.
  - unfold bind, log, emit; simpl. rewrite IH; simpl.
    now rewrite <- app_assoc.
Qed.


Lemma effectsOf_app (a b : list Event) : effectsOf (a ++ b) = (effectsOf a ++ effectsOf b)%list.
Proof. apply filter_app. Qed.

Lemma planItems_effects (commands : list string) :
  forall i, effectsOf (planItems i commands) = [].
Proof. induction commands; intros i; simpl; auto. Qed.

Lemma pushBounded_cons (r : CommandHistory) (h : list CommandHistory) :
  pushBounded r h = r :: firstn 49 h.
Proof.
  unfold pushBounded.
  destruct (Nat.ltb_spec 50 (length (r :: h))) as [Hlt|Hge].
  - reflexivity.
  - simpl in Hge. rewrite firstn_all2 by lia. reflexivity.
Qed.

(** A call of [saveToHistory] always returns; it reads the clock once and
    attempts one write, of the new record put before what was read. *)
Lemma saveToHistory_run (env : Env) (cmd userPrompt : string) (ok : bool) (w : World) :
  exists more w',
    saveToHistory env cmd userPrompt ok w = (Ret tt, w')
    /\ trace w' = (trace w ++ more)%list
    /\ spawnsOf more = []
    /\ effectsOf more
       = [WriteFile (pushBounded (mkHistory cmd userPrompt ok (envClock env (saved w)))
                                 (priorRecords (file w)))
                    (envWritable env (saved w))]
    /\ spawned w' = spawned w
    /\ saved w' = S (saved w).
Proof.
  unfold saveToHistory, bind, getHistory, writeHistory, log, emit, ret.
  destruct w as [f t sp sv]; simpl.
  destruct f as [| |records]; simpl;
    destruct (envWritable env sv) eqn:Hw; simpl;
    eexists; eexists; (split; [reflexivity|]); simpl;
    rewrite <- ?app_assoc; (split; [reflexivity|]); simpl; auto.
Qed.

(** Unfolds the operations of the run monad as far as the next
    question put to a collaborator. *)
Ltac unfold_run :=
  cbv beta iota zeta delta
    [executeCommand saveToHistory bind getHistory writeHistory spawn when
     confirm exit log emit ret negb andb closeSuccess];
  cbn [file trace spawned saved].

(** The same, leaving [executeCommand] and [saveToHistory] folded. *)
Ltac unfold_gate :=
  cbv beta iota zeta delta
    [bind when confirm exit log emit ret negb];
  cbn [file trace spawned saved].

(** A call of [executeCommand] always returns: it spawns the command
    once, then writes one record whose [success] is the value returned. *)
Lemma executeCommand_run (env : Env) (cmd userPrompt : string) (multi : bool) (w : World) :
  let ok := stepSucceeds (envChild env (spawned w) cmd) in
  exists more w',
    executeCommand env cmd userPrompt multi w = (Ret ok, w')
    /\ trace w' = (trace w ++ more)%list
    /\ spawnsOf more = [cmd]
    /\ effectsOf more
       = [Spawn cmd (shellExecutable env);
          WriteFile (pushBounded (mkHistory cmd userPrompt ok (envClock env (saved w)))
                                 (priorRecords (file w)))
                    (envWritable env (saved w))]
    /\ spawned w' = S (spawned w)
    /\ saved w' = S (saved w).
Proof.
  destruct w as [f t sp sv]; simpl.
  destruct (envChild env sp cmd) as [msg|[code|]] eqn:Hchild; simpl;
    try destruct (Z.eqb code 0) eqn:Hcode; simpl;
    destruct multi, f as [| |records], (envWritable env sv) eqn:Hw;
    unfold_run; rewrite ?Hchild; unfold_run; rewrite ?Hcode; unfold_run;
    rewrite ?Hw; unfold_run;
    eexists; eexists; (split; [reflexivity|]); simpl;
    rewrite <- ?app_assoc; (split; [reflexivity|]); simpl; auto.
Qed.

(* ================================================================== *)
(** ** Safety gate *)
(* ================================================================== *)

(** C1.  A command in which a blacklisted pattern occurs, letter case
    ignored, is classified as blacklisted; [executeSingleCommand] on it,
    and [executeMultipleCommands] on any plan that has it as a step, leave
    through [exit(1)] with no child spawned and no history write: the
    spawn counter, the spawns and writes of the trace and the history file
    are what they were on entry. *)
Theorem blacklisted_never_spawns (pattern command : string) :
  In pattern SafetyChecker.dangerousCommands ->
  occursIgnoringCase pattern command ->
  SafetyChecker.isBlacklisted command = true
  /\ (forall env userPrompt w,
        exists w',
          executeSingleCommand env command userPrompt w = (Exit 1%Z, w')
          /\ effectsOf (trace w') = effectsOf (trace w)
          /\ spawned w' = spawned w
          /\ file w' = file w)
  /\ (forall env before after userPrompt w,
        exists w',
          executeMultipleCommands env (before ++ command :: after) userPrompt w
          = (Exit 1%Z, w')
          /\ effectsOf (trace w') = effectsOf (trace w)
          /\ spawned w' = spawned w
          /\ file w' = file w).
Proof.
  intros Hin Hocc.
  assert (Hb : SafetyChecker.isBlacklisted command = true).
  { unfold SafetyChecker.isBlacklisted. apply existsb_exists.
    exists pattern. split; [exact Hin | now apply occurs_includes]. }
  split; [exact Hb|]. split.
  - intros env userPrompt w.
    unfold executeSingleCommand, bind, when. rewrite Hb.
    unfold log, emit, exit; simpl.
    eexists; split; [reflexivity|]; simpl.
    rewrite <- app_assoc, effectsOf_app; simpl.
    rewrite app_nil_r. auto.
  - intros env before after userPrompt w.
    assert (Hany : existsb SafetyChecker.isBlacklisted (before ++ command :: after) = true).
    { rewrite existsb_app; simpl. rewrite Hb. now rewrite orb_true_r. }
    unfold executeMultipleCommands, bind. rewrite Hany.
    unfold log at 1, emit at 1. rewrite listPlan_run.
    unfold when, bind, log, emit, exit; simpl.
    eexists; split; [reflexivity|]; simpl.
    rewrite <- !app_assoc, !effectsOf_app; simpl.
    rewrite planItems_effects, app_nil_r. auto.
Qed.

Lemma blacklisted_never_spawns_witness :
  In "mkfs" SafetyChecker.dangerousCommands
  /\ occursIgnoringCase "mkfs" "sudo MKFS.ext4 /dev/sdb"
  /\ SafetyChecker.isBlacklisted "sudo MKFS.ext4 /dev/sdb" = true
  /\ fst (executeSingleCommand agreeableEnv "sudo MKFS.ext4 /dev/sdb" "format my disk"
            (start Absent)) = Exit 1%Z.
Proof.
  assert (Hin : In "mkfs" SafetyChecker.dangerousCommands) by (simpl; tauto).
  assert (Hocc : occursIgnoringCase "mkfs" "sudo MKFS.ext4 /dev/sdb").
  { exists "sudo ", "MKFS", ".ext4 /dev/sdb". split; reflexivity. }
  split; [exact Hin|]. split; [exact Hocc|].
  destruct (blacklisted_never_spawns "mkfs" "sudo MKFS.ext4 /dev/sdb" Hin Hocc)
    as (Hb & Hsingle & _).
  split; [exact Hb|].
  destruct (Hsingle agreeableEnv "format my disk" (start Absent)) as (w' & Hrun & _).
  rewrite Hrun. reflexivity.
Defined.

Lemma toLowerCase_app_inv (s a b : string) :
  Js.toLowerCase s = a ++ b ->
  exists s1 s2, s = s1 ++ s2 /\ Js.toLowerCase s1 = a /\ Js.toLowerCase s2 = b.
Proof.
  revert s; induction a as [|c a IH]; intros s H.
  - exists "", s. auto.
  - destruct s as [|d s]; simpl in H; [discriminate|].
    injection H as Hc Hs.
    destruct (IH _ Hs) as (s1 & s2 & -> & H1 & H2).
    exists (String d s1), s2. simpl. now rewrite Hc, H1.
Qed.

Lemma includes_occurs (pattern command : string) :
  Js.includes (Js.toLowerCase command) (Js.toLowerCase pattern) = true ->
  occursIgnoringCase pattern command.
Proof.
  intros H. apply includes_inv in H as (pre & post & H).
  apply toLowerCase_app_inv in H as (s1 & s2 & -> & _ & H2).
  apply toLowerCase_app_inv in H2 as (occ & s3 & -> & Hocc & _).
  now exists s1, occ, s3.
Qed.

(** The two classifiers decide exactly the containment the specification
    speaks of. *)
Lemma isBlacklisted_spec (command : string) :
  SafetyChecker.isBlacklisted command = true
  <-> exists pattern, In pattern SafetyChecker.dangerousCommands
                      /\ occursIgnoringCase pattern command.
Proof.
  unfold SafetyChecker.isBlacklisted. rewrite existsb_exists.
  split; intros (p & Hin & H); exists p; split; auto.
  - now apply includes_occurs.
  - now apply occurs_includes.
Qed.

Lemma isDestructive_spec (command : string) :
  SafetyChecker.isDestructive command = true
  <-> exists pattern, In pattern SafetyChecker.destructiveKeywords
                      /\ occursIgnoringCase pattern command.
Proof.
  unfold SafetyChecker.isDestructive. rewrite existsb_exists.
  split; intros (p & Hin & H); exists p; split; auto.
  - now apply includes_occurs.
  - now apply occurs_includes.
Qed.

Lemma bind_returns {A B} (m : M A) (k : A -> M B) (w w' : World) (a : A) :
  m w = (Ret a, w') -> bind m k w = k a w'.
Proof. intros H; unfold bind; now rewrite H. Qed.

Lemma bind_exits {A B} (m : M A) (k : A -> M B) (w w' : World) (code : Z) :
  m w = (Exit code, w') -> bind m k w = (Exit code, w').
Proof. intros H; unfold bind; now rewrite H. Qed.

(** C2.  A command in which a destructive pattern occurs and no
    blacklisted one is classified as destructive; [executeSingleCommand]
    shows the warning and asks with default answer [false].  When the user
    confirms, the command is spawned and the call returns; when the user
    declines, the run leaves through [exit(0)] and nothing else happens. *)
Theorem destructive_warns_default_no (pattern command : string) :
  In pattern SafetyChecker.destructiveKeywords ->
  occursIgnoringCase pattern command ->
  (forall p, In p SafetyChecker.dangerousCommands -> ~ occursIgnoringCase p command) ->
  SafetyChecker.isDestructive command = true
  /\ forall env userPrompt w,
       exists r rest w',
         executeSingleCommand env command userPrompt w = (r, w')
         /\ trace w'
            = (trace w
               ++ [Log LInfo MsgProposal; Log LBox (MsgCommandBox command);
                   Log LWarn MsgDestructive; Confirm false AskRunDestructive]
               ++ rest)%list
         /\ (envAnswer env false AskRunDestructive = true ->
             r = Ret tt /\ spawnsOf rest = [command])
         /\ (envAnswer env false AskRunDestructive = false ->
             r = Exit 0%Z /\ rest = [Log LWarn MsgCancelled]).
Proof.
  intros Hin Hocc Hsafe.
  assert (Hd : SafetyChecker.isDestructive command = true).
  { apply isDestructive_spec. now exists pattern. }
  assert (Hb : SafetyChecker.isBlacklisted command = false).
  { destruct (SafetyChecker.isBlacklisted command) eqn:E; [|reflexivity].
    apply isBlacklisted_spec in E as (p & Hp & Hc).
    now destruct (Hsafe p Hp). }
  split; [exact Hd|].
  intros env userPrompt [f t sp sv].
  unfold executeSingleCommand. rewrite Hb, Hd.
  unfold_gate.
  destruct (envAnswer env false AskRunDestructive) eqn:Hans; unfold_gate.
  - match goal with
    | |- context [executeCommand ?e ?c ?p ?m ?w0] =>
        destruct (executeCommand_run e c p m w0)
          as (more & w' & Hrun & Htr & Hsp & _)
    end.
    rewrite Hrun. exists (Ret tt), more, w'.
    split; [reflexivity|]. split.
    + rewrite Htr. simpl. now rewrite <- !app_assoc.
    + split; [auto | discriminate].
  - eexists; eexists; eexists. split; [reflexivity|]. split.
    + simpl. rewrite <- !app_assoc. simpl. reflexivity.
    + split; [discriminate | auto].
Qed.

Lemma destructive_warns_default_no_witness :
  In "rm -rf" SafetyChecker.destructiveKeywords
  /\ occursIgnoringCase "rm -rf" "RM -RF build"
  /\ (forall p, In p SafetyChecker.dangerousCommands -> ~ occursIgnoringCase p "RM -RF build")
  /\ SafetyChecker.isDestructive "RM -RF build" = true
  /\ fst (executeSingleCommand agreeableEnv "RM -RF build" "clean up" (start Absent))
     = Ret tt.
Proof.
  assert (Hin : In "rm -rf" SafetyChecker.destructiveKeywords) by (simpl; tauto).
  assert (Hocc : occursIgnoringCase "rm -rf" "RM -RF build").
  { exists "", "RM -RF", " build". split; reflexivity. }
  assert (Hsafe : forall p, In p SafetyChecker.dangerousCommands ->
                            ~ occursIgnoringCase p "RM -RF build").
  { intros p Hp Hc.
    assert (E : SafetyChecker.isBlacklisted "RM -RF build" = true)
      by (apply isBlacklisted_spec; now exists p).
    vm_compute in E. discriminate E. }
  split; [exact Hin|]. split; [exact Hocc|]. split; [exact Hsafe|].
  destruct (destructive_warns_default_no "rm -rf" "RM -RF build" Hin Hocc Hsafe)
    as (Hd & Hrun).
  split; [exact Hd|].
  destruct (Hrun agreeableEnv "clean up" (start Absent)) as (r & rest & w' & E & Htr & Hyes & _).
  rewrite E. simpl fst.
  destruct (Hyes eq_refl) as (Hr & _). exact Hr.
Defined.

(* ================================================================== *)
(** ** Execution and history *)
(* ================================================================== *)

(** C7.  When the child of [executeCommand] closes with [code], the value
    returned and the [success] of the record written are the same
    boolean, and it is [true] exactly when [code] is 0 or [null]. *)
Theorem close_code_decides_success
  (env : Env) (command userPrompt : string) (isMultiStep : bool)
  (w : World) (code : option Z) :
  envChild env (spawned w) command = ChildClose code ->
  exists ok more w',
    executeCommand env command userPrompt isMultiStep w = (Ret ok, w')
    /\ trace w' = (trace w ++ more)%list
    /\ effectsOf more
       = [Spawn command (shellExecutable env);
          WriteFile (mkHistory command userPrompt ok (envClock env (saved w))
                       :: firstn 49 (priorRecords (file w)))
                    (envWritable env (saved w))]
    /\ (ok = true <-> code = Some 0%Z \/ code = None).
Proof.
  intros Hchild.
  destruct (executeCommand_run env command userPrompt isMultiStep w)
    as (more & w' & Hrun & Htr & _ & Heff & _).
  rewrite Hchild in Hrun, Heff. simpl stepSucceeds in Hrun, Heff.
  exists (closeSuccess code), more, w'.
  split; [exact Hrun|]. split; [exact Htr|]. split.
  - rewrite Heff, pushBounded_cons. reflexivity.
  - destruct code as [c|]; simpl.
    + rewrite Z.eqb_eq. split.
      * intros ->. now left.
      * intros [H|H]; [now injection H | discriminate].
    + split; auto.
Qed.

Lemma close_code_decides_success_witness :
  envChild agreeableEnv (spawned (start Absent)) "npm install" = ChildClose (Some 0%Z)
  /\ fst (executeCommand agreeableEnv "npm install" "install" false (start Absent))
     = Ret true.
Proof.
  split; [reflexivity|].
  destruct (close_code_decides_success agreeableEnv "npm install" "install" false
              (start Absent) (Some 0%Z) eq_refl)
    as (ok & more & w' & Hrun & _ & _ & Hok).
  rewrite Hrun. simpl fst. f_equal. apply Hok. now left.
Defined.

(** C8.  Over a stored list [old], [saveToHistory] hands to the disk the
    new record followed by a prefix [kept] of [old], and that list is what
    the file holds once the write has succeeded; the list has at most 50
    entries; nothing is dropped while [old] has fewer than 50, and from a
    50-entry [old] exactly its last (oldest) entry is dropped, leaving
    50. *)
Theorem saveToHistory_newest_first_bounded
  (env : Env) (command userPrompt : string) (ok : bool)
  (w : World) (old : list CommandHistory) :
  file w = Stored old ->
  let record := mkHistory command userPrompt ok (envClock env (saved w)) in
  exists kept dropped w',
    saveToHistory env command userPrompt ok w = (Ret tt, w')
    /\ old = (kept ++ dropped)%list
    /\ effectsOf (trace w')
       = (effectsOf (trace w)
          ++ [WriteFile (record :: kept) (envWritable env (saved w))])%list
    /\ (envWritable env (saved w) = true -> file w' = Stored (record :: kept))
    /\ (length (record :: kept) <= 50)%nat
    /\ ((length old < 50)%nat -> dropped = [])
    /\ (length old = 50%nat ->
        length (record :: kept) = 50%nat /\ exists oldest, dropped = [oldest]).
Proof.
  intros Hfile record.
  exists (firstn 49 old), (skipn 49 old).
  destruct w as [f t sp sv]; cbn [file saved trace] in Hfile, record |- *; subst f.
  assert (Hrun : exists w',
             saveToHistory env command userPrompt ok (mkWorld (Stored old) t sp sv)
             = (Ret tt, w')
             /\ effectsOf (trace w')
                = (effectsOf t
                   ++ [WriteFile (record :: firstn 49 old) (envWritable env sv)])%list
             /\ (envWritable env sv = true ->
                 file w' = Stored (record :: firstn 49 old))).
  { unfold saveToHistory, bind, getHistory, writeHistory, log, emit;
      cbn [file saved trace spawned].
    rewrite pushBounded_cons. fold record.
    destruct (envWritable env sv); eexists; (split; [reflexivity|]);
      cbn [file trace]; rewrite ?effectsOf_app; cbn [effectsOf filter];
      rewrite ?app_nil_r; split; congruence. }
  destruct Hrun as (w' & Hrun & Heff & Hstored).
  exists w'. split; [exact Hrun|].
  split; [symmetry; apply firstn_skipn|].
  split; [exact Heff|]. split; [exact Hstored|].
  split; [cbn [length]; rewrite length_firstn; lia|].
  split.
  - intros Hlt. apply skipn_all2. lia.
  - intros Hlen. split.
    + cbn [length]. rewrite length_firstn. lia.
    + assert (Hs : length (skipn 49 old) = 1%nat)
        by (rewrite length_skipn; lia).
      destruct (skipn 49 old) as [|x [|y l]]; simpl in Hs; try discriminate.
      now exists x.
Qed.

Lemma saveToHistory_newest_first_bounded_witness :
  let old := repeat (mkHistory "ls" "list files" true "2024-12-31T00:00:00.000Z") 50 in
  let w := mkWorld (Stored old) [] 0 0 in
  file w = Stored old
  /\ exists stored,
       file (snd (saveToHistory agreeableEnv "pwd" "where am I" true w)) = Stored stored
       /\ length stored = 50%nat.
Proof.
  intros old w.
  split; [reflexivity|].
  destruct (saveToHistory_newest_first_bounded agreeableEnv "pwd" "where am I" true
              w old eq_refl)
    as (kept & dropped & w' & Hrun & _ & _ & Hfile & _ & _ & Hfull).
  rewrite Hrun. simpl snd. eexists. split; [exact (Hfile eq_refl)|].
  apply Hfull. reflexivity.
Defined.





(* ================================================================== *)
(** ** Retry with backoff *)
(* ================================================================== *)

Section RetryFacts.

Context {T E S : Type}.
Variable fn : S -> Fix.Settled T E * S.



(** C3.  An operation that rejects on its first two invocations and
    fulfils with [value] on the third: [retryWithBackoff] with
    [maxRetries = 3] and [baseDelay = d] returns [value] after three
    invocations, having waited [d * 1] after the first and [d * 2]
    after the second, and not after the third. *)
Theorem retry_succeeds_on_third_attempt
  (d : Z) (s0 s1 s2 s3 : S) (e1 e2 : E) (value : T) :
  fn s0 = (Fix.Rejected e1, s1) ->
  fn s1 = (Fix.Rejected e2, s2) ->
  fn s2 = (Fix.Fulfilled value, s3) ->
  exists run,
    Fix.retryWithBackoff fn 3 d s0 = Some run
    /\ Fix.outcome run = Fix.Returned value
    /\ Fix.final run = s3
    /\ Fix.events run
       = [Fix.Invoke; Fix.Warn 1 (d * 1); Fix.Wait (d * 1);
          Fix.Invoke; Fix.Warn 2 (d * 2); Fix.Wait (d * 2);
          Fix.Invoke]
    /\ Fix.invocations (Fix.events run) = 3%nat
    /\ Fix.waits (Fix.events run) = [d * 1; d * 2]%Z.
Proof.
  intros H0 H1 H2.
  unfold Fix.retryWithBackoff.
  change (Z.to_nat 3) with 3%nat.
  simpl. rewrite H0. simpl. rewrite H1. simpl. rewrite H2.
  eexists. split; [reflexivity|]. simpl. repeat split; reflexivity.
Qed.

(** C4.  An operation whose three invocations all reject, the third
    with [e3]: [retryWithBackoff] with [maxRetries = 3] invokes it three
    times, waits twice ([d * 1], then [d * 2]), and throws [e3] itself. *)
Theorem retry_rethrows_last_failure
  (d : Z) (s0 s1 s2 s3 : S) (e1 e2 e3 : E) :
  fn s0 = (Fix.Rejected e1, s1) ->
  fn s1 = (Fix.Rejected e2, s2) ->
  fn s2 = (Fix.Rejected e3, s3) ->
  exists run,
    Fix.retryWithBackoff fn 3 d s0 = Some run
    /\ Fix.outcome run = Fix.Thrown (Some e3)
    /\ Fix.final run = s3
    /\ Fix.events run
       = [Fix.Invoke; Fix.Warn 1 (d * 1); Fix.Wait (d * 1);
          Fix.Invoke; Fix.Warn 2 (d * 2); Fix.Wait (d * 2);
          Fix.Invoke]
    /\ Fix.invocations (Fix.events run) = 3%nat
    /\ Fix.waits (Fix.events run) = [d * 1; d * 2]%Z.
Proof.
  intros H0 H1 H2.
  unfold Fix.retryWithBackoff.
  change (Z.to_nat 3) with 3%nat.
  simpl. rewrite H0. simpl. rewrite H1. simpl. rewrite H2.
  eexists. split; [reflexivity|]. simpl. repeat split; reflexivity.
Qed.

(** C9.  With [maxRetries <= 0] the loop body never runs: the operation
    is not invoked, nothing is logged or waited for, and what is thrown
    is [lastError] as initialised, [undefined]. *)
Theorem retry_without_attempts_throws_undefined
  (maxRetries baseDelay : Z) (s : S) :
  (maxRetries <= 0)%Z ->
  Fix.retryWithBackoff fn maxRetries baseDelay s
  = Some (Fix.mkRun (Fix.Thrown None) s []).
Proof.
  intros Hle. unfold Fix.retryWithBackoff.
  destruct (Z.to_nat maxRetries); simpl;
    destruct (Z.ltb_spec 0 maxRetries); try lia; reflexivity.
Qed.

End RetryFacts.

Lemma retry_succeeds_on_third_attempt_witness :
  failsTwice 0 = (Fix.Rejected 0%nat, 1%nat)
  /\ failsTwice 1 = (Fix.Rejected 1%nat, 2%nat)
  /\ failsTwice 2 = (Fix.Fulfilled "done", 3%nat)
  /\ exists run,
       Fix.retryWithBackoff failsTwice 3 1000 0%nat = Some run
       /\ Fix.outcome run = Fix.Returned "done"
       /\ Fix.waits (Fix.events run) = [1000; 2000]%Z.
Proof.
  split; [reflexivity|]. split; [reflexivity|]. split; [reflexivity|].
  destruct (retry_succeeds_on_third_attempt failsTwice 1000 0%nat 1%nat 2%nat 3%nat
              0%nat 1%nat "done" eq_refl eq_refl eq_refl)
    as (run & Hrun & Hout & _ & _ & _ & Hwaits).
  exists run. split; [exact Hrun|]. split; [exact Hout|]. exact Hwaits.
Defined.

Lemma retry_rethrows_last_failure_witness :
  alwaysFails 0 = (Fix.Rejected 0%nat, 1%nat)
  /\ alwaysFails 1 = (Fix.Rejected 1%nat, 2%nat)
  /\ alwaysFails 2 = (Fix.Rejected 2%nat, 3%nat)
  /\ exists run,
       Fix.retryWithBackoff alwaysFails 3 1000 0%nat = Some run
       /\ Fix.outcome run = Fix.Thrown (Some 2%nat)
       /\ Fix.invocations (Fix.events run) = 3%nat.
Proof.
  split; [reflexivity|]. split; [reflexivity|]. split; [reflexivity|].
  destruct (retry_rethrows_last_failure alwaysFails 1000 0%nat 1%nat 2%nat 3%nat
              0%nat 1%nat 2%nat eq_refl eq_refl eq_refl)
    as (run & Hrun & Hout & _ & _ & Hinv & _).
  exists run. split; [exact Hrun|]. split; [exact Hout|]. exact Hinv.
Defined.

Lemma retry_without_attempts_throws_undefined_witness :
  (0 <= 0)%Z
  /\ Fix.retryWithBackoff failsTwice 0 1000 0%nat
     = Some (Fix.mkRun (Fix.Thrown None) 0%nat []).
Proof.
  split; [lia|].
  apply (retry_without_attempts_throws_undefined failsTwice 0 1000 0%nat). lia.
Defined.

(* ================================================================== *)
(** ** Response parser *)
(* ================================================================== *)

Lemma split_cons (sep : ascii) (s : string) :
  exists h t, Js.split sep s = h :: t.
Proof.
  induction s as [|c s (h & t & IH)]; simpl.
  - eauto.
  - destruct (Ascii.eqb c sep); [eauto|]. rewrite IH. eauto.
Qed.

Lemma join_split_colon (s : string) : Js.join ":" (Js.split Parser.colon s) = s.
Proof.
  induction s as [|c s IH]; simpl; [reflexivity|].
  destruct (Ascii.eqb_spec c Parser.colon) as [->|Hne].
  - destruct (split_cons Parser.colon s) as (h & t & Hs).
    rewrite Hs in *. simpl in *. now rewrite IH.
  - destruct (split_cons Parser.colon s) as (h & t & Hs).
    rewrite Hs in *. destruct t as [|h' t]; simpl in *; now rewrite <- IH.
Qed.

(** [split(':').slice(1).join(':')] is the text after the first colon. *)
Lemma join_slice_split (s : string) :
  Js.join ":" (Js.slice1 (Js.split Parser.colon s)) = textAfterFirstColon s.
Proof.
  induction s as [|c s IH]; simpl; [reflexivity|].
  destruct (Ascii.eqb c Parser.colon).
  - apply join_split_colon.
  - destruct (split_cons Parser.colon s) as (h & t & Hs).
    rewrite Hs in *. exact IH.
Qed.

Lemma commandText_spec (line : string) :
  Parser.commandText line = Js.trim (textAfterFirstColon line).
Proof. unfold Parser.commandText. now rewrite join_slice_split. Qed.

Lemma split_head (s : string) :
  exists t, Js.split Parser.colon s = textBeforeColon s :: t.
Proof.
  induction s as [|c s (t & IH)]; simpl.
  - eauto.
  - destruct (Ascii.eqb c Parser.colon); [eauto|]. rewrite IH. eauto.
Qed.

Lemma includes_colon_cons (c : ascii) (s : string) :
  Js.includes (String c s) ":" = Ascii.eqb c Parser.colon || Js.includes s ":".
Proof.
  change (Js.includes (String c s) ":")
    with ((Ascii.eqb ":" c && true) || Js.includes s ":").
  now rewrite andb_true_r, Ascii.eqb_sym.
Qed.

(** [split(':')[1]]: defined exactly when the line has a colon, and then
    the text between the first colon and the second. *)
Lemma split_second (s : string) :
  nth_error (Js.split Parser.colon s) 1
  = if Js.includes s ":" then Some (textBeforeColon (textAfterFirstColon s)) else None.
Proof.
  induction s as [|c s IH]; [reflexivity|].
  rewrite includes_colon_cons. simpl.
  destruct (Ascii.eqb c Parser.colon); simpl.
  - destruct (split_head s) as (t & ->). reflexivity.
  - destruct (split_cons Parser.colon s) as (h & t & Hs).
    rewrite Hs in *. exact IH.
Qed.

Lemma textBeforeColon_app (a b : string) :
  Js.includes a ":" = false -> textBeforeColon (a ++ ":" ++ b) = a.
Proof.
  change (":" ++ b) with (String Parser.colon b).
  induction a as [|c a IH]; intros H; [reflexivity|].
  rewrite includes_colon_cons in H. apply orb_false_elim in H as [Hc Ha].
  simpl. rewrite Hc. now rewrite IH.
Qed.

Lemma textAfterFirstColon_app (a b : string) :
  Js.includes a ":" = false -> textAfterFirstColon (a ++ ":" ++ b) = b.
Proof.
  change (":" ++ b) with (String Parser.colon b).
  induction a as [|c a IH]; intros H; [reflexivity|].
  rewrite includes_colon_cons in H. apply orb_false_elim in H as [Hc Ha].
  simpl. rewrite Hc. now apply IH.
Qed.

Lemma textAfterFirstColon_none (s : string) :
  Js.includes s ":" = false -> textAfterFirstColon s = "".
Proof.
  induction s as [|c s IH]; intros H; [reflexivity|].
  rewrite includes_colon_cons in H. apply orb_false_elim in H as [Hc Hs].
  simpl. rewrite Hc. now apply IH.
Qed.

(** A line that starts with [SUGGESTIONS:] has a second field, so the
    [.trim()] on it never meets [undefined]. *)
Lemma suggestionList_defined (line : string) :
  Js.startsWith line "SUGGESTIONS:" = true ->
  Parser.suggestionList line
  = Parser.Normal
      (map Js.trim
           (Js.split Parser.pipe
                     (Js.trim (textBeforeColon (textAfterFirstColon line))))).
Proof.
  intros H. apply startsWith_inv in H as (t & ->).
  unfold Parser.suggestionList. rewrite split_second.
  replace (Js.includes ("SUGGESTIONS:" ++ t) ":") with true; [reflexivity|].
  symmetry. apply (includes_app "SUGGESTIONS" ":" t).
Qed.

(** The loop always completes, and its commands are the command texts of
    the lines that start with the marker, in order. *)
Lemma scanLines_commands (marker : string) (lines : list string) :
  forall cmds suggs,
  exists suggs',
    Parser.scanLines marker lines cmds suggs
    = Parser.Normal
        (Parser.mkPlan
           (cmds ++ map Parser.commandText
                        (filter (fun l => Js.startsWith l marker) lines))
           suggs').
Proof.
  induction lines as [|line rest IH]; intros cmds suggs;
    cbn [Parser.scanLines filter map].
  - exists suggs. now rewrite app_nil_r.
  - destruct (Js.startsWith line marker); cbn [map].
    + destruct (IH (cmds ++ [Parser.commandText line])%list suggs) as (s' & ->).
      exists s'. now rewrite <- app_assoc.
    + destruct (Js.startsWith line "SUGGESTIONS:") eqn:Hs.
      * rewrite (suggestionList_defined _ Hs). apply IH.
      * apply IH.
Qed.

(** Lines after the last [SUGGESTIONS:] line leave the suggestions alone. *)
Lemma scanLines_keeps_suggestions (marker : string) (lines : list string) :
  Forall (fun l => Js.startsWith l "SUGGESTIONS:" = false) lines ->
  forall cmds suggs,
    Parser.scanLines marker lines cmds suggs
    = Parser.Normal
        (Parser.mkPlan
           (cmds ++ map Parser.commandText
                        (filter (fun l => Js.startsWith l marker) lines))
           suggs).
Proof.
  induction 1 as [|line rest Hline _ IH]; intros cmds suggs;
    cbn [Parser.scanLines filter map].
  - now rewrite app_nil_r.
  - destruct (Js.startsWith line marker); cbn [map].
    + rewrite IH. now rewrite <- app_assoc.
    + rewrite Hline. apply IH.
Qed.

Lemma scanLines_app (marker : string) (before rest : list string) :
  forall cmds suggs,
    Parser.scanLines marker (before ++ rest) cmds suggs
    = match Parser.scanLines marker before cmds suggs with
      | Parser.Normal p =>
          Parser.scanLines marker rest (Parser.commands p) (Parser.suggestions p)
      | Parser.TypeError => Parser.TypeError
      end.
Proof.
  induction before as [|line before IH]; intros cmds suggs;
    cbn [Parser.scanLines app].
  - reflexivity.
  - destruct (Js.startsWith line marker); [apply IH|].
    destruct (Js.startsWith line "SUGGESTIONS:"); [|apply IH].
    destruct (Parser.suggestionList line); [apply IH | reflexivity].
Qed.

(** [parseAIResponse] returns a plan for every response. *)
Lemma parseAIResponse_total (response : string) :
  exists plan, Parser.parseAIResponse response = Parser.Normal plan.
Proof.
  unfold Parser.parseAIResponse.
  destruct (Js.includes response "MULTI_STEP");
    match goal with
    | |- context [Parser.scanLines ?m ?l ?c ?s] =>
        destruct (scanLines_commands m l c s) as (s' & ->)
    end; eauto.
Qed.

Example parse_single_command :
  Parser.parseAIResponse (unlines ["COMMAND: npm install"; "SUGGESTIONS: a | b | c"])
  = Parser.Normal (Parser.mkPlan ["npm install"] ["a"; "b"; "c"]).
Proof. reflexivity. Qed.

Example parse_multi_step :
  Parser.parseAIResponse
    (unlines ["MULTI_STEP"; "STEP1: mkdir x"; "STEP2: cd x"; "SUGGESTIONS: alt"])
  = Parser.Normal (Parser.mkPlan ["mkdir x"; "cd x"] ["alt"]).
Proof. reflexivity. Qed.

(** C5, as the claim has it, fails: a [STEP] line with nothing after its
    colon, and one without a colon, each put an empty string into the
    plan. *)
Lemma step_without_text_counterexample :
  ~ (forall response plan,
        Js.includes response "MULTI_STEP" = true ->
        Parser.parseAIResponse response = Parser.Normal plan ->
        Forall (fun cmd => cmd <> "") (Parser.commands plan)).
Proof.
  intros claim.
  specialize (claim (unlines ["MULTI_STEP"; "STEP1:"; "STEP2"])
                    (Parser.mkPlan [""; ""] []) eq_refl eq_refl).
  inversion claim as [|cmd rest Hcmd _]. now apply Hcmd.
Qed.

(** C5, amended.  In a response that contains [MULTI_STEP], every
    non-blank trimmed line that starts with [STEP] contributes exactly one
    command, the trimmed text after its first colon, and no other line
    contributes one.  For a [STEP] line without a colon, or with nothing
    after its first colon, that command is the empty string. *)
Theorem step_lines_each_give_one_command (response : string) :
  Js.includes response "MULTI_STEP" = true ->
  (exists suggs,
      Parser.parseAIResponse response
      = Parser.Normal
          (Parser.mkPlan
             (map (fun line => Js.trim (textAfterFirstColon line))
                  (filter (fun line => Js.startsWith line "STEP")
                          (Parser.linesOf response)))
             suggs))
  /\ (forall line, Js.includes line ":" = false -> Parser.commandText line = "")
  /\ (forall label, Js.includes label ":" = false ->
                    Parser.commandText (label ++ ":") = "").
Proof.
  intros Hmulti. split; [|split].
  - unfold Parser.parseAIResponse. rewrite Hmulti.
    destruct (scanLines_commands "STEP" (Parser.linesOf response) [] []) as (s' & ->).
    exists s'. simpl app. do 2 f_equal.
    apply map_ext. intros line. apply commandText_spec.
  - intros line H. now rewrite commandText_spec, textAfterFirstColon_none.
  - intros label H. rewrite commandText_spec.
    change (label ++ ":") with (label ++ ":" ++ "").
    now rewrite textAfterFirstColon_app.
Qed.

Lemma step_lines_each_give_one_command_witness :
  Js.includes (unlines ["MULTI_STEP"; "STEP1: mkdir x"; "STEP2:"; "note"]) "MULTI_STEP"
  = true
  /\ exists suggs,
       Parser.parseAIResponse (unlines ["MULTI_STEP"; "STEP1: mkdir x"; "STEP2:"; "note"])
       = Parser.Normal (Parser.mkPlan ["mkdir x"; ""] suggs).
Proof.
  split; [reflexivity|].
  destruct (step_lines_each_give_one_command
              (unlines ["MULTI_STEP"; "STEP1: mkdir x"; "STEP2:"; "note"]) eq_refl)
    as ((suggs & Hparse) & _).
  exists suggs. exact Hparse.
Defined.

(** C10.  When the last [SUGGESTIONS:] line of a response reads
    [SUGGESTIONS:a:b] with no colon in [a], the suggestions are the
    pipe-separated, trimmed pieces of [a] alone: [b], all that follows the
    second colon, has no part in them.  The commands are the command texts
    of the marker lines, and the command text of [COMMAND:r], or of
    [STEP<n>:r], is the whole of [r] trimmed, colons included. *)
Theorem suggestions_cut_at_second_colon
  (response : string) (before after : list string) (a b : string) :
  Parser.linesOf response = (before ++ ("SUGGESTIONS:" ++ a ++ ":" ++ b)%string :: after)%list ->
  Js.includes a ":" = false ->
  Forall (fun l => Js.startsWith l "SUGGESTIONS:" = false) after ->
  let marker := if Js.includes response "MULTI_STEP" then "STEP" else "COMMAND:" in
  Parser.parseAIResponse response
  = Parser.Normal
      (Parser.mkPlan
         (map Parser.commandText
              (filter (fun l => Js.startsWith l marker) (Parser.linesOf response)))
         (map Js.trim (Js.split Parser.pipe (Js.trim a))))
  /\ (forall r, Parser.commandText ("COMMAND:" ++ r) = Js.trim r)
  /\ (forall n r, Js.includes n ":" = false ->
                  Parser.commandText ("STEP" ++ n ++ ":" ++ r) = Js.trim r).
Proof.
  intros Hlines Ha Hafter marker.
  split; [|split].
  - assert (Hscan : forall m, (m = "STEP" \/ m = "COMMAND:") ->
              Parser.scanLines m (Parser.linesOf response) [] []
              = Parser.Normal
                  (Parser.mkPlan
                     (map Parser.commandText
                          (filter (fun l => Js.startsWith l m) (Parser.linesOf response)))
                     (map Js.trim (Js.split Parser.pipe (Js.trim a))))).
    { intros m Hm. rewrite Hlines, scanLines_app.
      destruct (scanLines_commands m before [] []) as (s0 & ->).
      cbn [Parser.commands Parser.suggestions Parser.scanLines].
      assert (Hnot : Js.startsWith ("SUGGESTIONS:" ++ a ++ ":" ++ b) m = false)
        by (destruct Hm as [-> | ->]; reflexivity).
      rewrite Hnot.
      rewrite (startsWith_app "SUGGESTIONS:" (a ++ ":" ++ b)).
      rewrite (suggestionList_defined _ (startsWith_app "SUGGESTIONS:" (a ++ ":" ++ b))).
      change (textAfterFirstColon ("SUGGESTIONS:" ++ a ++ ":" ++ b)) with (a ++ ":" ++ b).
      rewrite (textBeforeColon_app a b Ha).
      rewrite (scanLines_keeps_suggestions m after Hafter).
      rewrite filter_app. cbn [filter]. rewrite Hnot.
      now rewrite map_app, app_nil_l. }
    unfold Parser.parseAIResponse. subst marker.
    destruct (Js.includes response "MULTI_STEP"); apply Hscan; auto.
  - intros r. now rewrite commandText_spec.
  - intros n r Hn. rewrite commandText_spec.
    change ("STEP" ++ n ++ ":" ++ r)
      with (String "S" (String "T" (String "E" (String "P" (n ++ ":" ++ r))))).
    cbn [textAfterFirstColon Ascii.eqb Bool.eqb Parser.colon].
    now rewrite textAfterFirstColon_app.
Qed.

Lemma suggestions_cut_at_second_colon_witness :
  let response :=
    unlines ["COMMAND: curl http://localhost:3000/api";
             "SUGGESTIONS: wget http://localhost:3000 | nc localhost 3000"] in
  Parser.linesOf response
  = (["COMMAND: curl http://localhost:3000/api"]
       ++ ("SUGGESTIONS:" ++ " wget http" ++ ":" ++ "//localhost:3000 | nc localhost 3000")%string
       :: [])%list
  /\ Js.includes " wget http" ":" = false
  /\ Forall (fun l => Js.startsWith l "SUGGESTIONS:" = false) []
  /\ Parser.parseAIResponse response
     = Parser.Normal (Parser.mkPlan ["curl http://localhost:3000/api"] ["wget http"]).
Proof.
  intros response.
  split; [reflexivity|]. split; [reflexivity|]. split; [constructor|].
  exact (proj1 (suggestions_cut_at_second_colon response
                  ["COMMAND: curl http://localhost:3000/api"] []
                  " wget http" "//localhost:3000 | nc localhost 3000"
                  eq_refl eq_refl (Forall_nil _))).
Defined.

(* ================================================================== *)
(** ** Retry with backoff, for any number of attempts *)
(* ================================================================== *)

Section RetryGeneral.

Context {T E State : Type}.
Variable fn : State -> Fix.Settled T E * State.












End RetryGeneral.


(* ================================================================== *)
(** ** History store: failures and round trip *)
(* ================================================================== *)

(** X4.  What a successful [saveToHistory] stored is what the next
    [getHistory] returns, without a warning: the new record, then the
    first 49 of what was readable before (nothing, when the file was
    absent or unreadable). *)
Theorem saved_history_reads_back
  (env : Env) (command userPrompt : string) (ok : bool) (w : World) :
  envWritable env (saved w) = true ->
  exists w',
    saveToHistory env command userPrompt ok w = (Ret tt, w')
    /\ getHistory w'
       = (Ret (mkHistory command userPrompt ok (envClock env (saved w))
                 :: firstn 49 (priorRecords (file w))),
          w').
Proof.
  intros Hw. destruct w as [f t sp sv]. cbn [saved file] in *.
  destruct f as [| |records]; unfold_run; rewrite Hw; unfold_run;
    rewrite pushBounded_cons; eexists; (split; [reflexivity|]);
    unfold_run; reflexivity.
Qed.

Lemma saved_history_reads_back_witness :
  envWritable agreeableEnv (saved (start Unreadable)) = true
  /\ exists w',
       saveToHistory agreeableEnv "ls" "list" true (start Unreadable) = (Ret tt, w')
       /\ fst (getHistory w')
          = Ret [mkHistory "ls" "list" true "2025-01-01T00:00:00.000Z"].
Proof.
  split; [reflexivity|].
  destruct (saved_history_reads_back agreeableEnv "ls" "list" true
              (start Unreadable) eq_refl) as (w' & Hsave & Hget).
  exists w'. split; [exact Hsave|]. rewrite Hget. reflexivity.
Defined.


(* ================================================================== *)
(** ** Execution sequencer: every plan, every outcome *)
(* ================================================================== *)

Lemma effectSummary_app (a b : list Event) :
  effectSummary (a ++ b) = (effectSummary a ++ effectSummary b)%list.
Proof. apply flat_map_app. Qed.

Lemma planItems_summary (commands : list string) :
  forall i, effectSummary (planItems i commands) = [].
Proof. induction commands; intros i; simpl; auto. Qed.

Lemma ranOf_summary (t : list Event) : ranOf (effectSummary t) = spawnsOf t.
Proof.
  unfold ranOf, effectSummary, spawnsOf.
  induction t as [|e t IH]; [reflexivity|].
  destruct e as [| | |[|r l] b]; simpl; now rewrite ?IH.
Qed.

(** Everything one call of [executeCommand] does. *)
Lemma executeCommand_effects
  (env : Env) (cmd userPrompt : string) (multi : bool) (w : World) :
  let ok := stepSucceeds (envChild env (spawned w) cmd) in
  exists more w',
    executeCommand env cmd userPrompt multi w = (Ret ok, w')
    /\ trace w' = (trace w ++ more)%list
    /\ effectSummary more = [Ran cmd; Recorded cmd ok]
    /\ spawned w' = S (spawned w)
    /\ saved w' = S (saved w)
    /\ file w'
       = if envWritable env (saved w)
         then Stored (mkHistory cmd userPrompt ok (envClock env (saved w))
                        :: firstn 49 (priorRecords (file w)))
         else file w.
Proof.
  destruct w as [f t sp sv]; simpl.
  destruct (envChild env sp cmd) as [msg|[code|]] eqn:Hchild; simpl;
    try destruct (Z.eqb code 0) eqn:Hcode; simpl;
    destruct multi, f as [| |records], (envWritable env sv) eqn:Hw;
    unfold_run; rewrite ?Hchild; unfold_run; rewrite ?Hcode; unfold_run;
    rewrite ?Hw; unfold_run; rewrite pushBounded_cons;
    eexists; eexists; (split; [reflexivity|]); cbn [trace file spawned saved];
    rewrite <- ?app_assoc; (split; [reflexivity|]); cbn; auto.
Qed.

(** Everything the loop over the steps does, for any plan and any
    children. *)
Lemma runSteps_effects (env : Env) (total : nat) (userPrompt : string)
      (commands : list string) :
  forall i w,
  exists more w',
    runSteps env total userPrompt i commands w
    = (if allSucceed env (spawned w) commands then Ret tt else Exit 1%Z, w')
    /\ trace w' = (trace w ++ more)%list
    /\ effectSummary more = stepsSummary env (spawned w) commands.
Proof.
  induction commands as [|cmd rest IH]; intros i [f t sp sv].
  - exists [], (mkWorld f t sp sv). cbn. now rewrite app_nil_r.
  - cbn [runSteps allSucceed stepsSummary spawned]. unfold_gate.
    match goal with
    | |- context [executeCommand ?e ?c ?p ?m ?w0] =>
        destruct (executeCommand_effects e c p m w0)
          as (m1 & [f1 t1 sp1 sv1] & Hrun1 & Htr1 & Hsum1 & Hsp1 & _)
    end.
    cbn [spawned saved trace file] in *. subst t1 sp1.
    rewrite Hrun1.
    destruct (stepSucceeds (envChild env sp cmd)) eqn:Hok; unfold_gate.
    + destruct (IH (S i) (mkWorld f1 ((t ++ [Log LInfo (MsgStepHeader (i + 1) total cmd)])
                                        ++ m1) (S sp) sv1))
        as (m2 & w2 & Hrun2 & Htr2 & Hsum2).
      cbn [spawned trace andb] in *.
      rewrite Hrun2. exists ([Log LInfo (MsgStepHeader (i + 1) total cmd)] ++ m1 ++ m2)%list, w2.
      split; [reflexivity|]. split.
      * rewrite Htr2. now rewrite <- !app_assoc.
      * rewrite !effectSummary_app, Hsum1, Hsum2. reflexivity.
    + eexists; eexists. split; [reflexivity|]. cbn [trace andb].
      rewrite <- !app_assoc. split; [reflexivity|].
      rewrite !effectSummary_app, Hsum1. reflexivity.
Qed.

(** [executeMultipleCommands] on any plan, with any user and any
    children: how it ends, and what it spawned and recorded. *)
Lemma multi_step_run_characterised
  (env : Env) (plan : list string) (userPrompt : string) (w : World) :
  let vetoed := existsb SafetyChecker.isBlacklisted plan in
  let confirmed :=
    envAnswer env (negb (existsb SafetyChecker.isDestructive plan)) AskRunAll in
  exists more w',
    executeMultipleCommands env plan userPrompt w
    = (if vetoed then Exit 1%Z
       else if negb confirmed then Exit 0%Z
       else if allSucceed env (spawned w) plan then Ret tt
       else Exit 1%Z,
       w')
    /\ trace w' = (trace w ++ more)%list
    /\ effectSummary more
       = (if vetoed || negb confirmed then []
          else stepsSummary env (spawned w) plan)
    /\ (vetoed || negb confirmed = true ->
        file w' = file w /\ spawned w' = spawned w /\ saved w' = saved w).
Proof.
  intros vetoed confirmed. subst vetoed confirmed.
  destruct w as [f t sp sv].
  unfold executeMultipleCommands.
  unfold bind at 1. unfold log at 1, emit at 1.
  unfold bind at 1. rewrite listPlan_run.
  destruct (existsb SafetyChecker.isBlacklisted plan) eqn:Hveto; unfold_gate.
  { eexists; eexists. split; [reflexivity|]. cbn [trace orb file spawned saved].
    rewrite <- !app_assoc. split; [reflexivity|].
    rewrite !effectSummary_app, planItems_summary. auto. }
  destruct (existsb SafetyChecker.isDestructive plan) eqn:Hd; unfold_gate;
    cbn [negb orb];
    match goal with
    | |- context [envAnswer env ?b AskRunAll] =>
        destruct (envAnswer env b AskRunAll) eqn:Hans
    end; unfold_gate; cbn [negb].
  all: try (eexists; eexists; split; [reflexivity|];
            cbn [trace file spawned saved];
            rewrite <- !app_assoc; split; [reflexivity|];
            rewrite !effectSummary_app, planItems_summary; now auto).
  all: match goal with
       | |- context [runSteps ?e ?n ?p ?i ?l ?w0] =>
           destruct (runSteps_effects e n p l i w0) as (m2 & w2 & Hrun & Htr & Hsum)
       end; cbn [spawned trace] in *; rewrite Hrun.
  all: destruct (allSucceed env sp plan); unfold_gate.
  all: eexists; eexists; (split; [reflexivity|]); cbn [trace]; rewrite ?Htr;
       rewrite <- ?app_assoc; (split; [reflexivity|]);
       rewrite ?effectSummary_app, ?planItems_summary, ?Hsum;
       cbn [effectSummary flat_map app]; rewrite ?app_nil_r;
       (split; [reflexivity | discriminate]).
Qed.

(** The same for [executeSingleCommand]. *)
Lemma single_command_run_characterised
  (env : Env) (command userPrompt : string) (w : World) :
  let vetoed := SafetyChecker.isBlacklisted command in
  let destructive := SafetyChecker.isDestructive command in
  let confirmed :=
    envAnswer env (negb destructive)
              (if destructive then AskRunDestructive else AskRun) in
  exists more w',
    executeSingleCommand env command userPrompt w
    = (if vetoed then Exit 1%Z else if negb confirmed then Exit 0%Z else Ret tt, w')
    /\ trace w' = (trace w ++ more)%list
    /\ effectSummary more
       = (if vetoed || negb confirmed then []
          else [Ran command;
                Recorded command (stepSucceeds (envChild env (spawned w) command))])
    /\ (vetoed || negb confirmed = true ->
        file w' = file w /\ spawned w' = spawned w /\ saved w' = saved w).
Proof.
  intros vetoed destructive confirmed. subst vetoed destructive confirmed.
  destruct w as [f t sp sv].
  unfold executeSingleCommand.
  destruct (SafetyChecker.isBlacklisted command) eqn:Hveto; unfold_gate.
  { eexists; eexists. split; [reflexivity|]. cbn [trace orb file spawned saved].
    rewrite <- !app_assoc. auto. }
  destruct (SafetyChecker.isDestructive command) eqn:Hd; unfold_gate;
    cbn [negb orb];
    match goal with
    | |- context [envAnswer env ?b ?q] =>
        destruct (envAnswer env b q) eqn:Hans
    end; unfold_gate; cbn [negb].
  all: try (eexists; eexists; split; [reflexivity|];
            cbn [trace file spawned saved];
            rewrite <- !app_assoc; split; [reflexivity|]; now auto).
  all: match goal with
       | |- context [executeCommand ?e ?c ?p ?m ?w0] =>
           destruct (executeCommand_effects e c p m w0)
             as (m1 & w1 & Hrun & Htr & Hsum & _)
       end; cbn [spawned trace] in *; rewrite Hrun.
  all: eexists; eexists; (split; [reflexivity|]); rewrite Htr;
       rewrite <- ?app_assoc; (split; [reflexivity|]);
       rewrite ?effectSummary_app, Hsum; cbn [effectSummary flat_map app];
       (split; [reflexivity | discriminate]).
Qed.

Lemma stepsSummary_all (env : Env) (commands : list string) :
  forall sp,
    allSucceed env sp commands = true ->
    stepsSummary env sp commands
    = flat_map (fun cmd => [Ran cmd; Recorded cmd true]) commands.
Proof.
  induction commands as [|cmd rest IH]; intros sp Hall; [reflexivity|].
  cbn [allSucceed] in Hall. apply andb_prop in Hall as [Hok Hrest].
  cbn [stepsSummary flat_map app]. rewrite Hok. now rewrite (IH _ Hrest).
Qed.


Lemma stepsSummary_prefix (env : Env) (commands : list string) :
  forall sp, exists k, ranOf (stepsSummary env sp commands) = firstn k commands.
Proof.
  induction commands as [|cmd rest IH]; intros sp.
  - now exists 0%nat.
  - cbn [stepsSummary]. destruct (stepSucceeds (envChild env sp cmd)).
    + destruct (IH (S sp)) as (k & Hk). exists (S k).
      cbn [ranOf flat_map app firstn]. f_equal. exact Hk.
    + now exists 1%nat.
Qed.

Lemma firstn_app_firstn {A} (n : nat) (a b : list A) :
  firstn n (a ++ firstn n b) = firstn n (a ++ b).
Proof.
  rewrite !firstn_app, firstn_firstn. do 2 f_equal. lia.
Qed.

(** The history file after a plan whose steps all succeed and whose
    writes all succeed. *)
Lemma runSteps_all_stored (env : Env) (total : nat) (userPrompt : string)
      (rest : list string) :
  forall cmd i w,
    allSucceed env (spawned w) (cmd :: rest) = true ->
    (forall j, (j < length (cmd :: rest))%nat -> envWritable env (saved w + j) = true) ->
    exists w',
      runSteps env total userPrompt i (cmd :: rest) w = (Ret tt, w')
      /\ file w'
         = Stored (firstn 50 (successRecords env userPrompt (saved w) (cmd :: rest)
                                ++ priorRecords (file w))).
Proof.
  induction rest as [|c2 rest IH]; intros cmd i [f t sp sv] Hall Hwr;
    cbn [spawned saved file] in *.
  - cbn [allSucceed] in Hall. apply andb_prop in Hall as [Hok _].
    cbn [runSteps]. unfold_gate.
    match goal with
    | |- context [executeCommand ?e ?c ?p ?m ?w0] =>
        destruct (executeCommand_effects e c p m w0)
          as (m1 & w1 & Hrun1 & _ & _ & _ & _ & Hfile)
    end.
    cbn [spawned saved trace file] in *.
    rewrite Hok in Hrun1, Hfile. rewrite Hrun1. unfold_gate.
    exists w1. split; [reflexivity|].
    rewrite Hfile, <- (Nat.add_0_r sv), (Hwr 0%nat) by (cbn; lia).
    rewrite Nat.add_0_r. reflexivity.
  - assert (Hall' := Hall).
    cbn [allSucceed] in Hall. apply andb_prop in Hall as [Hok Hrest].
    cbn [runSteps]. unfold_gate.
    match goal with
    | |- context [executeCommand ?e ?c ?p ?m ?w0] =>
        destruct (executeCommand_effects e c p m w0)
          as (m1 & [f1 t1 sp1 sv1] & Hrun1 & _ & _ & Hsp1 & Hsv1 & Hfile)
    end.
    cbn [spawned saved trace file] in *. subst sp1 sv1.
    rewrite Hok in Hrun1, Hfile. rewrite Hrun1. unfold_gate.
    assert (Hw0 : envWritable env sv = true)
      by (rewrite <- (Nat.add_0_r sv); apply Hwr; cbn; lia).
    rewrite Hw0 in Hfile. subst f1.
    destruct (IH c2 (S i) (mkWorld
                (Stored (mkHistory cmd userPrompt true (envClock env sv)
                           :: firstn 49 (priorRecords f)))
                t1 (S sp) (S sv)))
      as (w' & Hrun & Hstored).
    + exact Hrest.
    + intros j Hj. cbn [saved]. rewrite Nat.add_succ_l, <- Nat.add_succ_r.
      apply Hwr. cbn [length] in *. lia.
    + exists w'. split; [exact Hrun|].
      rewrite Hstored. cbn [saved file priorRecords]. f_equal.
      change (successRecords env userPrompt sv (cmd :: c2 :: rest))
        with (successRecords env userPrompt (S sv) (c2 :: rest)
                ++ [mkHistory cmd userPrompt true (envClock env sv)])%list.
      rewrite <- app_assoc. cbn [app].
      change (mkHistory cmd userPrompt true (envClock env sv)
                :: firstn 49 (priorRecords f))
        with (firstn 50 (mkHistory cmd userPrompt true (envClock env sv)
                :: priorRecords f)).
      apply firstn_app_firstn.
Qed.



(** X7.  A plan that passes the veto, is confirmed, and whose steps all
    succeed: the run returns normally having spawned every step in order
    and recorded each as a success right after it ran.  When in addition
    every history write succeeds and the plan is not empty, the history
    file then holds the records of the steps, last step first, followed
    by what was readable before, cut to 50 entries. *)
Theorem plan_runs_to_completion
  (env : Env) (plan : list string) (userPrompt : string) (w : World) :
  existsb SafetyChecker.isBlacklisted plan = false ->
  envAnswer env (negb (existsb SafetyChecker.isDestructive plan)) AskRunAll = true ->
  allSucceed env (spawned w) plan = true ->
  exists more w',
    executeMultipleCommands env plan userPrompt w = (Ret tt, w')
    /\ trace w' = (trace w ++ more)%list
    /\ effectSummary more = flat_map (fun cmd => [Ran cmd; Recorded cmd true]) plan
    /\ spawnsOf more = plan
    /\ (plan <> [] ->
        (forall j, (j < length plan)%nat -> envWritable env (saved w + j) = true) ->
        file w'
        = Stored (firstn 50 (successRecords env userPrompt (saved w) plan
                               ++ priorRecords (file w)))).
Proof.
  intros Hveto Hyes Hall.
  destruct (multi_step_run_characterised env plan userPrompt w)
    as (more & w' & Hrun & Htr & Hsum & _).
  rewrite Hveto, Hyes, Hall in Hrun. rewrite Hveto, Hyes in Hsum.
  cbn [negb orb] in *. rewrite (stepsSummary_all env plan _ Hall) in Hsum.
  exists more, w'. split; [exact Hrun|]. split; [exact Htr|]. split; [exact Hsum|].
  split.
  - rewrite <- ranOf_summary, Hsum. unfold ranOf.
    clear. induction plan as [|c l IH]; [reflexivity|].
    cbn [flat_map app]. now rewrite IH.
  - intros Hne Hwr. destruct plan as [|cmd rest]; [congruence|].
    revert Hrun. destruct w as [f t sp sv].
    unfold executeMultipleCommands. rewrite Hveto.
    unfold bind at 1. unfold log at 1, emit at 1.
    unfold bind at 1. rewrite listPlan_run. unfold_gate.
    destruct (existsb SafetyChecker.isDestructive (cmd :: rest));
      unfold_gate; cbn [negb] in Hyes; rewrite Hyes; unfold_gate.
    all: match goal with
         | |- context [runSteps ?e ?n ?p ?i (?c :: ?l) ?w0] =>
             destruct (runSteps_all_stored e n p l c i w0 Hall Hwr)
               as (w2 & Hrun2 & Hstored)
         end; rewrite Hrun2; unfold_gate.
    all: intros [= <-]; exact Hstored.
Qed.

Lemma plan_runs_to_completion_witness :
  let plan := ["mkdir app"; "npm init -y"] in
  existsb SafetyChecker.isBlacklisted plan = false
  /\ envAnswer agreeableEnv
               (negb (existsb SafetyChecker.isDestructive plan)) AskRunAll = true
  /\ allSucceed agreeableEnv (spawned (start Absent)) plan = true
  /\ exists w',
       executeMultipleCommands agreeableEnv plan "new app" (start Absent) = (Ret tt, w')
       /\ file w'
          = Stored [mkHistory "npm init -y" "new app" true "2025-01-01T00:00:00.000Z";
                    mkHistory "mkdir app" "new app" true "2025-01-01T00:00:00.000Z"].
Proof.
  intros plan.
  assert (Hveto : existsb SafetyChecker.isBlacklisted plan = false) by reflexivity.
  split; [exact Hveto|]. do 2 (split; [reflexivity|]).
  destruct (plan_runs_to_completion agreeableEnv plan "new app" (start Absent)
              Hveto eq_refl eq_refl)
    as (more & w' & Hrun & _ & _ & _ & Hfile).
  exists w'. split; [exact Hrun|].
  rewrite Hfile; [reflexivity | discriminate | reflexivity].
Defined.

Lemma in_firstn_in {A} (x : A) (l : list A) :
  forall k, In x (firstn k l) -> In x l.
Proof.
  induction l as [|y l IH]; intros [|k]; cbn; try tauto.
  intros [H|H]; [now left | right; eauto].
Qed.

(** X8.  Whatever the plan, the user and the children do, the commands
    [executeMultipleCommands] spawns are a prefix of the plan, none of
    them is blacklisted, and there is a spawn only if no step of the plan
    is blacklisted and the user confirmed.  Likewise
    [executeSingleCommand] spawns nothing or just its command, and the
    latter only if the command is not blacklisted and the user
    confirmed. *)
Theorem spawns_are_vetted_and_confirmed
  (env : Env) (plan : list string) (command userPrompt : string) (w : World) :
  (exists r more w',
      executeMultipleCommands env plan userPrompt w = (r, w')
      /\ trace w' = (trace w ++ more)%list
      /\ (exists k, spawnsOf more = firstn k plan)
      /\ (forall cmd, In cmd (spawnsOf more) ->
                      SafetyChecker.isBlacklisted cmd = false)
      /\ (spawnsOf more <> [] ->
          existsb SafetyChecker.isBlacklisted plan = false
          /\ envAnswer env (negb (existsb SafetyChecker.isDestructive plan))
                       AskRunAll = true))
  /\ (exists r more w',
         executeSingleCommand env command userPrompt w = (r, w')
         /\ trace w' = (trace w ++ more)%list
         /\ (spawnsOf more = [] \/ spawnsOf more = [command])
         /\ (spawnsOf more <> [] ->
             SafetyChecker.isBlacklisted command = false
             /\ envAnswer env (negb (SafetyChecker.isDestructive command))
                          (if SafetyChecker.isDestructive command
                           then AskRunDestructive else AskRun) = true)).
Proof.
  split.
  - destruct (multi_step_run_characterised env plan userPrompt w)
      as (more & w' & Hrun & Htr & Hsum & _).
    eexists; exists more, w'. split; [exact Hrun|]. split; [exact Htr|].
    assert (Hsp : spawnsOf more = ranOf (effectSummary more))
      by (symmetry; apply ranOf_summary).
    rewrite Hsum in Hsp.
    destruct (existsb SafetyChecker.isBlacklisted plan) eqn:Hveto;
      [|destruct (envAnswer env _ AskRunAll) eqn:Hans]; cbn [orb negb] in Hsp.
    + rewrite Hsp. split; [now exists 0%nat|]. split; [intros c []|]. now intros [].
    + destruct (stepsSummary_prefix env plan (spawned w)) as (k & Hk).
      rewrite Hk in Hsp. rewrite Hsp.
      split; [now exists k|]. split; [|auto].
      intros cmd Hin. apply in_firstn_in in Hin.
      destruct (SafetyChecker.isBlacklisted cmd) eqn:Hb; [|reflexivity].
      assert (Hex : existsb SafetyChecker.isBlacklisted plan = true)
        by (apply existsb_exists; now exists cmd).
      congruence.
    + rewrite Hsp. split; [now exists 0%nat|]. split; [intros c []|]. now intros [].
  - destruct (single_command_run_characterised env command userPrompt w)
      as (more & w' & Hrun & Htr & Hsum & _).
    eexists; exists more, w'. split; [exact Hrun|]. split; [exact Htr|].
    assert (Hsp : spawnsOf more = ranOf (effectSummary more))
      by (symmetry; apply ranOf_summary).
    rewrite Hsum in Hsp.
    destruct (SafetyChecker.isBlacklisted command) eqn:Hveto;
      [|destruct (envAnswer env _ _) eqn:Hans]; cbn [orb negb] in Hsp;
      rewrite Hsp; cbn [ranOf flat_map app]; split; auto; now intros [].
Qed.



(** X10.  When the user declines, a plan or a single command that passed
    the veto is not run at all: the run leaves through [exit(0)] with no
    child spawned, no history write attempted, and the history file and
    the counters as they were. *)
Theorem declined_run_has_no_effects
  (env : Env) (plan : list string) (command userPrompt : string) (w : World) :
  (existsb SafetyChecker.isBlacklisted plan = false ->
   envAnswer env (negb (existsb SafetyChecker.isDestructive plan)) AskRunAll = false ->
   exists more w',
     executeMultipleCommands env plan userPrompt w = (Exit 0%Z, w')
     /\ trace w' = (trace w ++ more)%list
     /\ effectSummary more = []
     /\ file w' = file w /\ spawned w' = spawned w /\ saved w' = saved w)
  /\ (SafetyChecker.isBlacklisted command = false ->
      envAnswer env (negb (SafetyChecker.isDestructive command))
                (if SafetyChecker.isDestructive command
                 then AskRunDestructive else AskRun) = false ->
      exists more w',
        executeSingleCommand env command userPrompt w = (Exit 0%Z, w')
        /\ trace w' = (trace w ++ more)%list
        /\ effectSummary more = []
        /\ file w' = file w /\ spawned w' = spawned w /\ saved w' = saved w).
Proof.
  split; intros Hveto Hno.
  - destruct (multi_step_run_characterised env plan userPrompt w)
      as (more & w' & Hrun & Htr & Hsum & Hsame).
    rewrite Hveto, Hno in Hrun, Hsum, Hsame. cbn [negb orb] in *.
    exists more, w'. auto.
  - destruct (single_command_run_characterised env command userPrompt w)
      as (more & w' & Hrun & Htr & Hsum & Hsame).
    rewrite Hveto, Hno in Hrun, Hsum, Hsame. cbn [negb orb] in *.
    exists more, w'. auto.
Qed.

Lemma declined_run_has_no_effects_witness :
  existsb SafetyChecker.isBlacklisted ["git status"; "git pull"] = false
  /\ envAnswer decliningEnv
               (negb (existsb SafetyChecker.isDestructive ["git status"; "git pull"]))
               AskRunAll = false
  /\ SafetyChecker.isBlacklisted "git status" = false
  /\ envAnswer decliningEnv (negb (SafetyChecker.isDestructive "git status"))
               (if SafetyChecker.isDestructive "git status"
                then AskRunDestructive else AskRun) = false
  /\ fst (executeMultipleCommands decliningEnv ["git status"; "git pull"] "update"
            (start Absent)) = Exit 0%Z
  /\ fst (executeSingleCommand decliningEnv "git status" "update" (start Absent))
     = Exit 0%Z.
Proof.
  do 4 (split; [reflexivity|]).
  destruct (declined_run_has_no_effects decliningEnv ["git status"; "git pull"]
              "git status" "update" (start Absent)) as [Hmulti Hsingle].
  destruct (Hmulti eq_refl eq_refl) as (m1 & w1 & Hrun1 & _).
  destruct (Hsingle eq_refl eq_refl) as (m2 & w2 & Hrun2 & _).
  rewrite Hrun1, Hrun2. split; reflexivity.
Defined.

(* ================================================================== *)
(** ** Context detection *)
(* ================================================================== *)

Lemma append_assoc_str (a b c : string) : ((a ++ b) ++ c)%string = (a ++ b ++ c)%string.
Proof. induction a as [|x a IH]; simpl; [reflexivity | now rewrite IH]. Qed.

Lemma includes_weaken (s a b : string) :
  Js.includes s (a ++ b) = true -> Js.includes s a = true.
Proof.
  intros H. apply includes_inv in H as (pre & post & ->).
  rewrite append_assoc_str. apply includes_app.
Qed.

(** X11.  [detectShell] names a Windows shell ([powershell] or [cmd])
    exactly when the platform is [win32], and one of [bash], [zsh],
    [fish] otherwise; and its answer never depends on [process.ppid]:
    the check that reads it can only agree with the one before it. *)
Theorem detectShell_by_platform (p : ContextDetector.Probe) :
  (ContextDetector.platform p = "win32" ->
   ContextDetector.detectShell p = "powershell"
   \/ ContextDetector.detectShell p = "cmd")
  /\ (ContextDetector.platform p <> "win32" ->
      ContextDetector.detectShell p = "bash"
      \/ ContextDetector.detectShell p = "zsh"
      \/ ContextDetector.detectShell p = "fish")
  /\ (forall parent,
        ContextDetector.detectShell
          (ContextDetector.mkProbe
             (ContextDetector.platform p) (ContextDetector.envSHELL p)
             (ContextDetector.envCOMSPEC p) (ContextDetector.envPSModulePath p)
             parent
             (ContextDetector.packageJson p) (ContextDetector.hasPnpmLock p)
             (ContextDetector.hasYarnLock p) (ContextDetector.hasBunLock p))
        = ContextDetector.detectShell p).
Proof.
  unfold ContextDetector.detectShell.
  cbn [ContextDetector.platform ContextDetector.envSHELL ContextDetector.envCOMSPEC
       ContextDetector.envPSModulePath ContextDetector.ppid].
  destruct (String.eqb_spec (ContextDetector.platform p) "win32") as [Hwin|Hnot].
  - split; [|split].
    + intros _.
      destruct (_ || _ || _); [now left|].
      destruct (Js.includes _ "cmd"); [now right|].
      destruct (_ && _ && _); [now right | now left].
    + intros H. now destruct H.
    + intros parent.
      destruct (_ || _ || _); [reflexivity|].
      destruct (Js.includes
                  (Js.toLowerCase
                     (ContextDetector.orElse (ContextDetector.envCOMSPEC p) "")) "cmd")
        eqn:Hcmd; [reflexivity|].
      assert (Hexe : Js.includes
                       (Js.toLowerCase
                          (ContextDetector.orElse (ContextDetector.envCOMSPEC p) ""))
                       "cmd.exe" = false).
      { destruct (Js.includes _ "cmd.exe") eqn:Hexe; [|reflexivity].
        apply (includes_weaken _ "cmd" ".exe") in Hexe. congruence. }
      rewrite Hexe, !andb_false_r. reflexivity.
  - split; [|split].
    + intros H. now destruct Hnot.
    + intros _.
      destruct (Js.includes _ "bash"); [now left|].
      destruct (Js.includes _ "zsh"); [now right; left|].
      destruct (Js.includes _ "fish"); [now right; right | now left].
    + reflexivity.
Qed.

(** X12.  With the detected shell and platform, [executeCommand] spawns
    through [powershell.exe] exactly when [detectShell] answers
    [powershell]; on every platform other than [win32], and on [win32]
    when the answer is [cmd], the child gets the default shell. *)
Theorem powershell_only_when_detected
  (p : ContextDetector.Probe)
  (answer : bool -> Question -> bool) (child : nat -> string -> ChildOutcome)
  (clock : nat -> string) (writable : nat -> bool) :
  let env := detectedEnv p answer child clock writable in
  (ContextDetector.detectShell p = "powershell" ->
   shellExecutable env = ShellNamed "powershell.exe")
  /\ (ContextDetector.detectShell p <> "powershell" ->
      shellExecutable env = ShellDefault)
  /\ (ContextDetector.platform p <> "win32" -> shellExecutable env = ShellDefault).
Proof.
  intros env.
  assert (Hshell : envShell env = ContextDetector.detectShell p)
    by (unfold env, detectedEnv, ContextDetector.detect;
        destruct (ContextDetector.packageJson p); reflexivity).
  assert (Hos : envOs env = ContextDetector.platform p)
    by (unfold env, detectedEnv, ContextDetector.detect;
        destruct (ContextDetector.packageJson p); reflexivity).
  destruct (detectShell_by_platform p) as (Hwin & Hunix & _).
  unfold shellExecutable. rewrite Hshell, Hos.
  split; [|split].
  - intros Hps. rewrite Hps.
    destruct (String.eqb_spec (ContextDetector.platform p) "win32") as [_|Hnot];
      [reflexivity|].
    destruct (Hunix Hnot) as [H|[H|H]]; rewrite H in Hps; discriminate.
  - intros Hnps.
    destruct (String.eqb_spec (ContextDetector.detectShell p) "powershell");
      [contradiction | reflexivity].
  - intros Hnot.
    destruct (String.eqb_spec (ContextDetector.platform p) "win32");
      [contradiction|]. now rewrite andb_false_r.
Qed.

Lemma powershell_only_when_detected_witness :
  ContextDetector.detectShell windowsProbe = "powershell"
  /\ ContextDetector.detectShell linuxProbe <> "powershell"
  /\ ContextDetector.platform linuxProbe <> "win32"
  /\ shellExecutable (detectedEnv windowsProbe (fun _ _ => true)
                        (fun _ _ => ChildClose None) (fun _ => "") (fun _ => true))
     = ShellNamed "powershell.exe"
  /\ shellExecutable (detectedEnv linuxProbe (fun _ _ => true)
                        (fun _ _ => ChildClose None) (fun _ => "") (fun _ => true))
     = ShellDefault.
Proof.
  split; [reflexivity|]. split; [discriminate|]. split; [discriminate|].
  split.
  - apply (powershell_only_when_detected windowsProbe). reflexivity.
  - apply (powershell_only_when_detected linuxProbe). discriminate.
Defined.



(* ================================================================== *)
(** ** Facts about the matcher *)
(* ================================================================== *)

Import Regex.

Lemma dropPrefix_app (l s : string) : dropPrefix l (l ++ s) = Some s.
Proof.
  induction l as [|c l IH]; [reflexivity|].
  simpl. now rewrite Ascii.eqb_refl.
Qed.

Lemma dropPrefix_inv (l s s' : string) :
  dropPrefix l s = Some s' -> s = (l ++ s')%string.
Proof.
  revert s; induction l as [|c l IH]; intros s H.
  - now injection H as ->.
  - destruct s as [|d s]; [discriminate|]. simpl in H.
    destruct (Ascii.eqb_spec c d) as [->|_]; [|discriminate].
    simpl. f_equal. now apply IH.
Qed.

Lemma substring_prefix (a b : string) :
  String.substring 0 (String.length a) (a ++ b) = a.
Proof. induction a as [|c a IH]; simpl; [now destruct b | now rewrite IH]. Qed.

Lemma length_append (a b : string) :
  String.length (a ++ b) = (String.length a + String.length b)%nat.
Proof. induction a as [|c a IH]; simpl; [reflexivity | now rewrite IH]. Qed.

Section MatcherFacts.

Context {R : Type}.
Variable cls : ascii -> bool.
Variable k : Cont R.

(** A greedy run that reaches a point where the rest of the pattern
    matches keeps that match. *)
Lemma starGreedy_skip (a : string) :
  forall pos s caps r,
    allOf cls a = true ->
    starGreedy cls k (pos + String.length a) s caps = Some r ->
    starGreedy cls k pos (a ++ s) caps = Some r.
Proof.
  induction a as [|c a IH]; intros pos s caps r Hall Hdeep.
  - simpl in *. now rewrite Nat.add_0_r in Hdeep.
  - simpl in Hall. apply andb_prop in Hall as [Hc Ha].
    simpl. rewrite Hc.
    rewrite (IH (S pos) s caps r Ha); [reflexivity|].
    simpl in Hdeep. now rewrite Nat.add_succ_r in Hdeep.
Qed.

(** A greedy run over text on which the rest of the pattern matches
    nowhere fails. *)
Lemma starGreedy_none (a : string) :
  forall pos t caps,
    allOf cls a = true ->
    stopsAt cls t = true ->
    (forall p u, allOf cls u = true -> k p (u ++ t) caps = None) ->
    starGreedy cls k pos (a ++ t) caps = None.
Proof.
  induction a as [|c a IH]; intros pos t caps Hall Hstop Hk.
  - simpl. specialize (Hk pos "" eq_refl). simpl in Hk.
    destruct t as [|c t]; [exact Hk|].
    simpl in Hstop. simpl. apply negb_true_iff in Hstop. now rewrite Hstop.
  - simpl in Hall. apply andb_prop in Hall as [Hc Ha].
    simpl. rewrite Hc, (IH (S pos) t caps Ha Hstop Hk).
    apply (Hk pos (String c a)). simpl. now rewrite Hc, Ha.
Qed.

(** A lazy run stops at the first point where the rest of the pattern
    matches. *)
Lemma starLazy_first (a : string) :
  forall pos s caps,
    allOf cls a = true ->
    (forall p u1 u2, a = (u1 ++ u2)%string -> u2 <> "" ->
                     k p (u2 ++ s) caps = None) ->
    starLazy cls k pos (a ++ s) caps
    = starLazy cls k (pos + String.length a) s caps.
Proof.
  induction a as [|c a IH]; intros pos s caps Hall Hk.
  - simpl. now rewrite Nat.add_0_r.
  - simpl in Hall. apply andb_prop in Hall as [Hc Ha].
    cbn [append starLazy].
    pose proof (Hk pos "" (String c a) eq_refl ltac:(discriminate)) as Hhere.
    cbn [append] in Hhere. rewrite Hhere, Hc. rewrite IH; [| exact Ha |].
    + cbn [String.length]. now rewrite Nat.add_succ_r.
    + intros p u1 u2 -> Hne. apply (Hk p (String c u1) u2); auto.
Qed.

Lemma starLazy_here (pos : nat) (s : string) (caps : Captures) (r : R) :
  k pos s caps = Some r -> starLazy cls k pos s caps = Some r.
Proof. intros H. destruct s; cbn [starLazy]; now rewrite H. Qed.

End MatcherFacts.

Lemma run_seq {R} (r1 r2 : re) (k : Cont R) :
  run (Seq r1 r2) k = run r1 (run r2 k).
Proof. reflexivity. Qed.

Lemma run_lit {R} (text s : string) (k : Cont R) (pos : nat) (caps : Captures) :
  run (Lit text) k pos (text ++ s) caps = k (pos + String.length text)%nat s caps.
Proof. cbn [run]. now rewrite dropPrefix_app. Qed.

Lemma run_opt {R} (r : re) (k : Cont R) (pos : nat) (s : string) (caps : Captures) :
  run (Opt r) k pos s caps
  = match run r k pos s caps with
    | Some x => Some x
    | None => k pos s caps
    end.
Proof. reflexivity. Qed.

Lemma execFrom_unfold (r : re) (pos : nat) (s : string) :
  execFrom r pos s
  = match run r (fun pos' _ caps =>
                   Some (mkMatch (String.substring 0 (pos' - pos) s) caps))
              pos s [] with
    | Some m => Some m
    | None =>
        match s with
        | String _ s' => execFrom r (S pos) s'
        | EmptyString => None
        end
    end.
Proof. destruct s; reflexivity. Qed.

(** A pattern anchored with [^] matches at offset 0 or not at all. *)
Lemma execFrom_anchored (r : re) (s : string) :
  forall pos, execFrom (Seq Bol r) (S pos) s = None.
Proof.
  induction s as [|c s IH]; intros pos; cbn [execFrom run Nat.eqb]; auto.
Qed.

Lemma exec_anchored (r : re) (s : string) :
  exec (Seq Bol r) s
  = run r (fun pos' _ caps => Some (mkMatch (String.substring 0 (pos' - 0) s) caps))
        0 s [].
Proof.
  unfold exec. destruct s as [|c s]; cbn [execFrom run Nat.eqb].
  - now destruct (run r _ 0 "" []).
  - rewrite execFrom_anchored. now destruct (run r _ 0 (String c s) []).
Qed.

(* ================================================================== *)
(** ** Extracting the fixed code from a reply *)
(* ================================================================== *)

Import FixParse.

Lemma includes_cons (c : ascii) (s p : string) :
  Js.includes (String c s) p = Js.startsWith (String c s) p || Js.includes s p.
Proof. reflexivity. Qed.

Lemma fenceFree_cons (c : ascii) (s : string) :
  fenceFree (String c s) = true ->
  Js.startsWith (String c s ++ "``") fence = false /\ fenceFree s = true.
Proof.
  unfold fenceFree. cbn [append]. rewrite includes_cons, negb_orb.
  intros H. apply andb_prop in H as [H1 H2].
  split; [now apply negb_true_iff in H1 | exact H2].
Qed.

(** Where no fence starts, the literal fence does not match, even next
    to a fence that follows. *)
Lemma fence_not_here (u s : string) :
  u <> "" ->
  Js.startsWith (u ++ "``") fence = false ->
  dropPrefix fence (u ++ fence ++ s) = None.
Proof.
  intros Hne H.
  unfold fence in *.
  destruct u as [|c1 [|c2 [|c3 u]]]; [congruence| | |];
    cbn -[Ascii.eqb] in H |- *; rewrite ?Ascii.eqb_refl in *;
    repeat match goal with
           | |- context [if Ascii.eqb "`" ?c then _ else _] =>
               destruct (Ascii.eqb "`" c)
           end; cbn -[Ascii.eqb] in H |- *; congruence.
Qed.

Lemma codeBlock_needs_fence (kf : Cont Match) (pos : nat) (s : string) (caps : Captures) :
  dropPrefix fence s = None -> run codeBlockRegex kf pos s caps = None.
Proof. intros H. unfold codeBlockRegex. cbn [run]. now rewrite H. Qed.

(** The search passes over text in which no fence starts. *)
Lemma execFrom_skips_fenceFree (pre s : string) :
  forall pos,
    fenceFree pre = true ->
    execFrom codeBlockRegex pos (pre ++ fence ++ s)
    = execFrom codeBlockRegex (pos + String.length pre) (fence ++ s).
Proof.
  induction pre as [|c pre IH]; intros pos Hfree.
  - cbn [append String.length]. now rewrite Nat.add_0_r.
  - destruct (fenceFree_cons c pre Hfree) as [Hhere Hrest].
    cbn [append execFrom].
    rewrite codeBlock_needs_fence
      by (apply (fence_not_here (String c pre) s); [discriminate | exact Hhere]).
    rewrite (IH (S pos) Hrest). cbn [String.length]. now rewrite Nat.add_succ_r.
Qed.

Lemma word_not_newline (c : ascii) :
  isWord c = true -> Ascii.eqb Parser.newline c = false.
Proof.
  intros H. destruct (Ascii.eqb_spec Parser.newline c) as [<-|]; [|reflexivity].
  discriminate H.
Qed.

(** At a fence followed by a tag of word characters, a line break, and a
    body in which no fence starts, the pattern matches with the body as
    its group 1. *)
Lemma codeBlock_matches_here (kf : Cont Match) (lang code rest : string) (pos : nat) :
  (forall p s caps, exists m, kf p s caps = Some m /\ groups m = caps) ->
  allOf isWord lang = true ->
  fenceFree code = true ->
  exists m,
    run codeBlockRegex kf pos
        (fence ++ lang ++ newlineText ++ code ++ fence ++ rest) []
    = Some m
    /\ groups m = [(1%nat, code)].
Proof.
  intros Hkf Hlang Hcode.
  unfold codeBlockRegex. cbn [run]. rewrite dropPrefix_app.
  set (k1 := run (Seq (Lit newlineText) (Seq (Group 1 (LazyStar anyChar)) (Lit fence))) kf).
  (* what the rest of the pattern gives once the tag has been read *)
  assert (Hbody : forall p, exists m,
             k1 p (newlineText ++ code ++ fence ++ rest) [] = Some m
             /\ groups m = [(1%nat, code)]).
  { intros p. unfold k1. cbn [run]. rewrite dropPrefix_app.
    rewrite starLazy_first.
    - match goal with
      | |- context [starLazy anyChar ?K ?a ?b ?c] =>
          assert (Hhere : exists m, K a b c = Some m /\ groups m = [(1%nat, code)])
      end.
      { cbv beta. cbn [run]. rewrite dropPrefix_app.
        match goal with
        | |- context [kf ?a ?b ?c] => destruct (Hkf a b c) as (m & Hm & Hg)
        end.
        exists m. split; [exact Hm|]. rewrite Hg.
        replace (p + String.length newlineText + String.length code
                 - (p + String.length newlineText))%nat
          with (String.length code) by lia.
        now rewrite substring_prefix. }
      destruct Hhere as (m & Hm & Hg). exists m. split; [|exact Hg].
      now apply starLazy_here.
    - clear. induction code; cbn; auto.
    - intros p0 u1 u2 Hsplit Hne. cbn [run].
      rewrite fence_not_here; [reflexivity | exact Hne |].
      clear - Hcode Hsplit. subst code. revert Hcode.
      induction u1 as [|c u1 IH]; cbn [append]; intros Hfree.
      + destruct u2 as [|c u2]; [reflexivity|].
        now destruct (fenceFree_cons c u2 Hfree).
      + apply IH. now destruct (fenceFree_cons c (u1 ++ u2) Hfree). }
  destruct lang as [|c lang].
  - cbn [append]. unfold newlineText at 1. cbn [append plusGreedy].
    change (isWord Parser.newline) with false. cbv iota.
    destruct (Hbody (pos + String.length fence)%nat) as (m & Hm & Hg).
    exists m. split; [exact Hm | exact Hg].
  - cbn [allOf] in Hlang. apply andb_prop in Hlang as [Hc Hl].
    cbn [append plusGreedy]. rewrite Hc.
    destruct (Hbody (S (pos + String.length fence) + String.length lang)%nat)
      as (m & Hm & Hg).
    rewrite (starGreedy_skip isWord k1 lang _ _ [] m Hl).
    + now exists m.
    + unfold newlineText at 1. cbn [append starGreedy].
      change (isWord Parser.newline) with false. cbv iota. exact Hm.
Qed.

(** X14.  A reply whose text before the first code fence has no fence in
    it, whose fence is followed by a tag of word characters (possibly
    none) and a line break, and whose block body is not empty and has no
    fence starting in it: [extractFixedCode] returns that body, trimmed,
    whatever follows the closing fence. *)
Theorem extractFixedCode_first_block
  (analysis lang code rest : string) :
  fenceFree analysis = true ->
  allOf isWord lang = true ->
  fenceFree code = true ->
  code <> "" ->
  extractFixedCode
    (analysis ++ fence ++ lang ++ newlineText ++ code ++ fence ++ rest)
  = Some (Js.trim code).
Proof.
  intros Hpre Hlang Hcode Hne.
  unfold extractFixedCode, exec.
  rewrite execFrom_skips_fenceFree by exact Hpre.
  rewrite execFrom_unfold.
  match goal with
  | |- context [run codeBlockRegex ?kf ?p _ []] =>
      destruct (codeBlock_matches_here kf lang code rest p) as (m & Hm & Hg)
  end; try assumption.
  { intros p s caps. eexists. split; reflexivity. }
  rewrite Hm. unfold group. rewrite Hg. cbn [lookupGroup Nat.eqb].
  destruct code; [congruence | reflexivity].
Qed.

Lemma extractFixedCode_first_block_witness :
  fenceFree "The loop bound is off by one. " = true
  /\ allOf isWord "js" = true
  /\ fenceFree ("for (let i = 0; i < n; i++) {}" ++ newlineText) = true
  /\ "for (let i = 0; i < n; i++) {}" ++ newlineText <> ""
  /\ extractFixedCode
       ("The loop bound is off by one. " ++ fence ++ "js" ++ newlineText
          ++ ("for (let i = 0; i < n; i++) {}" ++ newlineText) ++ fence ++ " Done.")
     = Some "for (let i = 0; i < n; i++) {}".
Proof.
  do 3 (split; [reflexivity|]). split; [discriminate|].
  exact (extractFixedCode_first_block
           "The loop bound is off by one. " "js"
           ("for (let i = 0; i < n; i++) {}" ++ newlineText) " Done."
           eq_refl eq_refl eq_refl ltac:(discriminate)).
Defined.

Lemma tickFree_cons (c : ascii) (s : string) :
  tickFree (String c s) = true ->
  Ascii.eqb "`" c = false /\ tickFree s = true.
Proof.
  unfold tickFree. rewrite includes_cons, negb_orb.
  change (Js.startsWith (String c s) "`") with (Ascii.eqb "`" c && true).
  rewrite andb_true_r. intros H. apply andb_prop in H as [H1 H2].
  split; [now apply negb_true_iff in H1 | exact H2].
Qed.

Lemma tickFree_app (a b : string) :
  tickFree (a ++ b) = true -> tickFree a = true /\ tickFree b = true.
Proof.
  induction a as [|c a IH]; cbn [append]; intros H; [now split|].
  destruct (tickFree_cons c (a ++ b) H) as [Hc Hab].
  destruct (IH Hab) as [Ha Hb]. split; [|exact Hb].
  unfold tickFree in *. rewrite includes_cons, negb_orb.
  change (Js.startsWith (String c a) "`") with (Ascii.eqb "`" c && true).
  now rewrite andb_true_r, Hc, Ha.
Qed.

(** Text without a backtick does not start with a fence. *)
Lemma tickFree_no_fence (s : string) :
  tickFree s = true -> dropPrefix fence s = None.
Proof.
  destruct s as [|c s]; [reflexivity|]. intros H.
  destruct (tickFree_cons c s H) as [Hc _].
  unfold fence. cbn -[Ascii.eqb]. now rewrite Hc.
Qed.

Lemma execFrom_skips_tickFree (pre s : string) :
  forall pos,
    tickFree pre = true ->
    execFrom codeBlockRegex pos (pre ++ s)
    = execFrom codeBlockRegex (pos + String.length pre) s.
Proof.
  induction pre as [|c pre IH]; intros pos Hfree.
  - cbn [append String.length]. now rewrite Nat.add_0_r.
  - destruct (tickFree_cons c pre Hfree) as [Hc Hrest].
    cbn [append]. rewrite execFrom_unfold.
    rewrite codeBlock_needs_fence
      by (unfold fence; cbn -[Ascii.eqb]; now rewrite Hc).
    rewrite (IH (S pos) Hrest). cbn [String.length]. now rewrite Nat.add_succ_r.
Qed.

Section FailingContinuations.

Context {R : Type}.
Variable cls : ascii -> bool.
Variable k : Cont R.
Hypothesis k_needs_tick :
  forall p s caps, tickFree s = true -> k p s caps = None.

Lemma starGreedy_tickFree (s : string) :
  forall pos caps, tickFree s = true -> starGreedy cls k pos s caps = None.
Proof.
  induction s as [|c s IH]; intros pos caps Hfree; cbn [starGreedy].
  - now apply k_needs_tick.
  - destruct (tickFree_cons c s Hfree) as [_ Hs].
    rewrite (IH _ _ Hs). destruct (cls c); now apply k_needs_tick.
Qed.

Lemma starLazy_tickFree (s : string) :
  forall pos caps, tickFree s = true -> starLazy cls k pos s caps = None.
Proof.
  induction s as [|c s IH]; intros pos caps Hfree; cbn [starLazy];
    rewrite (k_needs_tick _ _ _ Hfree); [reflexivity|].
  destruct (tickFree_cons c s Hfree) as [_ Hs].
  destruct (cls c); [now apply IH | reflexivity].
Qed.

End FailingContinuations.

(** At a fence after which there is no backtick at all, the pattern
    fails: no closing fence can be found. *)
Lemma codeBlock_unclosed (kf : Cont Match) (pos : nat) (post : string) :
  tickFree post = true ->
  run codeBlockRegex kf pos (fence ++ post) [] = None.
Proof.
  intros Hfree. unfold codeBlockRegex.
  rewrite run_seq, run_lit, run_seq, run_opt.
  set (k1 := run (Seq (Lit newlineText) (Seq (Group 1 (LazyStar anyChar)) (Lit fence))) kf).
  assert (Hk1 : forall p s caps, tickFree s = true -> k1 p s caps = None).
  { intros p s caps Hs. unfold k1. cbn [run].
    destruct (dropPrefix newlineText s) as [s'|] eqn:Hnl; [|reflexivity].
    apply dropPrefix_inv in Hnl. subst s.
    apply tickFree_app in Hs as [_ Hs'].
    apply starLazy_tickFree; [|exact Hs'].
    intros p0 s0 caps0 Hs0. cbn [run]. now rewrite (tickFree_no_fence _ Hs0). }
  rewrite (Hk1 _ _ _ Hfree).
  destruct post as [|c post]; [reflexivity|].
  cbn [run plusGreedy]. destruct (isWord c); [|reflexivity].
  destruct (tickFree_cons c post Hfree) as [_ Hpost].
  now rewrite (starGreedy_tickFree isWord k1 Hk1).
Qed.

(** At a fence whose tag runs into a character that is neither a word
    character nor the line break, the pattern fails. *)
Lemma codeBlock_bad_tag (kf : Cont Match) (pos : nat)
      (tag : string) (x : ascii) (rest : string) :
  allOf isWord tag = true ->
  isWord x = false ->
  x <> Parser.newline ->
  run codeBlockRegex kf pos (fence ++ tag ++ String x rest) [] = None.
Proof.
  intros Htag Hx Hnl. unfold codeBlockRegex.
  rewrite run_seq, run_lit, run_seq, run_opt.
  set (k1 := run (Seq (Lit newlineText) (Seq (Group 1 (LazyStar anyChar)) (Lit fence))) kf).
  assert (Hk1 : forall p u, allOf isWord u = true ->
                            k1 p (u ++ String x rest) [] = None).
  { intros p u Hu. unfold k1. cbn [run].
    destruct u as [|c u]; unfold newlineText; cbn -[Ascii.eqb].
    - destruct (Ascii.eqb_spec Parser.newline x) as [<-|]; [congruence | reflexivity].
    - cbn [allOf] in Hu. apply andb_prop in Hu as [Hc _].
      now rewrite (word_not_newline c Hc). }
  rewrite (Hk1 _ tag Htag).
  destruct tag as [|c tag]; cbn [append run plusGreedy].
  - now rewrite Hx.
  - cbn [allOf] in Htag. apply andb_prop in Htag as [Hc Ht]. rewrite Hc.
    rewrite (starGreedy_none isWord k1 tag); auto.
    cbn [stopsAt]. now rewrite Hx.
Qed.

(** X15.  A reply with one fenced block whose opening fence is followed
    by a tag that is not made of word characters only ([c++], [c#],
    [objective-c], a tag followed by a carriage return, ...) has no code
    block for [extractFixedCode]: it returns [null]. *)
Theorem extractFixedCode_rejects_tag
  (pre tag : string) (x : ascii) (body post : string) :
  tickFree pre = true ->
  allOf isWord tag = true ->
  isWord x = false ->
  x <> Parser.newline ->
  tickFree (tag ++ String x body) = true ->
  tickFree post = true ->
  extractFixedCode (pre ++ fence ++ tag ++ String x body ++ fence ++ post) = None.
Proof.
  intros Hpre Htag Hx Hnl Hbody Hpost.
  unfold extractFixedCode, exec.
  rewrite execFrom_skips_tickFree by exact Hpre.
  replace (tag ++ String x body ++ fence ++ post)
    with ((tag ++ String x body) ++ fence ++ post)
    by (rewrite append_assoc_str; reflexivity).
  (* the opening fence fails, and so do the two offsets inside it *)
  rewrite execFrom_unfold.
  replace ((tag ++ String x body) ++ fence ++ post)
    with (tag ++ String x (body ++ fence ++ post))
    by (rewrite append_assoc_str; reflexivity).
  rewrite codeBlock_bad_tag by assumption.
  replace (tag ++ String x (body ++ fence ++ post))
    with ((tag ++ String x body) ++ fence ++ post)
    by (rewrite append_assoc_str; reflexivity).
  set (mid := tag ++ String x body) in *.
  assert (Hhead : forall s, dropPrefix fence (String "`" (mid ++ s)) = None
                            /\ dropPrefix fence (String "`" (String "`" (mid ++ s))) = None).
  { intros s. subst mid. destruct tag as [|c tag]; cbn [append] in *.
    - destruct (tickFree_cons x body Hbody) as [Hc _].
      unfold fence. cbn -[Ascii.eqb]. rewrite !Ascii.eqb_refl, Hc. auto.
    - destruct (tickFree_cons c _ Hbody) as [Hc _].
      unfold fence. cbn -[Ascii.eqb]. rewrite !Ascii.eqb_refl, Hc. auto. }
  unfold fence at 1. cbn [append].
  rewrite execFrom_unfold, (codeBlock_needs_fence _ _ _ _ (proj2 (Hhead _))).
  rewrite execFrom_unfold, (codeBlock_needs_fence _ _ _ _ (proj1 (Hhead _))).
  rewrite execFrom_skips_tickFree by exact Hbody.
  (* the closing fence has nothing to close it *)
  rewrite execFrom_unfold, codeBlock_unclosed by exact Hpost.
  unfold fence at 1. cbn [append].
  assert (Hpost2 : dropPrefix fence (String "`" (String "`" post)) = None
                   /\ dropPrefix fence (String "`" post) = None).
  { destruct post as [|c post]; [now split|].
    destruct (tickFree_cons c post Hpost) as [Hc _].
    unfold fence. cbn -[Ascii.eqb]. rewrite !Ascii.eqb_refl, Hc. auto. }
  rewrite execFrom_unfold, (codeBlock_needs_fence _ _ _ _ (proj1 Hpost2)).
  rewrite execFrom_unfold, (codeBlock_needs_fence _ _ _ _ (proj2 Hpost2)).
  replace post with (post ++ "") at 1 by (clear; induction post; cbn; congruence).
  rewrite execFrom_skips_tickFree by exact Hpost.
  reflexivity.
Qed.

Lemma extractFixedCode_rejects_tag_witness :
  tickFree "Use a vector instead. " = true
  /\ allOf isWord "c" = true
  /\ isWord "+"%char = false
  /\ "+"%char <> Parser.newline
  /\ tickFree ("c" ++ String "+"%char ("+" ++ newlineText ++ "std::vector<int> v;" ++ newlineText))
     = true
  /\ tickFree "" = true
  /\ extractFixedCode
       ("Use a vector instead. " ++ fence ++ "c"
          ++ String "+"%char ("+" ++ newlineText ++ "std::vector<int> v;" ++ newlineText)
          ++ fence ++ "")
     = None.
Proof.
  do 3 (split; [reflexivity|]). split; [discriminate|]. do 2 (split; [reflexivity|]).
  exact (extractFixedCode_rejects_tag
           "Use a vector instead. " "c" "+"%char
           ("+" ++ newlineText ++ "std::vector<int> v;" ++ newlineText) ""
           eq_refl eq_refl eq_refl ltac:(discriminate) eq_refl eq_refl).
Defined.

(* ================================================================== *)
(** ** Finding the file in an error message *)
(* ================================================================== *)

Lemma substring_prefix_len (n : nat) (a b : string) :
  n = String.length a -> String.substring 0 n (a ++ b) = a.
Proof. intros ->. apply substring_prefix. Qed.

(** The maximal run of class characters at the start of a text is
    unique. *)
Lemma maximal_run_unique (cls : ascii -> bool) (a : string) :
  forall b x y,
    allOf cls a = true -> stopsAt cls x = true ->
    allOf cls b = true -> stopsAt cls y = true ->
    (a ++ x)%string = (b ++ y)%string ->
    a = b /\ x = y.
Proof.
  induction a as [|c a IH]; intros b x y Ha Hx Hb Hy Heq.
  - destruct b as [|d b]; [now split|].
    cbn in Heq. subst x. cbn in Hx, Hb.
    apply andb_prop in Hb as [Hd _]. now rewrite Hd in Hx.
  - cbn in Ha. apply andb_prop in Ha as [Hc Ha].
    destruct b as [|d b].
    + cbn in Heq. subst y. cbn in Hy. now rewrite Hc in Hy.
    + cbn in Heq, Hb. injection Heq as -> Heq.
      apply andb_prop in Hb as [_ Hb].
      destruct (IH b x y Ha Hx Hb Hy Heq) as [-> ->]. now split.
Qed.

Lemma dotFree_cons (c : ascii) (s : string) :
  dotFree (String c s) = true ->
  Ascii.eqb "." c = false /\ dotFree s = true.
Proof.
  unfold dotFree. rewrite includes_cons, negb_orb.
  change (Js.startsWith (String c s) ".") with (Ascii.eqb "." c && true).
  rewrite andb_true_r. intros H. apply andb_prop in H as [H1 H2].
  split; [now apply negb_true_iff in H1 | exact H2].
Qed.

Section NeedsDot.

Context {R : Type}.
Variable k : Cont R.
Hypothesis k_needs_dot :
  forall p s caps, dropPrefix "." s = None -> k p s caps = None.

(** A greedy run over path characters without a dot, up to a text that
    does not continue the run: the rest of the pattern, which starts
    with a dot, matches nowhere in it. *)
Lemma starGreedy_dotFree (a : string) :
  forall pos t caps,
    dotFree a = true ->
    stopsAt isPathChar t = true ->
    starGreedy isPathChar k pos (a ++ t) caps = None.
Proof.
  assert (Hstop : forall t, stopsAt isPathChar t = true -> dropPrefix "." t = None).
  { intros [|c t]; [reflexivity|]. cbn -[Ascii.eqb]. intros Hc.
    destruct (Ascii.eqb_spec "." c) as [<-|]; [discriminate Hc | reflexivity]. }
  induction a as [|c a IH]; intros pos t caps Hfree Hst.
  - cbn [append]. destruct t as [|c t]; cbn [starGreedy].
    + now apply k_needs_dot.
    + cbn [stopsAt] in Hst. apply negb_true_iff in Hst. rewrite Hst.
      apply k_needs_dot. apply Hstop. cbn [stopsAt]. now rewrite Hst.
  - destruct (dotFree_cons c a Hfree) as [Hc Ha].
    cbn [append starGreedy]. rewrite (IH (S pos) t caps Ha Hst).
    assert (Hk : k pos (String c (a ++ t)) caps = None)
      by (apply k_needs_dot; cbn -[Ascii.eqb]; now rewrite Hc).
    rewrite Hk. now destruct (isPathChar c).
Qed.

End NeedsDot.

(** [:(\d+)] needs a colon and a digit. *)
Lemma line_suffix_inv (kf : Cont Match) (p : nat) (s : string) (caps : Captures) (m : Match) :
  run (Seq (Lit ":") (Group 3 (Plus isDigit))) kf p s caps = Some m ->
  startsWithLine s = true.
Proof.
  cbn [run]. destruct (dropPrefix ":" s) as [s'|] eqn:Hc; [|discriminate].
  apply dropPrefix_inv in Hc. subst s.
  destruct s' as [|d s']; cbn [plusGreedy]; [discriminate|].
  destruct (isDigit d) eqn:Hd; [|discriminate].
  intros _. cbn -[isDigit]. exact Hd.
Qed.



(** The alternation matches one of its extensions. *)
Lemma extensions_inv {R} (k : Cont R) (p : nat) (s : string) (caps : Captures) (r : R) :
  run extensions k p s caps = Some r ->
  exists ext s',
    s = (ext ++ s')%string /\ In ext extensionNames
    /\ k (p + String.length ext)%nat s' caps = Some r.
Proof.
  unfold extensions, extensionNames. cbn [run].
  repeat match goal with
         | |- context [dropPrefix ?l s] =>
             let H := fresh "H" in
             let s' := fresh "s" in
             destruct (dropPrefix l s) as [s'|] eqn:H;
             [ apply dropPrefix_inv in H;
               destruct (k (p + String.length l)%nat s' caps) eqn:?;
               [ intros [= <-]; exists l, s'; cbn [In]; tauto | ]
             | ]
         end; discriminate.
Qed.

Lemma allOf_app (cls : ascii -> bool) (a b : string) :
  allOf cls (a ++ b) = allOf cls a && allOf cls b.
Proof. induction a as [|c a IH]; cbn; [reflexivity | now rewrite IH, andb_assoc]. Qed.

Lemma extension_is_path (ext : string) :
  In ext extensionNames -> allOf isPathChar ext = true /\ dotFree ext = true.
Proof.
  unfold extensionNames. cbn [In].
  intros H; repeat destruct H as [<-|H]; try contradiction; split; reflexivity.
Qed.

(** What follows the greedy path run in both anchored patterns: a dot,
    an extension, then the rest of the pattern. *)
Lemma dot_extension_needs_dot {R} (k : Cont R) :
  forall p s caps,
    dropPrefix "." s = None ->
    run (Seq (Lit ".") (Group 2 extensions)) k p s caps = None.
Proof. intros p s caps H. cbn [run]. now rewrite H. Qed.



Lemma run_group {R} (n : nat) (r : re) (k : Cont R) (pos : nat) (s : string)
      (caps : Captures) :
  run (Group n r) k pos s caps
  = run r (fun pos' s' caps' =>
             k pos' s' ((n, String.substring 0 (pos' - pos) s) :: caps'))
        pos s caps.
Proof. reflexivity. Qed.

Lemma run_plus {R} (cls : ascii -> bool) (k : Cont R) :
  run (Plus cls) k = plusGreedy cls k.
Proof. reflexivity. Qed.

Lemma run_lit_inv {R} (text s : string) (k : Cont R) (pos : nat)
      (caps : Captures) (r : R) :
  run (Lit text) k pos s caps = Some r ->
  exists s', s = (text ++ s')%string /\ k (pos + String.length text)%nat s' caps = Some r.
Proof.
  cbn [run]. destruct (dropPrefix text s) as [s'|] eqn:H; [|discriminate].
  apply dropPrefix_inv in H. intros Hk. now exists s'.
Qed.

(** Without a colon and a line number after the path run, the pattern
    with the line number matches nothing. *)
Lemma pattern1_needs_line (run_ rest : string) :
  allOf isPathChar run_ = true ->
  stopsAt isPathChar rest = true ->
  startsWithLine rest = false ->
  exec pattern1 (run_ ++ rest) = None.
Proof.
  intros Hrun Hstop Hline.
  unfold pattern1. rewrite exec_anchored.
  rewrite run_seq. unfold pathWithExtension.
  rewrite run_group, run_seq, run_plus.
  match goal with
  | |- plusGreedy _ ?K _ _ _ = None => set (kd := K)
  end.
  assert (Hkd : forall p u, allOf isPathChar u = true -> kd p (u ++ rest) [] = None).
  { intros p u Hu. destruct (kd p (u ++ rest) []) as [m|] eqn:Hm; [|reflexivity].
    exfalso. unfold kd in Hm. rewrite run_seq in Hm.
    apply run_lit_inv in Hm as (s1 & Hd & Hm). rewrite run_group in Hm.
    apply extensions_inv in Hm as (ext & s2 & -> & Hext & Hk).
    cbv beta in Hk. apply line_suffix_inv in Hk.
    destruct (extension_is_path ext Hext) as [Hpath _].
    assert (Hs2 : stopsAt isPathChar s2 = true).
    { destruct s2 as [|c [|d s2]]; try discriminate Hk.
      cbn -[isDigit isPathChar] in Hk. apply andb_prop in Hk as [Hc _].
      apply Ascii.eqb_eq in Hc. now subst c. }
    replace ("." ++ ext ++ s2)%string with (("." ++ ext) ++ s2)%string in Hd
      by reflexivity.
    destruct (maximal_run_unique isPathChar u ("." ++ ext) rest s2) as [_ ->]; auto.
    congruence. }
  destruct run_ as [|c run']; cbn [append plusGreedy].
  - clear Hkd. destruct rest as [|c rest]; cbn [plusGreedy]; [reflexivity|].
    cbn [stopsAt] in Hstop. apply negb_true_iff in Hstop. now rewrite Hstop.
  - cbn [allOf] in Hrun. apply andb_prop in Hrun as [Hc Hrun']. rewrite Hc.
    now apply starGreedy_none.
Qed.

(** The pattern without the line number, on a path whose extension
    continues one of [ts], [js] by an [x]: the alternation stops at the
    shorter name. *)
Lemma pattern2_stops_short (stem short rest : string) :
  stem <> "" ->
  allOf isPathChar stem = true ->
  In short ["ts"; "js"] ->
  stopsAt isPathChar rest = true ->
  exists m,
    exec pattern2 (stem ++ "." ++ short ++ "x" ++ rest) = Some m
    /\ groupText 1 m = (stem ++ "." ++ short)%string.
Proof.
  intros Hne Hstem Hshort Hstop.
  unfold pattern2. rewrite exec_anchored. unfold pathWithExtension.
  rewrite run_group, run_seq, run_plus.
  set (text := (stem ++ "." ++ short ++ "x" ++ rest)%string).
  match goal with
  | |- exists m, plusGreedy _ ?K _ _ _ = Some m /\ _ => set (kd := K)
  end.
  assert (Hkd : forall p s caps, dropPrefix "." s = None -> kd p s caps = None)
    by (intros; unfold kd; now apply dot_extension_needs_dot).
  assert (Hhere : exists m,
             kd (String.length stem) ("." ++ short ++ "x" ++ rest)%string [] = Some m
             /\ groupText 1 m = (stem ++ "." ++ short)%string).
  { unfold kd. rewrite run_seq, run_lit, run_group.
    assert (Htext : text = ((stem ++ "." ++ short) ++ "x" ++ rest)%string)
      by (subst text; rewrite !append_assoc_str; reflexivity).
    cbn [In] in Hshort. destruct Hshort as [<-|[<-|[]]];
      unfold extensions;
      cbn [run dropPrefix append Ascii.eqb Bool.eqb String.length];
      eexists; (split; [reflexivity|]);
      unfold groupText, group; cbn [groups lookupGroup Nat.eqb];
      rewrite Htext; apply substring_prefix_len;
      rewrite !length_append; cbn [String.length]; lia. }
  destruct Hhere as (m & Hm & Hg). exists m. split; [|exact Hg].
  destruct stem as [|c stem']; [congruence|].
  cbn [allOf] in Hstem. apply andb_prop in Hstem as [Hc Hstem'].
  subst text. cbn [append plusGreedy]. rewrite Hc.
  apply starGreedy_skip; [exact Hstem'|].
  change ("." ++ short ++ "x" ++ rest)%string
    with (String "." (short ++ "x" ++ rest)) in *.
  cbn [starGreedy]. change (isPathChar ".") with true. cbv iota.
  assert (Hin : forall p, starGreedy isPathChar kd p (short ++ "x" ++ rest) [] = None).
  { intros p. rewrite <- append_assoc_str.
    apply (starGreedy_dotFree kd Hkd (short ++ "x")); [|exact Hstop].
    cbn [In] in Hshort. destruct Hshort as [<-|[<-|[]]]; reflexivity. }
  rewrite Hin. cbn [String.length] in Hm.
  replace (1 + String.length stem')%nat with (S (String.length stem')) by lia.
  exact Hm.
Qed.

(** The shorter of two extensions wins when no line number follows. *)
Lemma parse_short_extension_wins (stem short rest : string) :
  stem <> "" ->
  allOf isPathChar stem = true ->
  stopsAt isPathChar rest = true ->
  startsWithLine rest = false ->
  In short ["ts"; "js"] ->
  parseErrorString (stem ++ "." ++ short ++ "x" ++ rest)
  = mkFileError (stem ++ "." ++ short) None.
Proof.
  intros Hne Hstem Hstop Hline Hshort. unfold parseErrorString.
  replace (stem ++ "." ++ short ++ "x" ++ rest)%string
    with ((stem ++ "." ++ short ++ "x") ++ rest)%string
    by (rewrite !append_assoc_str; reflexivity).
  rewrite pattern1_needs_line; auto.
  - replace ((stem ++ "." ++ short ++ "x") ++ rest)%string
      with (stem ++ "." ++ short ++ "x" ++ rest)%string
      by (rewrite !append_assoc_str; reflexivity).
    destruct (pattern2_stops_short stem short rest Hne Hstem Hshort Hstop)
      as (m & Hm & Hg).
    now rewrite Hm, Hg.
  - rewrite allOf_app, Hstem.
    cbn [In] in Hshort. destruct Hshort as [<-|[<-|[]]]; reflexivity.
Qed.

(** X17.  A message that starts with a [.tsx] or [.jsx] path that is not
    followed by a colon and a line number: [parseErrorString] returns the
    path cut to [.ts], respectively [.js], because the alternation tries
    the shorter extension first and nothing after it has to match. *)
Theorem parseErrorString_cuts_tsx_without_line (stem rest : string) :
  stem <> "" ->
  allOf isPathChar stem = true ->
  stopsAt isPathChar rest = true ->
  startsWithLine rest = false ->
  parseErrorString (stem ++ ".tsx" ++ rest) = mkFileError (stem ++ ".ts") None
  /\ parseErrorString (stem ++ ".jsx" ++ rest) = mkFileError (stem ++ ".js") None.
Proof.
  intros Hne Hstem Hstop Hline.
  split;
    [apply (parse_short_extension_wins stem "ts" rest)
    |apply (parse_short_extension_wins stem "js" rest)]; cbn; tauto.
Qed.

Lemma parseErrorString_cuts_tsx_without_line_witness :
  "src/App" <> ""
  /\ allOf isPathChar "src/App" = true
  /\ stopsAt isPathChar " TypeError: x is undefined" = true
  /\ startsWithLine " TypeError: x is undefined" = false
  /\ parseErrorString ("src/App" ++ ".tsx" ++ " TypeError: x is undefined")
     = mkFileError "src/App.ts" None.
Proof.
  split; [discriminate|]. do 3 (split; [reflexivity|]).
  exact (proj1 (parseErrorString_cuts_tsx_without_line "src/App"
                  " TypeError: x is undefined"
                  ltac:(discriminate) eq_refl eq_refl eq_refl)).
Defined.

(* ================================================================== *)
(** ** The [gen] command as a whole *)
(* ================================================================== *)

Import GenRun.

Ltac unfold_cmd :=
  cbv beta iota zeta delta [rbind rret out say rexit rthrow];
  cbn [rfile rlog rspawned rsaved].

Lemma innerOf_app (a b : list Output) :
  innerOf (a ++ b) = (innerOf a ++ innerOf b)%list.
Proof. apply flat_map_app. Qed.

Lemma innerOf_inner (t : list Event) : innerOf (map Inner t) = t.
Proof.
  unfold innerOf. induction t as [|e t IH]; cbn; [reflexivity | now f_equal].
Qed.

Lemma spawnsOf_app' (a b : list Event) :
  spawnsOf (a ++ b) = (spawnsOf a ++ spawnsOf b)%list.
Proof. apply flat_map_app. Qed.

Lemma spawnsVetted_nil : spawnsVetted [].
Proof. intros cmd []. Qed.

Lemma spawnsVetted_app (a b : list Output) :
  spawnsVetted a -> spawnsVetted b -> spawnsVetted (a ++ b).
Proof.
  intros Ha Hb cmd. rewrite innerOf_app, spawnsOf_app', in_app_iff.
  intros [H|H]; auto.
Qed.

Lemma spawnsVetted_own (o : Output) :
  (forall e, o <> Inner e) -> spawnsVetted [o].
Proof. intros Ho cmd. destruct o; cbn; try tauto. now destruct (Ho e). Qed.

Lemma keepsVetted_ret {A} (a : A) : keepsVetted (rret a).
Proof. intros s. exists []. cbn. rewrite app_nil_r. split; [reflexivity | apply spawnsVetted_nil]. Qed.

Lemma keepsVetted_exit {A} (code : Z) : keepsVetted (@rexit A code).
Proof. intros s. exists []. cbn. rewrite app_nil_r. split; [reflexivity | apply spawnsVetted_nil]. Qed.

Lemma keepsVetted_throw {A} : keepsVetted (@rthrow A).
Proof. intros s. exists []. cbn. rewrite app_nil_r. split; [reflexivity | apply spawnsVetted_nil]. Qed.

Lemma keepsVetted_out (o : Output) :
  (forall e, o <> Inner e) -> keepsVetted (out o).
Proof. intros Ho s. exists [o]. cbn. split; [reflexivity | now apply spawnsVetted_own]. Qed.

Lemma keepsVetted_say (level : Level) (text : RunMessage) : keepsVetted (say level text).
Proof. apply keepsVetted_out. discriminate. Qed.

Lemma keepsVetted_bind {A B} (m : RunM A) (k : A -> RunM B) :
  keepsVetted m -> (forall a, keepsVetted (k a)) -> keepsVetted (rbind m k).
Proof.
  intros Hm Hk s. unfold rbind.
  destruct (Hm s) as (m1 & Hlog1 & Hv1).
  destruct (m s) as [[a| code| |] s1]; cbn [snd] in *.
  - destruct (Hk a s1) as (m2 & Hlog2 & Hv2).
    exists (m1 ++ m2)%list. rewrite Hlog2, Hlog1, app_assoc.
    split; [reflexivity | now apply spawnsVetted_app].
  - now exists m1.
  - now exists m1.
  - now exists m1.
Qed.

Lemma keepsVetted_lift {A} (m : M A) :
  (forall w, forall cmd, In cmd (spawnsOf (trace (snd (m w)))) ->
                         In cmd (spawnsOf (trace w))
                         \/ SafetyChecker.isBlacklisted cmd = false) ->
  keepsVetted (lift m).
Proof.
  intros Hm s. unfold lift.
  specialize (Hm (mkWorld (rfile s) [] (rspawned s) (rsaved s))).
  destruct (m (mkWorld (rfile s) [] (rspawned s) (rsaved s))) as [r w].
  cbn [snd rlog trace] in *.
  exists (map Inner (trace w)). split; [reflexivity|].
  unfold spawnsVetted. rewrite innerOf_inner. intros cmd Hin.
  destruct (Hm cmd Hin) as [[]|H]; exact H.
Qed.

(** What the two entry points of the execution layer spawn is vetted. *)
Lemma multi_spawns_vetted (env : Env) (plan : list string) (userPrompt : string) (w : World) :
  forall cmd,
    In cmd (spawnsOf (trace (snd (executeMultipleCommands env plan userPrompt w)))) ->
    In cmd (spawnsOf (trace w)) \/ SafetyChecker.isBlacklisted cmd = false.
Proof.
  intros cmd.
  destruct (multi_step_run_characterised env plan userPrompt w)
    as (more & w' & Hrun & Htr & Hsum & _).
  rewrite Hrun. cbn [snd]. rewrite Htr, spawnsOf_app', in_app_iff.
  intros [H|H]; [now left | right].
  rewrite <- ranOf_summary, Hsum in H.
  destruct (existsb SafetyChecker.isBlacklisted plan) eqn:Hveto; [destruct H|].
  destruct (negb _); [destruct H|]. cbn [orb] in H.
  destruct (stepsSummary_prefix env plan (spawned w)) as (k & Hk).
  rewrite Hk in H. apply in_firstn_in in H.
  destruct (SafetyChecker.isBlacklisted cmd) eqn:Hb; [|reflexivity].
  assert (Hex : existsb SafetyChecker.isBlacklisted plan = true)
    by (apply existsb_exists; now exists cmd).
  congruence.
Qed.

Lemma single_spawns_vetted (env : Env) (command userPrompt : string) (w : World) :
  forall cmd,
    In cmd (spawnsOf (trace (snd (executeSingleCommand env command userPrompt w)))) ->
    In cmd (spawnsOf (trace w)) \/ SafetyChecker.isBlacklisted cmd = false.
Proof.
  intros cmd.
  destruct (single_command_run_characterised env command userPrompt w)
    as (more & w' & Hrun & Htr & Hsum & _).
  rewrite Hrun. cbn [snd]. rewrite Htr, spawnsOf_app', in_app_iff.
  intros [H|H]; [now left | right].
  rewrite <- ranOf_summary, Hsum in H.
  destruct (SafetyChecker.isBlacklisted command) eqn:Hveto; [destruct H|].
  destruct (negb _); [destruct H|]. cbn in H.
  destruct H as [<-|[]]. exact Hveto.
Qed.

Lemma getHistory_spawns (w : World) :
  forall cmd,
    In cmd (spawnsOf (trace (snd (getHistory w)))) ->
    In cmd (spawnsOf (trace w)) \/ SafetyChecker.isBlacklisted cmd = false.
Proof.
  intros cmd. destruct w as [[| |records] t sp sv]; cbn; auto.
  rewrite spawnsOf_app', in_app_iff. cbn. tauto.
Qed.

Lemma keepsVetted_listAlternatives (suggestions : list string) :
  forall i, keepsVetted (listAlternatives i suggestions).
Proof.
  induction suggestions as [|s rest IH]; intros i; cbn [listAlternatives].
  - apply keepsVetted_ret.
  - apply keepsVetted_bind; [apply keepsVetted_say | intros _; apply IH].
Qed.

Lemma keepsVetted_listHistory (items : list CommandHistory) :
  forall i, keepsVetted (listHistory i items).
Proof.
  induction items as [|item rest IH]; intros i; cbn [listHistory].
  - apply keepsVetted_ret.
  - repeat (apply keepsVetted_bind; [apply keepsVetted_say | intros _]). apply IH.
Qed.

Lemma keepsVetted_askChoice (count : nat) (typed : list string) :
  keepsVetted (askChoice count typed).
Proof.
  induction typed as [|t rest IH]; cbn [askChoice].
  - intros s. exists []. cbn. rewrite app_nil_r. split; [reflexivity | apply spawnsVetted_nil].
  - destruct (validChoice count t);
      (apply keepsVetted_bind; [apply keepsVetted_out; discriminate | intros _]).
    + apply keepsVetted_ret.
    + exact IH.
Qed.

Lemma keepsVetted_generateCommand (env : RunEnv) (userPrompt model : string) :
  keepsVetted (generateCommand env userPrompt model).
Proof.
  unfold generateCommand.
  apply keepsVetted_bind; [apply keepsVetted_out; discriminate | intros _].
  destruct (generate env model userPrompt) as [message|text].
  - repeat (apply keepsVetted_bind;
            [first [apply keepsVetted_say | apply keepsVetted_out; discriminate] | intros _]).
    apply keepsVetted_ret.
  - destruct (Js.startsWith (Js.trim text) "ERROR:");
      [|destruct (Parser.parseAIResponse (Js.trim text))];
      repeat (apply keepsVetted_bind;
              [first [apply keepsVetted_say | apply keepsVetted_out; discriminate] | intros _]);
      apply keepsVetted_ret.
Qed.

(** X18.  Whatever the arguments, the environment, the model's reply,
    the stored history and the user's answers are, no command that a run
    of [gen] spawns is blacklisted: neither one from the model's plan nor
    one re-run from the history. *)
Theorem gen_never_spawns_blacklisted
  (env : RunEnv) (argv : list string) (historyFlag : bool) (s : RunState) :
  exists more,
    rlog (snd (run env argv historyFlag s)) = (rlog s ++ more)%list
    /\ forall cmd, In cmd (spawnsOf (innerOf more)) ->
                   SafetyChecker.isBlacklisted cmd = false.
Proof.
  revert s. change (keepsVetted (run env argv historyFlag)).
  unfold run. destruct historyFlag.
  - unfold showHistory.
    apply keepsVetted_bind;
      [apply keepsVetted_lift, getHistory_spawns | intros history].
    destruct (Nat.eqb (length history) 0); [apply keepsVetted_say|].
    apply keepsVetted_bind; [apply keepsVetted_say | intros _].
    apply keepsVetted_bind; [apply keepsVetted_listHistory | intros _].
    apply keepsVetted_bind; [apply keepsVetted_out; discriminate | intros _].
    destruct (runAgain env); [|apply keepsVetted_ret].
    apply keepsVetted_bind; [apply keepsVetted_askChoice | intros choice].
    destruct (parseInt10 choice) as [num|]; [|apply keepsVetted_throw].
    destruct (at_index _ _) as [selected|]; [|apply keepsVetted_throw].
    apply keepsVetted_lift. intros w. apply single_spawns_vetted.
  - destruct (negb (ContextDetector.isSet (apiKey env))).
    + repeat (apply keepsVetted_bind; [apply keepsVetted_say | intros _]).
      apply keepsVetted_exit.
    + apply keepsVetted_bind.
      * destruct (Nat.eqb _ 0); [|apply keepsVetted_ret].
        apply keepsVetted_bind; [apply keepsVetted_say | intros _].
        apply keepsVetted_bind; [apply keepsVetted_out; discriminate | intros _].
        destruct (Js.truthy (typedPrompt env)); [apply keepsVetted_ret|].
        apply keepsVetted_bind; [apply keepsVetted_say | intros _].
        apply keepsVetted_exit.
      * intros userPrompt.
        apply keepsVetted_bind; [apply keepsVetted_say | intros _].
        apply keepsVetted_bind; [apply keepsVetted_generateCommand | intros result].
        destruct result as [plan|]; [|apply keepsVetted_exit].
        apply keepsVetted_bind.
        -- destruct (Nat.ltb 0 _); [|apply keepsVetted_ret].
           apply keepsVetted_bind; [apply keepsVetted_say | intros _].
           apply keepsVetted_listAlternatives.
        -- intros _.
           destruct (Parser.commands plan) as [|only [|second rest]];
             apply keepsVetted_lift; intros w;
             first [apply single_spawns_vetted | apply multi_spawns_vetted].
Qed.

(** A call into the execution layer never ends in a [TypeError]. *)
Lemma lift_run {A} (m : M A) (s : RunState) :
  lift m s =
  (match fst (m (mkWorld (rfile s) [] (rspawned s) (rsaved s))) with
   | Ret a => Done a
   | Exit code => Exited code
   end,
   let w := snd (m (mkWorld (rfile s) [] (rspawned s) (rsaved s))) in
   mkRunState (file w) (rlog s ++ map Inner (trace w)) (spawned w) (saved w)).
Proof. unfold lift. now destruct (m _) as [r w]. Qed.

Lemma asked_app (a b : list Output) : asked (a ++ b) = asked a + asked b.
Proof. unfold asked. now rewrite filter_app, length_app. Qed.

(** [generateCommand] touches neither the file nor the execution layer
    and asks the model once. *)
Lemma generateCommand_run (env : RunEnv) (userPrompt model : string) (s : RunState) :
  exists result more,
    generateCommand env userPrompt model s
    = (Done result, mkRunState (rfile s) (rlog s ++ more) (rspawned s) (rsaved s))
    /\ innerOf more = [] /\ asked more = 1
    /\ (result = None <->
        match generate env model userPrompt with
        | AiThrows _ => True
        | AiText text =>
            Js.startsWith (Js.trim text) "ERROR:" = true
            \/ Parser.parseAIResponse (Js.trim text) = Parser.TypeError
        end)
    /\ (forall plan, result = Some plan ->
        exists text, generate env model userPrompt = AiText text
                     /\ Parser.parseAIResponse (Js.trim text) = Parser.Normal plan).
Proof.
  unfold generateCommand.
  destruct (generate env model userPrompt) as [message|text].
  - eexists None, _. unfold_cmd. rewrite <- !app_assoc. cbn [app].
    split; [reflexivity|]. repeat split; auto; discriminate.
  - destruct (Js.startsWith (Js.trim text) "ERROR:") eqn:Herr.
    + eexists None, _. unfold_cmd. rewrite <- !app_assoc. cbn [app].
      split; [reflexivity|]. repeat split; auto; discriminate.
    + destruct (Parser.parseAIResponse (Js.trim text)) as [plan|] eqn:Hparse.
      * eexists (Some plan), _. unfold_cmd. rewrite <- !app_assoc. cbn [app].
        split; [reflexivity|]. split; [reflexivity|]. split; [reflexivity|].
        split.
        -- split; [discriminate | intros [H|H]; discriminate].
        -- intros p [= <-]. now exists text.
      * eexists None, _. unfold_cmd. rewrite <- !app_assoc. cbn [app].
        split; [reflexivity|]. repeat split; auto; discriminate.
Qed.

(** The part of [run] before the model is asked. *)
Lemma run_with_prompt (env : RunEnv) (argv : list string) (s : RunState)
      (userPrompt : string) :
  ContextDetector.isSet (apiKey env) = true ->
  effectivePrompt env argv = Some userPrompt ->
  exists before,
    innerOf before = [] /\ asked before = 0
    /\ run env argv false s
       = (result <~ generateCommand env userPrompt (effectiveModel env) ;;;
          match result with
          | None => rexit 1
          | Some plan =>
              (if Nat.ltb 0 (length (Parser.suggestions plan)) then
                 say LInfo MsgAlternatives ;;;
                 listAlternatives 0 (Parser.suggestions plan)
               else rret tt) ;;;
              match Parser.commands plan with
              | [only] => lift (executeSingleCommand (execEnv env) only userPrompt)
              | commands =>
                  lift (executeMultipleCommands (execEnv env) commands userPrompt)
              end
          end)
         (mkRunState (rfile s) (rlog s ++ before) (rspawned s) (rsaved s)).
Proof.
  intros Hkey Hprompt. unfold run, effectivePrompt, effectiveModel in *.
  rewrite Hkey. cbn [negb].
  destruct (Nat.eqb (String.length (Js.join " " argv)) 0).
  - destruct (Js.truthy (typedPrompt env)); [|discriminate].
    injection Hprompt as <-.
    eexists. split; [|split]; cycle 2.
    + unfold_cmd. rewrite <- !app_assoc. cbn [app]. reflexivity.
    + reflexivity.
    + reflexivity.
  - injection Hprompt as <-.
    eexists. split; [|split]; cycle 2.
    + unfold_cmd. reflexivity.
    + reflexivity.
    + reflexivity.
Qed.

(** X19.  When the model cannot be reached, or its reply (trimmed)
    starts with [ERROR:], a run of [gen] leaves with exit code 1: the
    model was asked once and not again, nothing of the execution layer
    happened (no confirmation, no spawn, no history record) and the
    history file is as it was. *)
Theorem gen_failed_reply_exits_without_effects
  (env : RunEnv) (argv : list string) (s : RunState) (userPrompt : string) :
  ContextDetector.isSet (apiKey env) = true ->
  effectivePrompt env argv = Some userPrompt ->
  match generate env (effectiveModel env) userPrompt with
  | AiThrows _ => True
  | AiText text => Js.startsWith (Js.trim text) "ERROR:" = true
  end ->
  exists more,
    run env argv false s
    = (Exited 1, mkRunState (rfile s) (rlog s ++ more) (rspawned s) (rsaved s))
    /\ innerOf more = [] /\ asked more = 1.
Proof.
  intros Hkey Hprompt Hreply.
  destruct (run_with_prompt env argv s userPrompt Hkey Hprompt)
    as (before & Hinner & Hasked & ->).
  unfold rbind at 1.
  match goal with
  | |- context [generateCommand ?e ?p ?m ?s0] =>
      destruct (generateCommand_run e p m s0)
        as (result & more & -> & Hin2 & Hask2 & Hnone & _)
  end.
  cbn [rfile rlog rspawned rsaved].
  assert (Hres : result = None).
  { apply Hnone. destruct (generate env (effectiveModel env) userPrompt); auto. }
  subst result. exists (before ++ more)%list.
  rewrite innerOf_app, asked_app, Hinner, Hin2, Hasked, Hask2, app_assoc.
  repeat split.
Qed.

Lemma gen_failed_reply_exits_without_effects_witness :
  exists more,
    run (replyingEnv (AiText "  ERROR: not a terminal task") []) ["sing"; "a"; "song"]
        false (fresh Absent)
    = (Exited 1, mkRunState Absent more 0 0)
    /\ innerOf more = [] /\ asked more = 1.
Proof.
  destruct (gen_failed_reply_exits_without_effects
              (replyingEnv (AiText "  ERROR: not a terminal task") [])
              ["sing"; "a"; "song"] (fresh Absent) "sing a song"
              eq_refl eq_refl eq_refl) as (more & Hrun & Hin & Hask).
  exists more. auto.
Defined.



Lemma quiet_ret {A} (a : A) : quiet (rret a) a.
Proof. intros s. exists []. cbn. now rewrite app_nil_r; destruct s. Qed.

Lemma quiet_out (o : Output) :
  innerOf [o] = [] -> asked [o] = 0 -> quiet (out o) tt.
Proof. intros Hin Hask s. exists [o]. auto. Qed.

Lemma quiet_say (level : Level) (text : RunMessage) : quiet (say level text) tt.
Proof. now apply quiet_out. Qed.

Lemma quiet_bind {A B} (m : RunM A) (k : A -> RunM B) (a : A) (b : B) :
  quiet m a -> quiet (k a) b -> quiet (rbind m k) b.
Proof.
  intros Hm Hk s. unfold rbind.
  destruct (Hm s) as (m1 & -> & Hin1 & Hask1).
  destruct (Hk (mkRunState (rfile s) (rlog s ++ m1) (rspawned s) (rsaved s)))
    as (m2 & -> & Hin2 & Hask2).
  exists (m1 ++ m2)%list. cbn [rfile rlog rspawned rsaved].
  rewrite innerOf_app, asked_app, Hin1, Hin2, Hask1, Hask2, app_assoc. auto.
Qed.

(** After a quiet step the rest runs on the state with its lines added. *)
Lemma quiet_then {A B} (m : RunM A) (k : A -> RunM B) (a : A) (s : RunState) :
  quiet m a ->
  exists more,
    rbind m k s = k a (printed s more) /\ innerOf more = [] /\ asked more = 0.
Proof.
  intros Hm. unfold rbind. destruct (Hm s) as (more & -> & Hin & Hask).
  now exists more.
Qed.

Lemma printed_printed (s : RunState) (a b : list Output) :
  printed (printed s a) b = printed s (a ++ b).
Proof. unfold printed. cbn. now rewrite app_assoc. Qed.

Lemma quiet_listAlternatives (suggestions : list string) :
  forall i, quiet (listAlternatives i suggestions) tt.
Proof.
  induction suggestions as [|x rest IH]; intros i; cbn [listAlternatives].
  - apply quiet_ret.
  - eapply quiet_bind; [apply quiet_say | apply IH].
Qed.

Lemma quiet_listHistory (items : list CommandHistory) :
  forall i, quiet (listHistory i items) tt.
Proof.
  induction items as [|x rest IH]; intros i; cbn [listHistory].
  - apply quiet_ret.
  - repeat (eapply quiet_bind; [apply quiet_say|]). apply IH.
Qed.

Lemma quiet_askChoice (count : nat) (refused : list string) (t : string)
      (later : list string) :
  allRefused count refused = true ->
  validChoice count t = true ->
  quiet (askChoice count (refused ++ t :: later)) t.
Proof.
  induction refused as [|r refused IH]; cbn [app askChoice allRefused forallb].
  - intros _ ->. eapply quiet_bind; [now apply quiet_out | apply quiet_ret].
  - intros [Hr Hrest]%andb_prop Ht.
    apply negb_true_iff in Hr. rewrite Hr.
    eapply quiet_bind; [now apply quiet_out | now apply IH].
Qed.

(** A validated answer names an entry of the list shown. *)
Lemma validChoice_selects {A} (recent : list A) (t : string) :
  validChoice (length recent) t = true ->
  exists num selected,
    parseInt10 t = Some num
    /\ (1 <= num <= Z.of_nat (length recent))%Z
    /\ at_index recent (num - 1) = Some selected
    /\ nth_error recent (Z.to_nat (num - 1)) = Some selected.
Proof.
  unfold validChoice. destruct (parseInt10 t) as [num|]; [|discriminate].
  intros [Hlo Hhi]%andb_prop.
  apply Z.leb_le in Hlo. apply Z.leb_le in Hhi.
  destruct (nth_error recent (Z.to_nat (num - 1))) as [selected|] eqn:Hnth.
  - exists num, selected. unfold at_index.
    destruct (Z.ltb_spec (num - 1) 0); [lia|]. auto.
  - apply nth_error_None in Hnth. lia.
Qed.

(** From the reply to the execution step. *)
Lemma run_dispatch (env : RunEnv) (argv : list string) (s : RunState)
      (userPrompt text : string) :
  ContextDetector.isSet (apiKey env) = true ->
  effectivePrompt env argv = Some userPrompt ->
  generate env (effectiveModel env) userPrompt = AiText text ->
  Js.startsWith (Js.trim text) "ERROR:" = false ->
  exists plan shown,
    Parser.parseAIResponse (Js.trim text) = Parser.Normal plan
    /\ run env argv false s = dispatch env plan userPrompt (printed s shown)
    /\ innerOf shown = [] /\ asked shown = 1.
Proof.
  intros Hkey Hprompt Hreply Herr.
  destruct (run_with_prompt env argv s userPrompt Hkey Hprompt)
    as (before & Hinner & Hasked & ->).
  unfold rbind at 1.
  match goal with
  | |- context [generateCommand ?e ?p ?m ?s0] =>
      destruct (generateCommand_run e p m s0)
        as (result & more & -> & Hin2 & Hask2 & Hnone & Hsome)
  end.
  cbn [rfile rlog rspawned rsaved].
  destruct (parseAIResponse_total (Js.trim text)) as (plan & Hplan).
  destruct result as [plan'|].
  - destruct (Hsome plan' eq_refl) as (text' & Ht & Hp).
    rewrite Hreply in Ht. injection Ht as <-.
    rewrite Hplan in Hp. injection Hp as <-.
    assert (Hq : quiet (if Nat.ltb 0 (length (Parser.suggestions plan))
                        then say LInfo MsgAlternatives ;;;
                             listAlternatives 0 (Parser.suggestions plan)
                        else rret tt) tt).
    { destruct (Nat.ltb 0 _); [|apply quiet_ret].
      eapply quiet_bind; [apply quiet_say | apply quiet_listAlternatives]. }
    match goal with
    | |- context [rbind ?m ?k ?s0] =>
        destruct (quiet_then m k tt s0 Hq) as (alts & -> & Hin3 & Hask3)
    end.
    exists plan, ((before ++ more) ++ alts)%list.
    split; [exact Hplan|]. split.
    + unfold dispatch, printed. cbn [rfile rlog rspawned rsaved].
      rewrite <- !app_assoc. reflexivity.
    + rewrite !innerOf_app, !asked_app, Hinner, Hin2, Hin3, Hasked, Hask2, Hask3.
      auto.
  - exfalso. destruct Hnone as [Hnone _]. specialize (Hnone eq_refl).
    rewrite Hreply in Hnone. destruct Hnone as [H|H]; congruence.
Qed.

(** X21.  Every reply that does not start with [ERROR:] is parsed into a
    plan (the parser cannot fail on it), the model is asked once, and the
    run then is the execution step for that plan, carried out on the
    history file as it was: [executeSingleCommand] for a plan of exactly
    one command, [executeMultipleCommands] for every other plan. *)
Theorem gen_executes_the_parsed_plan
  (env : RunEnv) (argv : list string) (s : RunState) (userPrompt text : string) :
  ContextDetector.isSet (apiKey env) = true ->
  effectivePrompt env argv = Some userPrompt ->
  generate env (effectiveModel env) userPrompt = AiText text ->
  Js.startsWith (Js.trim text) "ERROR:" = false ->
  exists plan shown,
    Parser.parseAIResponse (Js.trim text) = Parser.Normal plan
    /\ run env argv false s
       = (match Parser.commands plan with
          | [only] => lift (executeSingleCommand (execEnv env) only userPrompt)
          | commands =>
              lift (executeMultipleCommands (execEnv env) commands userPrompt)
          end) (printed s shown)
    /\ innerOf shown = [] /\ asked shown = 1.
Proof. exact (run_dispatch env argv s userPrompt text). Qed.

Lemma gen_executes_the_parsed_plan_witness :
  exists shown,
    run (replyingEnv (AiText "COMMAND: ls -la") []) ["list"; "files"] false (fresh Absent)
    = lift (executeSingleCommand
              (execEnv (replyingEnv (AiText "COMMAND: ls -la") []))
              "ls -la" "list files") (printed (fresh Absent) shown)
    /\ asked shown = 1.
Proof.
  destruct (gen_executes_the_parsed_plan
              (replyingEnv (AiText "COMMAND: ls -la") []) ["list"; "files"]
              (fresh Absent) "list files" "COMMAND: ls -la"
              eq_refl eq_refl eq_refl eq_refl)
    as (plan & shown & Hplan & Hrun & _ & Hask).
  injection Hplan as <-. exists shown. auto.
Defined.

(** X22.  A reply without any command line gives an empty plan, and the
    run treats it as a plan of zero steps: it still asks whether to run
    all steps (default yes); on yes it reports that all steps are done
    and returns normally, on no it cancels with exit code 0.  Nothing is
    spawned and the history file is not written. *)
Theorem gen_empty_plan_asks_and_reports_done
  (env : RunEnv) (argv : list string) (s : RunState) (userPrompt text : string)
  (suggestions : list string) :
  ContextDetector.isSet (apiKey env) = true ->
  effectivePrompt env argv = Some userPrompt ->
  generate env (effectiveModel env) userPrompt = AiText text ->
  Js.startsWith (Js.trim text) "ERROR:" = false ->
  Parser.parseAIResponse (Js.trim text) = Parser.Normal (Parser.mkPlan [] suggestions) ->
  exists more,
    run env argv false s
    = (if answer env true AskRunAll then Done tt else Exited 0, printed s more)
    /\ innerOf more
       = [Log LInfo (MsgPlanHeader 0); Confirm true AskRunAll;
          if answer env true AskRunAll then Log LSuccess MsgAllStepsDone
          else Log LWarn MsgCancelled].
Proof.
  intros Hkey Hprompt Hreply Herr Hplan.
  destruct (run_dispatch env argv s userPrompt text Hkey Hprompt Hreply Herr)
    as (plan & shown & Hplan' & -> & Hin & _).
  rewrite Hplan in Hplan'. injection Hplan' as <-.
  unfold dispatch. cbn [Parser.commands]. rewrite lift_run.
  unfold executeMultipleCommands. cbn [existsb length listPlan runSteps negb].
  unfold_gate. cbn [printed rfile rlog rspawned rsaved envAnswer execEnv detectedEnv].
  destruct (answer env true AskRunAll); unfold_gate; cbn [fst snd file trace spawned saved];
    eexists; (split; [unfold printed; cbn [rfile rlog rspawned rsaved];
                      rewrite <- app_assoc; reflexivity|]);
    rewrite innerOf_app, Hin, innerOf_inner; reflexivity.
Qed.

Lemma gen_empty_plan_asks_and_reports_done_witness :
  exists more,
    run (replyingEnv (AiText "You could try listing the files.") [])
        ["list"; "files"] false (fresh Absent)
    = (Done tt, printed (fresh Absent) more)
    /\ innerOf more
       = [Log LInfo (MsgPlanHeader 0); Confirm true AskRunAll;
          Log LSuccess MsgAllStepsDone].
Proof.
  exact (gen_empty_plan_asks_and_reports_done
           (replyingEnv (AiText "You could try listing the files.") [])
           ["list"; "files"] (fresh Absent) "list files"
           "You could try listing the files." []
           eq_refl eq_refl eq_refl eq_refl eq_refl).
Defined.

(** X23.  With [--history], a stored history and a user who asks for a
    re-run, the answers the choice prompt refuses change nothing, and the
    first accepted answer [n] selects entry [n] (counting from 1) of the
    ten newest: the run then is [executeSingleCommand] on that entry's
    command with that entry's prompt, so the re-run passes the same
    blacklist and confirmation as a fresh command.  The model is not
    asked and no API key is needed. *)
Theorem history_rerun_executes_chosen_entry
  (env : RunEnv) (argv : list string) (s : RunState)
  (h : list CommandHistory) (refused : list string) (t : string)
  (later : list string) :
  rfile s = Stored h ->
  h <> [] ->
  runAgain env = true ->
  typedChoices env = (refused ++ t :: later)%list ->
  allRefused (length (firstn 10 h)) refused = true ->
  validChoice (length (firstn 10 h)) t = true ->
  exists num selected shown,
    parseInt10 t = Some num
    /\ (1 <= num <= 10)%Z
    /\ nth_error h (Z.to_nat (num - 1)) = Some selected
    /\ run env argv true s
       = lift (executeSingleCommand (execEnv env) (command selected) (prompt selected))
              (printed s shown)
    /\ innerOf shown = [] /\ asked shown = 0.
Proof.
  intros Hfile Hne Hagain Htyped Hrefused Hvalid.
  destruct (validChoice_selects (firstn 10 h) t Hvalid)
    as (num & selected & Hparse & Hrange & Hat & Hnth).
  unfold run, showHistory. unfold rbind at 1. rewrite lift_run.
  unfold getHistory. cbn [file fst snd trace spawned saved]. rewrite Hfile.
  cbn [fst snd file trace spawned saved map]. rewrite app_nil_r.
  destruct h as [|e h']; [congruence|]. cbn [length Nat.eqb].
  rewrite Hagain, Htyped.
  set (recent := firstn 10 (e :: h')) in *.
  assert (Hq : quiet (say LInfo MsgHistoryHeader ;;;
                      listHistory 0 recent ;;;
                      out AskedRunAgain ;;;
                      askChoice (length recent) (refused ++ t :: later)) t).
  { eapply quiet_bind; [apply quiet_say|].
    eapply quiet_bind; [apply quiet_listHistory|].
    eapply quiet_bind; [now apply quiet_out|].
    now apply quiet_askChoice. }
  match goal with
  | |- context [mkRunState ?f ?l ?a ?b] => set (s0 := mkRunState f l a b)
  end.
  assert (Hs0 : s0 = printed s []).
  { unfold s0, printed. now rewrite app_nil_r, Hfile. }
  destruct (Hq s0) as (shown & Hrun & Hin & Hask).
  unfold rbind in *.
  destruct (say LInfo MsgHistoryHeader s0) as [[[]| | |] s1]; try discriminate.
  destruct (listHistory 0 recent s1) as [[[]| | |] s2]; try discriminate.
  destruct (out AskedRunAgain s2) as [[[]| | |] s3]; try discriminate.
  rewrite Hrun, Hparse, Hat.
  exists num, selected, shown. split; [reflexivity|].
  assert (Hlen : length recent <= 10) by apply firstn_le_length.
  split; [lia|]. split.
  - subst recent. rewrite nth_error_firstn in Hnth.
    destruct (Nat.ltb_spec (Z.to_nat (num - 1)) 10); [exact Hnth | discriminate].
  - split; [|auto]. rewrite Hs0. unfold printed. cbn [rfile rlog rspawned rsaved].
    rewrite app_nil_r. reflexivity.
Qed.

Lemma history_rerun_executes_chosen_entry_witness :
  exists shown,
    run (replyingEnv (AiThrows "offline") ["0"; "three"; " 2nd"; "1"]) []
        true (fresh (Stored sampleHistory))
    = lift (executeSingleCommand
              (execEnv (replyingEnv (AiThrows "offline") ["0"; "three"; " 2nd"; "1"]))
              "git status" "what changed")
           (printed (fresh (Stored sampleHistory)) shown)
    /\ asked shown = 0.
Proof.
  destruct (history_rerun_executes_chosen_entry
              (replyingEnv (AiThrows "offline") ["0"; "three"; " 2nd"; "1"]) []
              (fresh (Stored sampleHistory)) sampleHistory
              ["0"; "three"] " 2nd" ["1"]
              eq_refl ltac:(discriminate) eq_refl eq_refl eq_refl eq_refl)
    as (num & selected & shown & Hparse & _ & Hnth & Hrun & _ & Hask).
  injection Hparse as <-. injection Hnth as <-.
  exists shown. auto.
Defined.

(* ================================================================== *)
(** ** The [fix] command *)
(* ================================================================== *)

Import FixRun.

Ltac unfold_fix :=
  cbv beta iota zeta delta [fbind fret out say fexit throw confirm tryCatch];
  cbn [disk historyFile log calls execs saves].

Lemma writesOf_app (a b : list Output) :
  writesOf (a ++ b) = (writesOf a ++ writesOf b)%list.
Proof. apply flat_map_app. Qed.

Lemma writesOf_retry (evs : list Fix.Event) : writesOf (map Retry evs) = [].
Proof. induction evs as [|e evs IH]; [reflexivity | exact IH]. Qed.

Section WritesOnly.

Variable P : string * string * bool -> Prop.

Lemma writesOnly_none {A} (m : FixM A) :
  (forall s, exists more,
      log (snd (m s)) = (log s ++ more)%list /\ writesOf more = []) ->
  writesOnly P m.
Proof.
  intros H s. destruct (H s) as (more & Hlog & Hw).
  exists more. split; [exact Hlog|]. rewrite Hw. intros w [].
Qed.

Lemma writesOnly_ret {A} (a : A) : writesOnly P (fret a).
Proof. apply writesOnly_none. intros s. exists []. cbn. now rewrite app_nil_r. Qed.

Lemma writesOnly_exit {A} (code : Z) : writesOnly P (@fexit A code).
Proof. apply writesOnly_none. intros s. exists []. cbn. now rewrite app_nil_r. Qed.

Lemma writesOnly_throw {A} (error : option string) : writesOnly P (@throw A error).
Proof. apply writesOnly_none. intros s. exists []. cbn. now rewrite app_nil_r. Qed.

Lemma writesOnly_out (o : Output) : writesOf [o] = [] -> writesOnly P (out o).
Proof. intros Ho. apply writesOnly_none. intros s. now exists [o]. Qed.

Lemma writesOnly_say (level : Level) (text : FixMessage) : writesOnly P (say level text).
Proof. now apply writesOnly_out. Qed.

Lemma writesOnly_bind_returns {A B} (Q : A -> Prop) (m : FixM A) (k : A -> FixM B) :
  writesOnly P m -> returnsOnly Q m -> (forall a, Q a -> writesOnly P (k a)) ->
  writesOnly P (fbind m k).
Proof.
  intros Hm HQ Hk s. unfold fbind.
  destruct (Hm s) as (m1 & Hlog1 & Hv1).
  destruct (m s) as [[a| code| error] s1] eqn:Hrun; cbn [snd] in *.
  - destruct (Hk a (HQ s a s1 Hrun) s1) as (m2 & Hlog2 & Hv2).
    exists (m1 ++ m2)%list. rewrite Hlog2, Hlog1, app_assoc.
    split; [reflexivity|]. intros w. rewrite writesOf_app, in_app_iff.
    intros [H|H]; auto.
  - now exists m1.
  - now exists m1.
Qed.

Lemma writesOnly_bind {A B} (m : FixM A) (k : A -> FixM B) :
  writesOnly P m -> (forall a, writesOnly P (k a)) -> writesOnly P (fbind m k).
Proof.
  intros Hm Hk. apply (writesOnly_bind_returns (fun _ => True)); auto.
  now intros s a s' _.
Qed.

Lemma writesOnly_tryCatch {A} (body : FixM A) (handler : option string -> FixM A) :
  writesOnly P body -> (forall error, writesOnly P (handler error)) ->
  writesOnly P (tryCatch body handler).
Proof.
  intros Hm Hk s. unfold tryCatch.
  destruct (Hm s) as (m1 & Hlog1 & Hv1).
  destruct (body s) as [[a| code| error] s1]; cbn [snd] in *.
  - now exists m1.
  - now exists m1.
  - destruct (Hk error s1) as (m2 & Hlog2 & Hv2).
    exists (m1 ++ m2)%list. rewrite Hlog2, Hlog1, app_assoc.
    split; [reflexivity|]. intros w. rewrite writesOf_app, in_app_iff.
    intros [H|H]; auto.
Qed.

Lemma writesOnly_state {A} (f : FixState -> FixM A) :
  (forall s0, writesOnly P (f s0)) -> writesOnly P (fun s0 => f s0 s0).
Proof. intros H s. exact (H s s). Qed.

Lemma writesOnly_getHistory : writesOnly P getHistory.
Proof.
  apply writesOnly_none. intros s. unfold getHistory.
  destruct (historyFile s).
  - exists []. cbn. now rewrite app_nil_r.
  - now exists [Said LWarn MsgHistoryReadFailed].
  - exists []. cbn. now rewrite app_nil_r.
Qed.

Lemma writesOnly_saveToHistory (env : FixEnv) (path message : string)
      (ok : bool) (type : FixType) :
  writesOnly P (saveToHistory env path message ok type).
Proof.
  unfold saveToHistory. apply writesOnly_bind; [apply writesOnly_getHistory|].
  intros history. apply writesOnly_none. intros s.
  destruct (historyWritable env (saves s)).
  - eexists. cbn. split; reflexivity.
  - eexists. unfold_fix. cbn. rewrite <- app_assoc. split; reflexivity.
Qed.

Lemma writesOnly_validateFileSize (env : FixEnv) (path : string) :
  writesOnly P (validateFileSize env path).
Proof.
  unfold validateFileSize. destruct (1048576 <? sizeOf env path)%Z.
  - apply writesOnly_bind; [apply writesOnly_say | intros _; apply writesOnly_ret].
  - apply writesOnly_ret.
Qed.

Lemma writesOnly_readFileSync (env : FixEnv) (path : string) :
  writesOnly P (readFileSync env path).
Proof.
  apply writesOnly_none. intros s. unfold readFileSync.
  destruct (readFailure env path), (disk s path); eexists; cbn; split; reflexivity.
Qed.

Lemma writesOnly_execSync (env : FixEnv) (command : string) :
  writesOnly P (execSync env command).
Proof. apply writesOnly_none. intros s. eexists. cbn. split; reflexivity. Qed.

Lemma writesOnly_askModel (env : FixEnv) (prompt : Prompt) :
  writesOnly P (askModel env prompt).
Proof.
  apply writesOnly_none. intros s. unfold askModel.
  destruct (Fix.retryWithBackoff _ 3 1000 (calls s)) as [r|].
  - exists (map Retry (Fix.events r)).
    destruct (Fix.outcome r) as [[text|message]|lastError]; cbn;
      (split; [reflexivity | apply writesOf_retry]).
  - exists []. cbn. now rewrite app_nil_r.
Qed.

Lemma writesOnly_confirm (env : FixEnv) (default : bool) (q : Question) :
  writesOnly P (confirm env default q).
Proof.
  unfold confirm. apply writesOnly_bind; [now apply writesOnly_out|].
  intros _. apply writesOnly_ret.
Qed.

Lemma writesOnly_reportFailure (error : option string) :
  writesOnly P (reportFailure error).
Proof.
  unfold reportFailure.
  apply writesOnly_bind; [now apply writesOnly_out | intros _].
  apply writesOnly_bind; [apply writesOnly_say | intros _].
  destruct error; [apply writesOnly_say | apply writesOnly_throw].
Qed.

Lemma writesOnly_chooseCommand (env : FixEnv) (ext path : string) :
  writesOnly P (chooseCommand env ext path).
Proof.
  unfold chooseCommand.
  destruct (_ || _); [apply writesOnly_ret|].
  destruct (String.eqb ext ".py"); [apply writesOnly_ret|].
  destruct (String.eqb ext ".ts").
  - apply writesOnly_bind; [apply writesOnly_execSync | intros [| ? ? ?]];
      [apply writesOnly_ret|].
    apply writesOnly_bind; [apply writesOnly_execSync | intros [| ? ? ?]];
      [apply writesOnly_ret|].
    apply writesOnly_bind; [apply writesOnly_say | intros _; apply writesOnly_ret].
  - apply writesOnly_bind; [apply writesOnly_say | intros _; apply writesOnly_ret].
Qed.

Lemma writesOnly_detectErrors (env : FixEnv) (path : string) :
  writesOnly P (detectErrors env path).
Proof.
  unfold detectErrors.
  apply writesOnly_bind; [apply writesOnly_chooseCommand | intros [command|]];
    [|apply writesOnly_ret].
  apply writesOnly_bind; [apply writesOnly_execSync | intros [| ? ? ?]];
    apply writesOnly_ret.
Qed.

Lemma writesOnly_listHistory (items : list FixHistory) :
  writesOnly P (listHistory items).
Proof.
  induction items as [|item rest IH]; cbn [listHistory]; [apply writesOnly_ret|].
  apply writesOnly_bind; [apply writesOnly_say | intros _].
  apply writesOnly_bind; [apply writesOnly_say | intros _].
  apply writesOnly_bind; [|intros _; exact IH].
  destruct rest; [apply writesOnly_ret | apply writesOnly_say].
Qed.

Lemma writesOnly_showHistory : writesOnly P showHistory.
Proof.
  unfold showHistory.
  apply writesOnly_bind; [apply writesOnly_getHistory | intros history].
  destruct (Nat.eqb _ 0); [apply writesOnly_say|].
  apply writesOnly_bind; [apply writesOnly_say | intros _].
  apply writesOnly_listHistory.
Qed.

Lemma writesOnly_writeFileSync (env : FixEnv) (path content : string) :
  (forall ok, P (path, content, ok)) ->
  writesOnly P (writeFileSync env path content).
Proof.
  intros HP s. unfold writeFileSync.
  destruct (writeFailure env path); eexists; cbn;
    (split; [reflexivity|]); intros w [<-|[]]; apply HP.
Qed.

End WritesOnly.

Lemma returnsOnly_confirm (env : FixEnv) (default : bool) (q : Question) :
  returnsOnly (fun a => a = answer env default q) (confirm env default q).
Proof. intros s a s'. unfold_fix. now intros [= <- _]. Qed.

Lemma usable_code (code : option string) :
  usable code = true -> code = Some (codeOf code) /\ codeOf code <> "".
Proof. destruct code as [[|c t]|]; cbn; try discriminate. now split. Qed.

Ltac quiet_fix :=
  lazymatch goal with
  | |- writesOnly _ (fret _) => apply writesOnly_ret
  | |- writesOnly _ (fexit _) => apply writesOnly_exit
  | |- writesOnly _ (throw _) => apply writesOnly_throw
  | |- writesOnly _ (say _ _) => apply writesOnly_say
  | |- writesOnly _ (out _) => apply writesOnly_out; reflexivity
  | |- writesOnly _ (saveToHistory _ _ _ _ _) => apply writesOnly_saveToHistory
  | |- writesOnly _ (validateFileSize _ _) => apply writesOnly_validateFileSize
  | |- writesOnly _ (readFileSync _ _) => apply writesOnly_readFileSync
  | |- writesOnly _ (askModel _ _) => apply writesOnly_askModel
  | |- writesOnly _ (reportFailure _) => apply writesOnly_reportFailure
  | |- writesOnly _ (detectErrors _ _) => apply writesOnly_detectErrors
  | |- writesOnly _ showHistory => apply writesOnly_showHistory
  end.

Ltac quiet_steps :=
  repeat (apply writesOnly_bind; [quiet_fix | intros ?]).

(** Every write of a run of [fix] is a permitted one. *)
Lemma run_writes_permitted
  (env : FixEnv) (argv : list string) (auto history : bool) :
  writesOnly (fun w => history = false /\ permittedWrite env argv auto w)
             (run env argv auto history).
Proof.
  unfold run.
  destruct (negb (ContextDetector.isSet (apiKey env))); [quiet_steps; quiet_fix|].
  destruct history; [quiet_fix|].
  destruct auto.
  - unfold autoDetectAndFix.
    destruct argv as [|filePath rest]; cbn [hd_error]; [quiet_steps; quiet_fix|].
    destruct (negb (Js.truthy filePath)); [quiet_steps; quiet_fix|].
    apply writesOnly_state. intros s0.
    destruct (negb (existsSync s0 filePath)); [quiet_steps; quiet_fix|].
    apply writesOnly_bind; [quiet_fix | intros sizeOk].
    destruct (negb sizeOk); [quiet_fix|].
    apply writesOnly_bind; [quiet_fix | intros _].
    apply writesOnly_bind; [quiet_fix | intros [message|]];
      [|quiet_steps; quiet_fix].
    quiet_steps.
    apply writesOnly_tryCatch; [|intros error; quiet_steps; quiet_fix].
    apply writesOnly_bind; [quiet_fix | intros aiResponse].
    apply writesOnly_bind; [quiet_fix | intros _].
    destruct (usable (FixParse.extractFixedCode aiResponse)) eqn:Hcode;
      [|quiet_steps; quiet_fix].
    apply usable_code in Hcode as [Hcode Hne].
    quiet_steps.
    apply (writesOnly_bind_returns _ _ _ _ (writesOnly_confirm _ _ _ _)
                                   (returnsOnly_confirm _ _ _)).
    intros applyFix ->.
    destruct (answer env true AskApply) eqn:Hyes; [|quiet_steps; quiet_fix].
    apply writesOnly_bind.
    + apply writesOnly_writeFileSync. intros ok. split; [reflexivity|].
      cbn. split; [now exists aiResponse|]. auto.
    + intros _.
      apply writesOnly_bind; [quiet_fix | intros _].
      apply writesOnly_bind; [quiet_fix | intros _].
      apply writesOnly_bind; [quiet_fix | intros [still|]]; quiet_steps; quiet_fix.
  - destruct (negb (Js.truthy (Js.join " " argv))); [quiet_steps; quiet_fix|].
    apply writesOnly_bind.
    + apply writesOnly_state. intros s0.
      destruct (_ && _); [|quiet_fix].
      apply writesOnly_bind; [quiet_fix | intros sizeOk].
      destruct (negb sizeOk); [quiet_fix|].
      apply writesOnly_tryCatch; [|intros _; quiet_steps; quiet_fix].
      apply writesOnly_bind; [quiet_fix | intros fileContent].
      apply writesOnly_bind; [quiet_fix | intros _].
      apply writesOnly_bind; [|intros _; quiet_fix].
      destruct (FixParse.line _) as [n|]; [destruct (Z.eqb n 0)|]; quiet_fix.
    + intros [fileContent hasFile]. cbn [fst snd].
      apply writesOnly_bind; [quiet_fix | intros _].
      apply writesOnly_tryCatch.
      * apply writesOnly_bind; [quiet_fix | intros aiResponse].
        apply writesOnly_bind; [quiet_fix | intros _].
        destruct (usable (FixParse.extractFixedCode aiResponse)) eqn:Hcode;
          cbn [andb]; [|quiet_steps; quiet_fix].
        destruct hasFile; [|quiet_steps; quiet_fix].
        apply usable_code in Hcode as [Hcode Hne].
        quiet_steps.
        apply (writesOnly_bind_returns _ _ _ _ (writesOnly_confirm _ _ _ _)
                                       (returnsOnly_confirm _ _ _)).
        intros applyFix ->.
        destruct (answer env false AskApplyToFile) eqn:Hyes; [|quiet_steps; quiet_fix].
        apply writesOnly_bind.
        -- apply writesOnly_writeFileSync. intros ok. split; [reflexivity|].
           cbn. split; [now exists aiResponse|]. auto.
        -- intros _. quiet_steps. quiet_fix.
      * intros error. apply writesOnly_bind; [quiet_fix | intros _].
        destruct hasFile; quiet_fix.
Qed.



Lemma savesOf_app (a b : list Output) : savesOf (a ++ b) = (savesOf a ++ savesOf b)%list.
Proof. apply flat_map_app. Qed.

Lemma retriesOf_app (a b : list Output) :
  retriesOf (a ++ b) = (retriesOf a ++ retriesOf b)%list.
Proof. apply flat_map_app. Qed.

Lemma execsOf_app (a b : list Output) : execsOf (a ++ b) = (execsOf a ++ execsOf b)%list.
Proof. apply flat_map_app. Qed.

Lemma asksOf_app (a b : list Output) : asksOf (a ++ b) = (asksOf a ++ asksOf b)%list.
Proof. apply flat_map_app. Qed.

Lemma retriesOf_retry (evs : list Fix.Event) : retriesOf (map Retry evs) = evs.
Proof.
  unfold retriesOf. induction evs as [|e evs IH]; cbn; [reflexivity | now f_equal].
Qed.


(** One call of [saveToHistory], read as a whole. *)
Lemma fix_saveToHistory_run (env : FixEnv) (path message : string) (ok : bool)
      (type : FixType) (s : FixState) :
  let records :=
    pushBounded (mkFixHistory message path type ok (clock env (saves s)))
                (priorFixes (historyFile s)) in
  exists more,
    saveToHistory env path message ok type s
    = (Done tt,
       mkFixState (disk s)
                  (if historyWritable env (saves s) then HistoryStored records
                   else historyFile s)
                  (log s ++ more) (calls s) (execs s) (S (saves s)))
    /\ savesOf more = [records] /\ writesOf more = [] /\ retriesOf more = []
    /\ execsOf more = [] /\ asksOf more = [].
Proof.
  intros records. subst records. destruct s as [d h l c e sv].
  unfold saveToHistory, getHistory. unfold fbind at 1. cbn [historyFile].
  destruct h as [| |prior]; unfold_fix; cbn [priorFixes];
    destruct (historyWritable env sv); unfold_fix;
    eexists; (split; [rewrite <- ?app_assoc; reflexivity|]); repeat split.
Qed.

(** The first attempt succeeds: one invocation, no wait. *)
Lemma askModel_first_reply (env : FixEnv) (prompt : Prompt) (reply : string)
      (s : FixState) :
  generate env (ContextDetector.orElse (modelName env) defaultModel) (calls s) prompt
  = Fix.Fulfilled (BodyText reply) ->
  askModel env prompt s
  = (Done reply,
     mkFixState (disk s) (historyFile s) (log s ++ [Retry Fix.Invoke])
                (S (calls s)) (execs s) (saves s)).
Proof.
  intros Hgen. unfold askModel, Fix.retryWithBackoff.
  change (Z.to_nat 3) with 3%nat. cbn [Fix.retryLoop].
  change (0 <? 3)%Z with true. cbv iota. rewrite Hgen. reflexivity.
Qed.

(** Three rejections: the last error is thrown after two waits. *)
Lemma askModel_three_rejections (env : FixEnv) (prompt : Prompt)
      (e1 e2 e3 : string) (s : FixState) :
  let model := ContextDetector.orElse (modelName env) defaultModel in
  generate env model (calls s) prompt = Fix.Rejected e1 ->
  generate env model (S (calls s)) prompt = Fix.Rejected e2 ->
  generate env model (S (S (calls s))) prompt = Fix.Rejected e3 ->
  askModel env prompt s
  = (Threw (Some e3),
     mkFixState (disk s) (historyFile s) (log s ++ map Retry threeFailedAttempts)
                (S (S (S (calls s)))) (execs s) (saves s)).
Proof.
  intros model H1 H2 H3. subst model.
  unfold askModel, Fix.retryWithBackoff.
  change (Z.to_nat 3) with 3%nat. cbn [Fix.retryLoop].
  change (0 <? 3)%Z with true. cbv iota. rewrite H1.
  change (0 + 1)%Z with 1%Z. change (1 <? 3)%Z with true.
  change (0 <? 3 - 1)%Z with true. cbv iota. rewrite H2.
  change (1 + 1)%Z with 2%Z. change (2 <? 3)%Z with true.
  change (1 <? 3 - 1)%Z with true. cbv iota. rewrite H3.
  change (2 + 1)%Z with 3%Z. change (3 <? 3)%Z with false.
  change (2 <? 3 - 1)%Z with false. cbv iota.
  reflexivity.
Qed.


Lemma truthy_nonempty (s : string) : s <> "" -> Js.truthy s = true.
Proof. destruct s; [congruence | reflexivity]. Qed.

Ltac save_step :=
  match goal with
  | |- context [saveToHistory ?e ?p ?m ?ok ?t ?s0] =>
      let more := fresh "saved" in
      let Hrun := fresh "Hsave" in
      destruct (fix_saveToHistory_run e p m ok t s0)
        as (more & Hrun & ? & ? & ? & ? & ?);
      rewrite Hrun; clear Hrun
  end.

Ltac run_fix :=
  cbv beta iota zeta
      delta [fbind fret out say fexit throw confirm tryCatch negb andb
             execSync readFileSync writeFileSync usable codeOf fst snd
             disk historyFile log calls execs saves].

Ltac read_log :=
  rewrite ?writesOf_app, ?savesOf_app, ?retriesOf_app, ?execsOf_app, ?asksOf_app,
          ?retriesOf_retry, ?writesOf_retry.

(** X26.  When all three attempts to reach the model are rejected (and no
    file was found for the error text), a run of [fix] waits 1000 ms and
    2000 ms between the attempts, shows the last error and returns
    normally: it does not leave with an exit code.  It records the
    failure in the history under the path [N/A] and writes no file. *)
Theorem fix_api_failure_is_recorded_not_fatal
  (env : FixEnv) (argv : list string) (s : FixState) (e1 e2 e3 : string) :
  ContextDetector.isSet (apiKey env) = true ->
  Js.join " " argv <> "" ->
  Js.truthy (FixParse.filePath (FixParse.parseErrorString (Js.join " " argv)))
  && existsSync s (FixParse.filePath (FixParse.parseErrorString (Js.join " " argv)))
  = false ->
  generate env (ContextDetector.orElse (modelName env) defaultModel) (calls s)
           (PromptWithoutFile (Js.join " " argv)) = Fix.Rejected e1 ->
  generate env (ContextDetector.orElse (modelName env) defaultModel) (S (calls s))
           (PromptWithoutFile (Js.join " " argv)) = Fix.Rejected e2 ->
  generate env (ContextDetector.orElse (modelName env) defaultModel) (S (S (calls s)))
           (PromptWithoutFile (Js.join " " argv)) = Fix.Rejected e3 ->
  exists more s',
    run env argv false false s = (Done tt, s')
    /\ log s' = (log s ++ more)%list
    /\ disk s' = disk s
    /\ retriesOf more = threeFailedAttempts
    /\ savesOf more
       = [pushBounded (mkFixHistory (Js.join " " argv) "N/A" Manual false
                                    (clock env (saves s)))
                      (priorFixes (historyFile s))]
    /\ writesOf more = []
    /\ In (Said LInfo (MsgErrorText e3)) more.
Proof.
  intros Hkey Hne Hnofile H1 H2 H3.
  unfold run. rewrite Hkey, (truthy_nonempty _ Hne). cbn [negb].
  destruct s as [d h l c e sv]. cbn [calls saves historyFile log disk] in *.
  unfold fbind at 1. rewrite Hnofile. unfold_fix. cbn [fst snd].
  rewrite (askModel_three_rejections env _ e1 e2 e3) by assumption.
  unfold reportFailure. unfold_fix.
  save_step. cbn [disk historyFile log calls execs saves] in *.
  eexists; eexists. split; [reflexivity|]. cbn [log disk].
  split; [rewrite <- !app_assoc; reflexivity|]. split; [reflexivity|].
  read_log. cbn [app retriesOf savesOf writesOf flat_map].
  repeat match goal with H : _ = _ |- _ => rewrite H end.
  rewrite !app_nil_r.
  split; [reflexivity|]. split; [reflexivity|]. split; [reflexivity|].
  right. apply in_or_app. right. cbn. auto.
Qed.

Lemma fix_api_failure_is_recorded_not_fatal_witness :
  exists more s',
    run (fixEnv (fun _ => Fix.Rejected "503 Service Unavailable") true (fun _ => ExecOk))
        ["EADDRINUSE:"; "port"; "3000"] false false (begin noFiles HistoryAbsent)
    = (Done tt, s')
    /\ log s' = more
    /\ retriesOf more = threeFailedAttempts
    /\ writesOf more = [].
Proof.
  destruct (fix_api_failure_is_recorded_not_fatal
              (fixEnv (fun _ => Fix.Rejected "503 Service Unavailable") true
                      (fun _ => ExecOk))
              ["EADDRINUSE:"; "port"; "3000"] (begin noFiles HistoryAbsent)
              "503 Service Unavailable" "503 Service Unavailable"
              "503 Service Unavailable"
              eq_refl ltac:(discriminate) eq_refl eq_refl eq_refl eq_refl)
    as (more & s' & Hrun & Hlog & _ & Hretry & _ & Hwrites & _).
  exists more, s'. auto.
Defined.

(** X27.  [fix --auto] on a file whose extension (lower-cased) is none of
    [.js], [.mjs], [.py], [.ts]: [detectErrors] warns that the extension
    is not supported and returns [null], which the command takes for "no
    error": it reports that no error was detected and leaves with exit
    code 0.  Nothing is executed, the model is not asked, the history is
    not written. *)
Theorem auto_unsupported_extension_reports_no_error
  (env : FixEnv) (path : string) (rest : list string) (s : FixState) :
  ContextDetector.isSet (apiKey env) = true ->
  path <> "" ->
  existsSync s path = true ->
  (sizeOf env path <= 1048576)%Z ->
  ~ In (Js.toLowerCase (extname env path)) supportedExtensions ->
  run env (path :: rest) true false s
  = (Exited 0,
     mkFixState (disk s) (historyFile s)
                (log s ++ [Said LInfo (MsgDetecting path);
                           Said LWarn (MsgUnsupported (Js.toLowerCase (extname env path)));
                           Said LSuccess MsgNoErrorDetected;
                           Said LInfo MsgRunsFine])
                (calls s) (execs s) (saves s)).
Proof.
  intros Hkey Hne Hexists Hsize Hext.
  unfold run, autoDetectAndFix. rewrite Hkey. cbn [negb hd_error].
  rewrite (truthy_nonempty _ Hne). cbn [negb]. rewrite Hexists. cbn [negb].
  unfold validateFileSize.
  destruct (Z.ltb_spec 1048576 (sizeOf env path)); [lia|].
  unfold detectErrors, chooseCommand.
  set (ext := Js.toLowerCase (extname env path)) in *.
  assert (Hjs : String.eqb ext ".js" = false)
    by (apply String.eqb_neq; intros E; apply Hext; rewrite E; cbn; auto).
  assert (Hmjs : String.eqb ext ".mjs" = false)
    by (apply String.eqb_neq; intros E; apply Hext; rewrite E; cbn; auto).
  assert (Hpy : String.eqb ext ".py" = false)
    by (apply String.eqb_neq; intros E; apply Hext; rewrite E; cbn; auto).
  assert (Hts : String.eqb ext ".ts" = false)
    by (apply String.eqb_neq; intros E; apply Hext; rewrite E; cbn; auto).
  rewrite Hjs, Hmjs, Hpy, Hts. cbn [orb].
  destruct s as [d h l c e sv]. unfold_fix. cbn [negb].
  rewrite <- !app_assoc. reflexivity.
Qed.

Lemma auto_unsupported_extension_reports_no_error_witness :
  fst (run (fixEnv (fun _ => Fix.Rejected "unused") true (fun _ => ExecFails "boom" "" ""))
           ["notes.txt"] true false
           (begin (oneFile "notes.txt" "syntax error here") HistoryAbsent))
  = Exited 0.
Proof.
  rewrite (auto_unsupported_extension_reports_no_error
             (fixEnv (fun _ => Fix.Rejected "unused") true
                     (fun _ => ExecFails "boom" "" ""))
             "notes.txt" [] (begin (oneFile "notes.txt" "syntax error here") HistoryAbsent)
             eq_refl ltac:(discriminate) eq_refl ltac:(cbn; lia)
             ltac:(cbn; intuition discriminate)).
  reflexivity.
Defined.

(** X28.  [fix --auto] on a Python file whose run fails: when the first
    reply of the model holds a code block and the user accepts (the
    default answer is yes), the file is overwritten with the block, the
    same command is run once more, and the history record carries the
    first error message and succeeds exactly when that second run
    returned without error. *)
Theorem auto_fix_is_verified_by_second_run
  (env : FixEnv) (path old reply code : string) (rest : list string) (s : FixState) :
  ContextDetector.isSet (apiKey env) = true ->
  path <> "" ->
  disk s path = Some old ->
  (sizeOf env path <= 1048576)%Z ->
  Js.toLowerCase (extname env path) = ".py" ->
  ranClean (exec env (execs s) ("python " ++ quoted path)) = false ->
  readFailure env path = None ->
  generate env (ContextDetector.orElse (modelName env) defaultModel) (calls s)
           (PromptAutoDetect (reported (exec env (execs s) ("python " ++ quoted path)))
                             old path)
  = Fix.Fulfilled (BodyText reply) ->
  FixParse.extractFixedCode reply = Some code ->
  code <> "" ->
  answer env true AskApply = true ->
  writeFailure env path = None ->
  exists more s',
    run env (path :: rest) true false s = (Done tt, s')
    /\ log s' = (log s ++ more)%list
    /\ disk s' = updated (disk s) path code
    /\ execsOf more = ["python " ++ quoted path; "python " ++ quoted path]
    /\ asksOf more = [(true, AskApply)]
    /\ writesOf more = [(path, code, true)]
    /\ savesOf more
       = [pushBounded
            (mkFixHistory (reported (exec env (execs s) ("python " ++ quoted path)))
                          path Auto
                          (ranClean (exec env (S (execs s)) ("python " ++ quoted path)))
                          (clock env (saves s)))
            (priorFixes (historyFile s))].
Proof.
  intros Hkey Hne Hdisk Hsize Hext Hfails Hread Hgen Hcode Hcodene Hyes Hwrite.
  unfold run, autoDetectAndFix. rewrite Hkey. cbn [negb hd_error].
  rewrite (truthy_nonempty _ Hne). cbn [negb].
  unfold existsSync. rewrite Hdisk. cbn [negb].
  unfold validateFileSize.
  destruct (Z.ltb_spec 1048576 (sizeOf env path)); [lia|].
  unfold detectErrors, chooseCommand. rewrite Hext.
  change (String.eqb ".py" ".js" || String.eqb ".py" ".mjs") with false.
  change (String.eqb ".py" ".py") with true. cbv iota.
  destruct s as [d h l c e sv]. cbn [disk historyFile log calls execs saves] in *.
  destruct (exec env e ("python " ++ quoted path)) as [|stderr stdout message] eqn:Hexec;
    [discriminate|].
  cbn [reported] in *.
  pose proof (truthy_nonempty _ Hcodene) as Htruthy.
  destruct (exec env (S e) ("python " ++ quoted path))
    as [|stderr2 stdout2 message2] eqn:Hexec2;
    repeat first [ progress run_fix
                 | rewrite Hexec | rewrite Hexec2 | rewrite Hread | rewrite Hdisk
                 | rewrite (askModel_first_reply env _ reply) by exact Hgen
                 | rewrite Hcode | rewrite Htruthy | rewrite Hyes | rewrite Hwrite ];
    save_step; cbn [disk historyFile log calls execs saves ranClean] in *;
    (eexists; eexists; split; [reflexivity|]); cbn [log disk];
    (split; [rewrite <- !app_assoc; reflexivity|]); (split; [reflexivity|]);
    read_log; cbn [app execsOf asksOf writesOf savesOf flat_map];
    repeat match goal with H : _ = _ :> list _ |- _ => rewrite H end;
    rewrite ?app_nil_r; repeat split.
Qed.

Lemma auto_fix_is_verified_by_second_run_witness :
  exists more s',
    run (fixEnv (fun _ => Fix.Fulfilled (BodyText (fencedReply "print(total)")))
                true
                (fun n => if Nat.eqb n 0 then ExecFails "NameError: totl" "" "" else ExecOk))
        ["sum.py"] true false (begin (oneFile "sum.py" "print(totl)") HistoryAbsent)
    = (Done tt, s')
    /\ disk s' "sum.py" = Some "print(total)"
    /\ savesOf more
       = [[mkFixHistory "NameError: totl" "sum.py" Auto true "2025-01-01T00:00:00.000Z"]].
Proof.
  destruct (auto_fix_is_verified_by_second_run
              (fixEnv (fun _ => Fix.Fulfilled (BodyText (fencedReply "print(total)")))
                      true
                      (fun n => if Nat.eqb n 0 then ExecFails "NameError: totl" "" ""
                                else ExecOk))
              "sum.py" "print(totl)" (fencedReply "print(total)") "print(total)" []
              (begin (oneFile "sum.py" "print(totl)") HistoryAbsent)
              eq_refl ltac:(discriminate) eq_refl ltac:(cbn; lia) eq_refl eq_refl
              eq_refl eq_refl eq_refl ltac:(discriminate) eq_refl eq_refl)
    as (more & s' & Hrun & _ & Hdisk & _ & _ & _ & Hsaves).
  exists more, s'. split; [exact Hrun|]. split; [now rewrite Hdisk|]. exact Hsaves.
Defined.



Lemma join_cons (a : string) (words : list string) :
  Js.join " " (a :: words)
  = a ++ match words with [] => "" | _ :: _ => " " ++ Js.join " " words end.
Proof.
  destruct words as [|b words]; cbn [Js.join].
  - clear. induction a as [|c a IH]; cbn; [reflexivity | now rewrite <- IH].
  - reflexivity.
Qed.

(** X30.  [fix] called with a [.tsx] file as its first argument (a path
    of word characters, dots, slashes and hyphens), whatever words of
    error text follow: every write the run makes goes to the file with
    the extension [.ts], not to the file named. *)
Theorem fix_tsx_argument_writes_ts_file
  (env : FixEnv) (stem : string) (words : list string) (s : FixState) :
  stem <> "" ->
  allOf isPathChar stem = true ->
  exists more,
    log (snd (run env ((stem ++ ".tsx") :: words) false false s))
    = (log s ++ more)%list
    /\ forall path content ok,
         In (path, content, ok) (writesOf more) -> path = stem ++ ".ts".
Proof.
  intros Hne Hstem.
  destruct (run_writes_permitted env ((stem ++ ".tsx") :: words) false false s)
    as (more & Hlog & Hwrites).
  exists more. split; [exact Hlog|].
  intros path content ok Hin.
  destruct (Hwrites _ Hin) as (_ & _ & _ & -> & _).
  rewrite join_cons.
  set (rest := match words with [] => "" | _ :: _ => " " ++ Js.join " " words end).
  replace ((stem ++ ".tsx") ++ rest)%string
    with (stem ++ "." ++ "ts" ++ "x" ++ rest)%string
    by (rewrite !append_assoc_str; reflexivity).
  rewrite parse_short_extension_wins; auto.
  - subst rest. now destruct words.
  - subst rest. destruct words as [|w words']; [reflexivity|].
    cbn [String.append startsWithLine].
    now destruct (Js.join " " (w :: words')).
  - cbn. auto.
Qed.

Lemma fix_tsx_argument_writes_ts_file_witness :
  exists more,
    log (snd (run (fixEnv (fun _ => Fix.Fulfilled
                                      (BodyText (fencedReply "export const App = 1")))
                          true (fun _ => ExecOk))
                  ["src/App.tsx"; "TypeError"] false false
                  (begin (oneFile "src/App.ts" "export const Ap = 1") HistoryAbsent)))
    = more
    /\ forall path content ok,
         In (path, content, ok) (writesOf more) -> path = "src/App.ts".
Proof.
  exact (fix_tsx_argument_writes_ts_file
           (fixEnv (fun _ => Fix.Fulfilled (BodyText (fencedReply "export const App = 1")))
                   true (fun _ => ExecOk))
           "src/App" ["TypeError"]
           (begin (oneFile "src/App.ts" "export const Ap = 1") HistoryAbsent)
           ltac:(discriminate) eq_refl).
Defined.
